(** * WRC-Helper: the reshaping functions of [Helper.py]

    A shallow embedding of the adapter class [Helper] (src/Helper.py) and the
    properties its specification states about it.

    The adapter works on JSON payloads decoded by [requests]: Python objects
    built from [None], booleans, integers, floats, strings, lists and
    dictionaries.  The embedding keeps that dynamic shape: records are
    dictionaries looked up by key, a missing key raises [KeyError], and the
    functions are written in an error monad that propagates the first
    exception raised, in Python's evaluation order.

    Conventions of the model:
    - parameters that the docstrings type as [list], [int] or [str] are
      [list value], [Z] or [string]; what the lists contain is dynamic;
    - an integer is unbounded and a float is an IEEE 754 double, with the
      [spec_float] operations of the Standard Library: true division
      rounds to the nearest double and raises [OverflowError] on an
      integer quotient beyond the range;
    - strings are sequences of 8-bit characters; [str_lower] is
      [str.lower] on ASCII text, and the statements that depend on the
      letter case are stated for ASCII names and queries;
    - payloads are parse trees: no two records are the same object, so the
      in-place update of a record is a functional update of its value.

    The file has three parts: the Python objects and the functions of
    [Helper], translated one by one; the vocabulary of the specification
    with the example payloads; and the properties, one section per
    function. *)

From Stdlib Require Import ZArith QArith List String Ascii Bool Arith Lia.
From Stdlib Require Import SpecFloat.
From Stdlib Require Import DecimalString.
From Stdlib Require DecimalZ DecimalPos.
From Stdlib Require Import Sorted Permutation.
Import ListNotations.

#[local] Set Warnings "-register-all".

Local Open Scope string_scope.
Local Open Scope Z_scope.
Local Open Scope list_scope.

(** ** Exceptions and the error monad *)

Inductive error : Type :=
| KeyError
| IndexError
| TypeError
| ValueError
| AttributeError
| OverflowError
| RequestError.

Inductive result (A : Type) : Type :=
| Ok (a : A)
| Err (e : error).

Arguments Ok {A} a.
Arguments Err {A} e.

Definition bind {A B : Type} (m : result A) (k : A -> result B) : result B :=
  match m with
  | Ok a => k a
  | Err e => Err e
  end.

Declare Scope py_scope.
Delimit Scope py_scope with py.
Notation "x <- m ;; k" := (bind m (fun x => k))
  (at level 61, m at next level, right associativity) : py_scope.
Notation "' pat <- m ;; k" := (bind m (fun x => match x with pat => k end))
  (at level 61, pat pattern, m at next level, right associativity) : py_scope.
Local Open Scope py_scope.

(** [[f(x) for x in l]]: the elements are evaluated from left to right and
    the first exception stops the comprehension. *)
Fixpoint mapM {A B : Type} (f : A -> result B) (l : list A) : result (list B) :=
  match l with
  | [] => Ok []
  | x :: l' => y <- f x ;; ys <- mapM f l' ;; Ok (y :: ys)
  end.

(** [[x for x in l if p(x)]] and [list(filter(p, l))]. *)
Fixpoint filterM {A : Type} (p : A -> result bool) (l : list A) : result (list A) :=
  match l with
  | [] => Ok []
  | x :: l' =>
      b <- p x ;; ys <- filterM p l' ;; Ok (if b then x :: ys else ys)
  end.

(** [[f(x) for x in l if p(x)]]: test and element are evaluated item by
    item. *)
Fixpoint compM {A B : Type} (p : A -> result bool) (f : A -> result B)
  (l : list A) : result (list B) :=
  match l with
  | [] => Ok []
  | x :: l' =>
      b <- p x ;;
      if b then y <- f x ;; ys <- compM p f l' ;; Ok (y :: ys)
      else compM p f l'
  end.

(** [for x in l: acc = body(acc, x)]. *)
Fixpoint foldM {A S : Type} (body : S -> A -> result S) (l : list A) (acc : S)
  : result S :=
  match l with
  | [] => Ok acc
  | x :: l' => acc' <- body acc x ;; foldM body l' acc'
  end.

(** [next((f(x) for x in l if p(x)), None)]: the generator is consumed up to
    its first element only, so nothing after the first match is evaluated. *)
Fixpoint nextM {A B : Type} (p : A -> result bool) (f : A -> result B)
  (l : list A) : result (option B) :=
  match l with
  | [] => Ok None
  | x :: l' =>
      b <- p x ;;
      if b then y <- f x ;; Ok (Some y) else nextM p f l'
  end.

(** ** Python objects *)

Inductive value : Type :=
| VNone
| VBool (b : bool)
| VInt (n : Z)
| VFloat (f : spec_float)
| VStr (s : string)
| VList (l : list value)
| VDict (d : list (value * value)).

(** A dictionary is the list of its items in insertion order; the functions
    below keep the keys pairwise different. *)
Definition dict : Type := list (value * value).

Definition hashable (v : value) : bool :=
  match v with
  | VList _ | VDict _ => false
  | _ => true
  end.

(** *** Numbers

    An integer is unbounded.  A float is an IEEE 754 double: a
    [spec_float] at precision 53 with [emax = 1024], signed zeros,
    infinities and NaN included. *)

(** What a number stands for: NaN, an infinity, or a rational. *)
Inductive num : Type :=
| NNan
| NInf (negative : bool)
| NFin (q : Q).

Definition num_of_float (f : spec_float) : num :=
  match f with
  | S754_nan => NNan
  | S754_infinity s => NInf s
  | S754_zero _ => NFin 0
  | S754_finite s m e =>
      let z := if s then Zneg m else Zpos m in
      NFin (match e with
            | Z0 => inject_Z z
            | Zpos p => inject_Z (z * 2 ^ Zpos p)
            | Zneg p => Qmake z (2 ^ p)%positive
            end)
  end.

(** The numeric tower: [bool] is a subclass of [int], and numbers of
    different types compare by value, exactly. *)
Definition num_of (v : value) : option num :=
  match v with
  | VBool b => Some (NFin (inject_Z (if b then 1 else 0)))
  | VInt n => Some (NFin (inject_Z n))
  | VFloat f => Some (num_of_float f)
  | _ => None
  end.

(** [x == y] and [x < y] on numbers: NaN is equal to nothing and below
    nothing. *)
Definition num_eqb (x y : num) : bool :=
  match x, y with
  | NFin a, NFin b => Qeq_bool a b
  | NInf s, NInf t => Bool.eqb s t
  | _, _ => false
  end.

Definition num_ltb (x y : num) : bool :=
  match x, y with
  | NFin a, NFin b => negb (Qle_bool b a)
  | NInf true, (NFin _ | NInf false) => true
  | NFin _, NInf false => true
  | _, _ => false
  end.

(** The integer [n] as a floating-point number with an unrounded
    mantissa. *)
Definition exact_int (n : Z) : spec_float :=
  match n with
  | Z0 => S754_zero false
  | Zpos p => S754_finite false p 0
  | Zneg p => S754_finite true p 0
  end.

(** [n / 1000] for an integer [n]: the double nearest to the quotient,
    ties to even; a quotient beyond the range of the doubles raises
    [OverflowError]. *)
Definition int_div1000 (n : Z) : result spec_float :=
  match SFdiv 53 1024 (exact_int n) (exact_int 1000) with
  | S754_infinity _ => Err OverflowError
  | f => Ok f
  end.

(** [f / 1000] for a float [f]: the division of IEEE 754, which does not
    raise. *)
Definition float_div1000 (f : spec_float) : spec_float :=
  SFdiv 53 1024 f (exact_int 1000).

(** [a == b]. Lists compare element by element; dictionaries compare as
    mappings, whatever the order of their items. *)
Fixpoint py_eq (a b : value) {struct a} : bool :=
  match a, b with
  | VNone, VNone => true
  | VStr s, VStr t => String.eqb s t
  | VList la, VList lb =>
      (fix eq_items (la lb : list value) {struct la} : bool :=
         match la, lb with
         | [], [] => true
         | x :: la', y :: lb' => py_eq x y && eq_items la' lb'
         | _, _ => false
         end) la lb
  | VDict da, VDict db =>
      Nat.eqb (List.length da) (List.length db) &&
      (fix all_items (da : list (value * value)) {struct da} : bool :=
         match da with
         | [] => true
         | (k, v) :: da' =>
             match
               (fix find (db : list (value * value)) : option value :=
                  match db with
                  | [] => None
                  | (k', v') :: db' => if py_eq k k' then Some v' else find db'
                  end) db
             with
             | Some v' => py_eq v v'
             | None => false
             end && all_items da'
         end) da
  | (VBool _ | VInt _ | VFloat _), _ =>
      match num_of a, num_of b with
      | Some x, Some y => num_eqb x y
      | _, _ => false
      end
  | _, _ => false
  end.

(** [bool(v)]: what [if v:] and [not v] test. *)
Definition truthy (v : value) : bool :=
  match v with
  | VNone => false
  | VBool b => b
  | VInt n => negb (n =? 0)%Z
  | VFloat f => match f with S754_zero _ => false | _ => true end
  | VStr s => negb (String.eqb s "")
  | VList l => match l with [] => false | _ => true end
  | VDict d => match d with [] => false | _ => true end
  end.

(** [x in l] for a list [l]. *)
Definition py_in (x : value) (l : list value) : bool :=
  existsb (fun y => py_eq y x) l.

(** *** Dictionaries *)

Fixpoint dict_get (d : dict) (k : value) : option value :=
  match d with
  | [] => None
  | (k', v) :: d' => if py_eq k' k then Some v else dict_get d' k
  end.

(** [d[k] = v]: an existing key keeps its place (and its key object), a new
    key goes last. *)
Fixpoint dict_set (d : dict) (k v : value) : dict :=
  match d with
  | [] => [(k, v)]
  | (k', v') :: d' =>
      if py_eq k' k then (k', v) :: d' else (k', v') :: dict_set d' k v
  end.

Definition dict_keys (d : dict) : list value := map fst d.

(** *** Sequences *)

Fixpoint chars (s : string) : list value :=
  match s with
  | EmptyString => []
  | String c s' => VStr (String c EmptyString) :: chars s'
  end.

(** [seq[i]] for an integer [i]; negative indices count from the end. *)
Definition index_list (l : list value) (i : Z) : result value :=
  let n := Z.of_nat (List.length l) in
  let j := if i <? 0 then i + n else i in
  if (0 <=? j) && (j <? n)
  then match nth_error l (Z.to_nat j) with
       | Some v => Ok v
       | None => Err IndexError
       end
  else Err IndexError.

Definition as_index (k : value) : option Z :=
  match k with
  | VInt i => Some i
  | VBool b => Some (if b then 1 else 0)
  | _ => None
  end.

(** [obj[k]]. *)
Definition getitem (obj k : value) : result value :=
  match obj with
  | VDict d =>
      if hashable k
      then match dict_get d k with
           | Some v => Ok v
           | None => Err KeyError
           end
      else Err TypeError
  | VList l =>
      match as_index k with
      | Some i => index_list l i
      | None => Err TypeError
      end
  | VStr s =>
      match as_index k with
      | Some i => index_list (chars s) i
      | None => Err TypeError
      end
  | _ => Err TypeError
  end.

(** [obj[k] = v], returning the updated object.  Strings and scalars do not
    support item assignment. *)
Definition setitem (obj k v : value) : result value :=
  match obj with
  | VDict d =>
      if hashable k then Ok (VDict (dict_set d k v)) else Err TypeError
  | VList l =>
      match as_index k with
      | Some i =>
          let n := Z.of_nat (List.length l) in
          let j := if i <? 0 then i + n else i in
          if (0 <=? j) && (j <? n)
          then Ok (VList (firstn (Z.to_nat j) l ++ v :: skipn (S (Z.to_nat j)) l))
          else Err IndexError
      | None => Err TypeError
      end
  | _ => Err TypeError
  end.

(** [for x in obj]: the elements of a list, the keys of a dictionary, the
    characters of a string. *)
Definition py_iter (obj : value) : result (list value) :=
  match obj with
  | VList l => Ok l
  | VDict d => Ok (dict_keys d)
  | VStr s => Ok (chars s)
  | _ => Err TypeError
  end.

(** [x / 1000]: true division, defined on numbers; the quotient is a
    float. *)
Definition div1000 (x : value) : result value :=
  match x with
  | VBool b => f <- int_div1000 (if b then 1 else 0) ;; Ok (VFloat f)
  | VInt n => f <- int_div1000 n ;; Ok (VFloat f)
  | VFloat f => Ok (VFloat (float_div1000 f))
  | _ => Err TypeError
  end.

(** *** Strings *)

(** [str.lower] and [str.upper] on ASCII text: the letters [A-Z] and
    [a-z] change case, every other character stays.  On text with other
    letters [str.lower] folds more than [str_lower] does; no statement
    below speaks about the letter case of such text. *)
Definition lower_ascii (c : ascii) : ascii :=
  let n := nat_of_ascii c in
  if (Nat.leb 65 n && Nat.leb n 90)%bool then ascii_of_nat (n + 32) else c.

Definition upper_ascii (c : ascii) : ascii :=
  let n := nat_of_ascii c in
  if (Nat.leb 97 n && Nat.leb n 122)%bool then ascii_of_nat (n - 32) else c.

Fixpoint str_lower (s : string) : string :=
  match s with
  | EmptyString => EmptyString
  | String c s' => String (lower_ascii c) (str_lower s')
  end.

Fixpoint str_upper (s : string) : string :=
  match s with
  | EmptyString => EmptyString
  | String c s' => String (upper_ascii c) (str_upper s')
  end.

(** [v.lower()]: only strings have the method. *)
Definition lower (v : value) : result string :=
  match v with
  | VStr s => Ok (str_lower s)
  | _ => Err AttributeError
  end.

Fixpoint starts_with (p s : string) : bool :=
  match p, s with
  | EmptyString, _ => true
  | String a p', String b s' => Ascii.eqb a b && starts_with p' s'
  | String _ _, EmptyString => false
  end.

(** [p in s] for strings: [p] occurs in [s] as a contiguous substring. *)
Fixpoint str_in (p s : string) : bool :=
  starts_with p s ||
  match s with
  | EmptyString => false
  | String _ s' => str_in p s'
  end.

(** [s.replace(old, new)] for a non-empty [old]: the occurrences of [old] are
    replaced from left to right without overlap.  [skip] counts the
    characters of a replaced occurrence that are still to be dropped. *)
Fixpoint replace_from (old new : string) (skip : nat) (s : string) : string :=
  match s with
  | EmptyString => EmptyString
  | String c s' =>
      match skip with
      | S k => replace_from old new k s'
      | O =>
          if starts_with old s
          then (new ++ replace_from old new (String.length old - 1)%nat s')%string
          else String c (replace_from old new 0 s')
      end
  end.

Definition str_replace (s old new : string) : string :=
  replace_from old new 0 s.

(** [v.replace(old, new)]: only strings have the method. *)
Definition replace (v : value) (old new : string) : result value :=
  match v with
  | VStr s => Ok (VStr (str_replace s old new))
  | _ => Err AttributeError
  end.

(** [str(n)] for an integer [n]. *)
Definition str_of_int (n : Z) : string := NilZero.string_of_int (Z.to_int n).

Definition or_none (o : option value) : value :=
  match o with
  | Some v => v
  | None => VNone
  end.

Coercion VStr : string >-> value.

(** *** Removal, ordering and sorting *)

Fixpoint dict_del (d : dict) (k : value) : dict :=
  match d with
  | [] => []
  | (k', v) :: d' => if py_eq k' k then d' else (k', v) :: dict_del d' k
  end.

(** [obj.pop(k)], returning the object once the item is removed; the
    removed value is what the call evaluates to, and the callers discard
    it.  Of the JSON objects only dictionaries and lists have the method. *)
Definition pop (obj k : value) : result value :=
  match obj with
  | VDict d =>
      if hashable k
      then match dict_get d k with
           | Some _ => Ok (VDict (dict_del d k))
           | None => Err KeyError
           end
      else Err TypeError
  | VList l =>
      match as_index k with
      | Some i =>
          let n := Z.of_nat (List.length l) in
          let j := if i <? 0 then i + n else i in
          if (0 <=? j) && (j <? n)
          then Ok (VList (firstn (Z.to_nat j) l ++ skipn (S (Z.to_nat j)) l))
          else Err IndexError
      | None => Err TypeError
      end
  | _ => Err AttributeError
  end.

(** [a < b]: numbers by value, strings and lists lexicographically; no
    other pair of JSON objects is ordered. *)
Fixpoint py_lt (a b : value) {struct a} : result bool :=
  match a, b with
  | VStr s, VStr t => Ok (String.ltb s t)
  | VList la, VList lb =>
      (fix lt_items (la lb : list value) {struct la} : result bool :=
         match la, lb with
         | [], [] => Ok false
         | [], _ :: _ => Ok true
         | _ :: _, [] => Ok false
         | x :: la', y :: lb' =>
             if py_eq x y then lt_items la' lb' else py_lt x y
         end) la lb
  | (VBool _ | VInt _ | VFloat _), _ =>
      match num_of a, num_of b with
      | Some x, Some y => Ok (num_ltb x y)
      | _, _ => Err TypeError
      end
  | _, _ => Err TypeError
  end.

(** One step of a stable insertion: the new item goes before the first
    item whose key is greater than its own. *)
Fixpoint insert_by_key (kx x : value) (acc : list (value * value))
  : result (list (value * value)) :=
  match acc with
  | [] => Ok [(kx, x)]
  | (ky, y) :: acc' =>
      lt <- py_lt kx ky ;;
      if lt then Ok ((kx, x) :: (ky, y) :: acc')
      else rest <- insert_by_key kx x acc' ;; Ok ((ky, y) :: rest)
  end.

(** [sorted(l, key=key)].  The keys are computed first, for every item;
    the sort is stable and compares keys with [<] only.  On keys that [<]
    orders totally every stable sort returns the same list, which the
    insertion of the items one after the other computes. *)
Definition sorted (key : value -> result value) (l : list value)
  : result (list value) :=
  keys <- mapM key l ;;
  decorated <- foldM (fun acc kx => insert_by_key (fst kx) (snd kx) acc)
                     (combine keys l) [] ;;
  Ok (map snd decorated).

(** ** The pure functions of class [Helper] *)

Module Helper.

(** [getSections]: [[i['itinerarySections'] for i in itinerary]]. *)
Definition getSections (itinerary : list value) : result (list value) :=
  mapM (fun i => getitem i "itinerarySections") itinerary.

(** [getEventIdFromName]: the events are filtered first, then the
    identifiers of the kept ones are read. *)
Definition getEventIdFromName (season : list value) (eventName : string)
  : result value :=
  kept <- filterM (fun event =>
                     let q := str_lower eventName in
                     n <- getitem event "name" ;;
                     nl <- lower n ;;
                     Ok (str_in q nl)) season ;;
  e <- mapM (fun ev => getitem ev "id") kept ;;
  match e with
  | x :: _ => Ok x
  | [] => Ok VNone
  end.

(** [getControls] and [getStages]: three nested loops; the assignment
    evaluates its right-hand side, the section identifier, before it
    updates the child record. *)
Definition getControls (sections : list value) : result (list value) :=
  foldM (fun controls section =>
    cs <- py_iter section ;;
    foldM (fun controls c =>
      children <- getitem c "controls" ;;
      items <- py_iter children ;;
      foldM (fun controls control =>
        sid <- getitem c "itinerarySectionId" ;;
        control' <- setitem control "itinerarySectionId" sid ;;
        Ok (controls ++ [control'])) items controls) cs controls)
    sections [].

Definition getStages (sections : list value) : result (list value) :=
  foldM (fun stages section =>
    ss <- py_iter section ;;
    foldM (fun stages s =>
      children <- getitem s "stages" ;;
      items <- py_iter children ;;
      foldM (fun stages stage =>
        sid <- getitem s "itinerarySectionId" ;;
        stage' <- setitem stage "itinerarySectionId" sid ;;
        Ok (stages ++ [stage'])) items stages) ss stages)
    sections [].

(** [getStageId]. *)
Definition getStageId (stages : list value) (sname : string) (typ : string)
  : result value :=
  if String.eqb typ "code" then
    sId <- compM (fun s => c <- getitem s typ ;; Ok (py_eq c sname))
                 (fun s => getitem s "stageId") stages ;;
    if (0 <? Z.of_nat (List.length sId)) then index_list sId 0 else Ok VNone
  else
    sId <- compM (fun s =>
                    let q := str_lower sname in
                    n <- getitem s typ ;;
                    nl <- lower n ;;
                    Ok (str_in q nl))
                 (fun s => getitem s "stageId") stages ;;
    if (0 <? Z.of_nat (List.length sId)) then index_list sId 0 else Ok VNone.

(** [getStageInfo]: the guard compares the length with zero by [<]. *)
Definition getStageInfo (stages : list value) (sid : value) (typ : string)
  (clean : bool) : result value :=
  stage <- filterM (fun s => x <- getitem s typ ;; Ok (py_eq x sid)) stages ;;
  if (Z.of_nat (List.length stage) <? 0) then Ok VNone
  else
    stage <- index_list stage 0 ;;
    if clean then
      n <- getitem stage "name" ;;
      n' <- replace n " (Live TV)" "" ;;
      d <- getitem stage "distance" ;;
      Ok (VDict (dict_set (dict_set [] "name" n') "distance" d))
    else
      n <- getitem stage "name" ;;
      d <- getitem stage "distance" ;;
      Ok (VDict (dict_set (dict_set [] "name" n) "distance" d)).

(** [getStartListId]: the search loop has no [break], and its result is
    tested for truth. *)
Definition getStartListId (itinerary : list value) (itinerarySectionId : Z)
  : result value :=
  sections <- getSections itinerary ;;
  itineraryLegId <-
    foldM (fun legId section =>
      ss <- py_iter section ;;
      foldM (fun legId s =>
        sid <- getitem s "itinerarySectionId" ;;
        if py_eq sid (VInt itinerarySectionId)
        then getitem s "itineraryLegId"
        else Ok legId) ss legId)
      sections VNone ;;
  if negb (truthy itineraryLegId) then Ok VNone
  else
    r <- nextM (fun item => l <- getitem item "itineraryLegId" ;;
                            Ok (py_eq l itineraryLegId))
               (fun item => getitem item "startListId") itinerary ;;
    Ok (or_none r).

(** [getEntryById]. *)
Definition getEntryById (entries : list value) (entryId : Z) : result value :=
  r <- nextM (fun e => i <- getitem e "entryId" ;; Ok (py_eq i (VInt entryId)))
             (fun e => Ok e) entries ;;
  Ok (or_none r).

(** [getCarDataFromEntry]: the six copied keys, then the nine display
    fields, in the order of the assignments. *)
Definition keys : list string :=
  ["entryId"; "driverId"; "codriverId"; "manufacturerId"; "vehicleModel";
   "eligibility"].

Definition getCarDataFromEntry (entry : value) : result value :=
  newEntry <- foldM (fun d key => v <- getitem entry (VStr key) ;;
                                  Ok (dict_set d (VStr key) v)) keys [] ;;
  c <- getitem entry "eventClasses" ;;
  c <- getitem c (VInt 0) ;;
  v <- getitem c "name" ;;
  let newEntry := dict_set newEntry "classname" v in
  m <- getitem entry "manufacturer" ;;
  v <- getitem m "name" ;;
  let newEntry := dict_set newEntry "manufacturer" v in
  m <- getitem entry "entrant" ;;
  v <- getitem m "name" ;;
  let newEntry := dict_set newEntry "entrantname" v in
  m <- getitem entry "group" ;;
  v <- getitem m "name" ;;
  let newEntry := dict_set newEntry "groupname" v in
  m <- getitem entry "driver" ;;
  v <- getitem m "abbvName" ;;
  let newEntry := dict_set newEntry "drivername" v in
  m <- getitem entry "driver" ;;
  v <- getitem m "fullName" ;;
  let newEntry := dict_set newEntry "driverfullname" v in
  m <- getitem entry "codriver" ;;
  v <- getitem m "abbvName" ;;
  let newEntry := dict_set newEntry "codrivername" v in
  m <- getitem entry "codriver" ;;
  v <- getitem m "fullName" ;;
  let newEntry := dict_set newEntry "codriverfullname" v in
  m <- getitem entry "driver" ;;
  v <- getitem m "code" ;;
  let newEntry := dict_set newEntry "code" v in
  Ok (VDict newEntry).

(** The first loop of the three wide pivots: the entry identifiers in the
    order they are first met. *)
Definition collect_entries (records : list value) : result (list value) :=
  foldM (fun entries stage =>
           e <- getitem stage "entryId" ;;
           if negb (py_in e entries)
           then e <- getitem stage "entryId" ;; Ok (entries ++ [e])
           else Ok entries) records [].

(** [getMultiStageTimesWide]. *)
Definition getMultiStageTimesWide (multiStageTimes : list value)
  : result (list value) :=
  entries <- collect_entries multiStageTimes ;;
  foldM (fun final entry =>
    newEntry <-
      foldM (fun newEntry stage =>
        e <- getitem stage "entryId" ;;
        if py_eq e entry then
          ms <- getitem stage "elapsedDurationMs" ;;
          if truthy ms then
            ms <- getitem stage "elapsedDurationMs" ;;
            secs <- div1000 ms ;;
            k <- getitem stage "stageId" ;;
            setitem newEntry k secs
          else
            k <- getitem stage "stageId" ;;
            setitem newEntry k (VInt 0)
        else Ok newEntry)
        multiStageTimes (VDict (dict_set [] "entryId" entry)) ;;
    Ok (final ++ [newEntry])) entries [].

(** [getMultiStagePositionsWide]. *)
Definition getMultiStagePositionsWide (multiStagePositions : list value)
  : result (list value) :=
  entries <- collect_entries multiStagePositions ;;
  foldM (fun final entry =>
    newEntry <-
      foldM (fun newEntry stage =>
        e <- getitem stage "entryId" ;;
        if py_eq e entry then
          p <- getitem stage "position" ;;
          k <- getitem stage "stageId" ;;
          setitem newEntry k p
        else Ok newEntry)
        multiStagePositions (VDict (dict_set [] "entryId" entry)) ;;
    Ok (final ++ [newEntry])) entries [].

(** [getMultiStageGenericWide]. *)
Definition getMultiStageGenericWide (multiStageTimes : list value)
  (stageKey : string) : result (list value) :=
  entries <- collect_entries multiStageTimes ;;
  foldM (fun final entry =>
    newEntry <-
      foldM (fun newEntry stage =>
        e <- getitem stage "entryId" ;;
        if py_eq e entry then
          if String.eqb stageKey "elapsedDurationMs" then
            ms <- getitem stage stageKey ;;
            if truthy ms then
              ms <- getitem stage "elapsedDurationMs" ;;
              secs <- div1000 ms ;;
              k <- getitem stage "stageId" ;;
              setitem newEntry k secs
            else
              k <- getitem stage "stageId" ;;
              setitem newEntry k (VInt 0)
          else
            x <- getitem stage stageKey ;;
            k <- getitem stage "stageId" ;;
            setitem newEntry k x
        else Ok newEntry)
        multiStageTimes (VDict (dict_set [] "entryId" entry)) ;;
    Ok (final ++ [newEntry])) entries [].

(** [getEventIds]: [[ev['id'] for ev in season]]. *)
Definition getEventIds (season : list value) : result (list value) :=
  mapM (fun ev => getitem ev "id") season.

(** [getStageList]. *)
Definition getStageList (stages : list value) : result (list value) :=
  mapM (fun s => getitem s "stageId") stages.

(** [getStagesLookup]: the dictionary display evaluates its values in the
    order they are written. *)
Definition getStagesLookup (stages : list value) : result (list value) :=
  mapM (fun s =>
          c <- getitem s "code" ;;
          i <- getitem s "stageId" ;;
          Ok (VDict (dict_set (dict_set [] "code" c) "stageId" i))) stages.

(** [getDrivers] and [getCoDrivers]. *)
Definition getDrivers (entries : list value) : result (list value) :=
  mapM (fun e => getitem e "driver") entries.

Definition getCoDrivers (entries : list value) : result (list value) :=
  mapM (fun e => getitem e "codriver") entries.


(** [getCarData]. *)
Definition getCarData (entries : list value) : result (list value) :=
  foldM (fun dataList entry =>
           newEntry <- getCarDataFromEntry entry ;;
           Ok (dataList ++ [newEntry])) entries [].

(** [getDriverSplits]: each split record gets its duration in seconds
    under a new key, then loses the key of the duration in milliseconds. *)
Definition getDriverSplits (splits : value) : result (list value) :=
  times <- getitem splits "entrySplitPointTimes" ;;
  entries <- py_iter times ;;
  foldM (fun driverSplits entry =>
    points <- getitem entry "splitPointTimes" ;;
    items <- py_iter points ;;
    foldM (fun driverSplits split =>
      ms <- getitem split "elapsedDurationMs" ;;
      secs <- div1000 ms ;;
      split <- setitem split "elapsedDurationS" secs ;;
      split <- pop split "elapsedDurationMs" ;;
      Ok (driverSplits ++ [split])) items driverSplits)
    entries [].

(** [getDriverSplitsWide]: one row per entry of the payload. *)
Definition getDriverSplitsWide (splits : value) : result (list value) :=
  times <- getitem splits "entrySplitPointTimes" ;;
  items <- py_iter times ;;
  foldM (fun entries entry =>
    i <- getitem entry "entryId" ;;
    points <- getitem entry "splitPointTimes" ;;
    ss <- py_iter points ;;
    newEntry <-
      foldM (fun newEntry split =>
        ms <- getitem split "elapsedDurationMs" ;;
        secs <- div1000 ms ;;
        k <- getitem split "splitPointId" ;;
        setitem newEntry k secs) ss (VDict (dict_set [] "entryId" i)) ;;
    Ok (entries ++ [newEntry])) items [].

(** [getDriverSplits] with the payload made explicit.  The loop updates the
    split records in place, and the records it returns are the very
    records of the payload: the call leaves the payload with the updated
    records where the original ones were.  The result is the returned
    list together with the payload as the call leaves it. *)
Definition getDriverSplits_inplace (splits : value)
  : result (list value * value) :=
  times <- getitem splits "entrySplitPointTimes" ;;
  entries <- py_iter times ;;
  r <- foldM (fun st entry =>
         points <- getitem entry "splitPointTimes" ;;
         items <- py_iter points ;;
         r <- foldM (fun st split =>
                ms <- getitem split "elapsedDurationMs" ;;
                secs <- div1000 ms ;;
                split <- setitem split "elapsedDurationS" secs ;;
                split <- pop split "elapsedDurationMs" ;;
                Ok (fst st ++ [split], snd st ++ [split]))
              items (fst st, []) ;;
         entry' <- match points with
                   | VList _ => setitem entry "splitPointTimes" (VList (snd r))
                   | _ => Ok entry
                   end ;;
         Ok (fst r, snd st ++ [entry'])) entries ([], []) ;;
  splits' <- match times with
             | VList _ =>
                 setitem splits "entrySplitPointTimes" (VList (snd r))
             | _ => Ok splits
             end ;;
  Ok (fst r, splits').

(** *** The fetching functions

    [requests.get(url).json()] is the one external call.  The remote
    service is a state threaded through the calls: a request returns the
    decoded payload, or raises, and leaves the service in a new state. *)

Section Requests.

Variable World : Type.
Variable get_json : string -> World -> result value * World.

Definition io (A : Type) : Type := World -> result A * World.

Definition ret {A : Type} (a : A) : io A := fun w => (Ok a, w).

Definition lift {A : Type} (r : result A) : io A := fun w => (r, w).

Definition bind_io {A B : Type} (m : io A) (k : A -> io B) : io B :=
  fun w =>
    match m w with
    | (Ok a, w') => k a w'
    | (Err e, w') => (Err e, w')
    end.

(** [[f(x) for x in l]] when [f] performs requests. *)
Fixpoint map_io {A B : Type} (f : A -> io B) (l : list A) : io (list B) :=
  match l with
  | [] => ret []
  | x :: l' =>
      bind_io (f x) (fun y => bind_io (map_io f l') (fun ys => ret (y :: ys)))
  end.

Definition results_api : string := "https://api.wrc.com/results-api".

(** An item of the iterable given to [dict(...)]: a sequence of two
    elements, the first one hashable. *)
Definition pair_of (item : value) : result (value * value) :=
  kv <- py_iter item ;;
  match kv with
  | [k; v] => if hashable k then Ok (k, v) else Err TypeError
  | _ => Err ValueError
  end.

(** [dict(pos, **{'stageId': stageId})]: a copy of the mapping [pos] (or the
    dictionary built from an iterable of pairs) with the key set. *)
Definition dict_with (pos : value) (k : string) (v : value) : result value :=
  d <- match pos with
       | VDict d => Ok d
       | _ =>
           items <- py_iter pos ;;
           foldM (fun d item => '(k, x) <- pair_of item ;; Ok (dict_set d k x))
                 items []
       end ;;
  Ok (VDict (dict_set d k v)).

(** [getOverallResult]. *)
Definition getOverallResult (eventId stageId : Z) : io (list value) :=
  let overallURL :=
    (results_api ++ "/rally-event/" ++ str_of_int eventId
       ++ "/stage-result/stage-external/" ++ str_of_int stageId)%string in
  bind_io (get_json overallURL) (fun overall =>
  lift (items <- py_iter overall ;;
        mapM (fun pos => dict_with pos "stageId" (VInt stageId)) items)).

(** [for res in resultList: for pos in res: final.append(pos)]. *)
Definition flatten (resultList : list value) : result (list value) :=
  foldM (fun final res =>
           items <- py_iter res ;;
           foldM (fun final pos => Ok (final ++ [pos])) items final)
        resultList [].

(** [getMultipleOverall]. *)
Definition getMultipleOverall (eventId : Z) (stageList : list Z)
  : io (list value) :=
  bind_io (map_io (fun stage => getOverallResult eventId stage) stageList)
    (fun resultList => lift (flatten (map VList resultList))).

(** [getStageTimes]. *)
Definition getStageTimes (eventId stageId : Z) : io value :=
  let stageTimesURL :=
    (results_api ++ "/rally-event/" ++ str_of_int eventId
       ++ "/stage-times/stage-external/" ++ str_of_int stageId)%string in
  get_json stageTimesURL.

(** [getMultipleStageTimes]. *)
Definition getMultipleStageTimes (eventId : Z) (stageList : list Z)
  : io (list value) :=
  bind_io (map_io (fun stage => getStageTimes eventId stage) stageList)
    (fun resultList => lift (flatten resultList)).

(** [for x in l: ...] when the body performs requests. *)
Fixpoint fold_io {A S : Type} (body : S -> A -> io S) (l : list A) (acc : S)
  : io S :=
  match l with
  | [] => ret acc
  | x :: l' => bind_io (body acc x) (fun acc' => fold_io body l' acc')
  end.

Definition season_url : string :=
  "https://api.wrc.com/contel-page/83388/calendar/active-season/".

(** [getActiveSeason]. *)
Definition getActiveSeason (all : bool) : io value :=
  bind_io (get_json season_url) (fun r =>
  if all then ret r
  else lift (events <- getitem r "rallyEvents" ;; getitem events "items")).

(** [getItinerary]. *)
Definition getItinerary (eventId : Z) : io value :=
  let link :=
    (results_api ++ "/rally-event/" ++ str_of_int eventId ++ "/itinerary")%string in
  bind_io (get_json link) (fun r => lift (getitem r "itineraryLegs")).

(** [getStartList]. *)
Definition getStartList (eventId startListId : Z) : io (list value) :=
  let startListURL :=
    (results_api ++ "/rally-event/" ++ str_of_int eventId
       ++ "/start-list-external/" ++ str_of_int startListId)%string in
  bind_io (get_json startListURL) (fun r =>
  lift (startList <- getitem r "startListItems" ;;
        items <- py_iter startList ;;
        sorted (fun d => getitem d "order") items)).

(** [getRallyEntries]. *)
Definition getRallyEntries (eventId : Z) : io value :=
  let carsURL :=
    (results_api ++ "/rally-event/" ++ str_of_int eventId ++ "/cars")%string in
  get_json carsURL.

(** [getSplits]. *)
Definition getSplits (eventId stageId : Z) : io value :=
  let splitsURL :=
    (results_api ++ "/rally-event/" ++ str_of_int eventId
       ++ "/split-times/stage-external/" ++ str_of_int stageId)%string in
  get_json splitsURL.

(** [getMultiSplitTimes]: each stage is fetched and reshaped before the
    next one is requested. *)
Definition getMultiSplitTimes (eventId : Z) (stageList : list Z)
  : io (list value) :=
  fold_io (fun final stage =>
             bind_io (getSplits eventId stage) (fun splits =>
             bind_io (lift (getDriverSplits splits)) (fun splits =>
             lift (foldM (fun final split => Ok (final ++ [split]))
                         splits final))))
          stageList [].

End Requests.

Arguments io World A : clear implicits.
Arguments ret {World A} a.
Arguments lift {World A} r.
Arguments bind_io {World A B} m k.
Arguments map_io {World A B} f l.
Arguments getOverallResult {World} get_json eventId stageId.
Arguments getMultipleOverall {World} get_json eventId stageList.
Arguments getStageTimes {World} get_json eventId stageId.
Arguments getMultipleStageTimes {World} get_json eventId stageList.

Arguments fold_io {World A S} body l acc.
Arguments getActiveSeason {World} get_json all.
Arguments getItinerary {World} get_json eventId.
Arguments getStartList {World} get_json eventId startListId.
Arguments getRallyEntries {World} get_json eventId.
Arguments getSplits {World} get_json eventId stageId.
Arguments getMultiSplitTimes {World} get_json eventId stageList.

End Helper.

Import Helper.

(** * Vocabulary of the specification

    What the statements below speak about: total readers of fields,
    well-formedness of the payloads, and the reference functions the
    loops of [Helper] are compared with. *)

(** The value of a field, for records known to carry it. *)
Definition field (k : string) (r : value) : value :=
  match getitem r k with
  | Ok v => v
  | Err _ => VNone
  end.

Definition has_field (k : string) (r : value) : Prop :=
  exists v, getitem r k = Ok v.

(** The record's field [k] is a string that contains [q], letter case
    ignored. *)
Definition name_contains (k q : string) (r : value) : bool :=
  match getitem r k with
  | Ok (VStr n) => str_in (str_lower q) (str_lower n)
  | _ => false
  end.

Definition has_name (k : string) (r : value) : Prop :=
  exists n, getitem r k = Ok (VStr n).




(** The record's field [k] equals [q], in the sense of [==]. *)
Definition field_is (k : string) (q : value) (r : value) : bool :=
  match getitem r k with
  | Ok c => py_eq c q
  | Err _ => false
  end.

(** ** The projection of an entry: [getCarDataFromEntry] *)

(** [entry[k1][k2]...]. *)
Definition path (entry : value) (ks : list value) : result value :=
  foldM getitem ks entry.

(** The fields read from the entry, in the order the function reads them,
    and the names they get in the projected record. *)
Definition source_paths : list (list value) :=
  [ [VStr "entryId"]; [VStr "driverId"]; [VStr "codriverId"];
    [VStr "manufacturerId"]; [VStr "vehicleModel"]; [VStr "eligibility"];
    [VStr "eventClasses"; VInt 0; VStr "name"];
    [VStr "manufacturer"; VStr "name"];
    [VStr "entrant"; VStr "name"];
    [VStr "group"; VStr "name"];
    [VStr "driver"; VStr "abbvName"];
    [VStr "driver"; VStr "fullName"];
    [VStr "codriver"; VStr "abbvName"];
    [VStr "codriver"; VStr "fullName"];
    [VStr "driver"; VStr "code"] ].

Definition out_fields : list string :=
  [ "entryId"; "driverId"; "codriverId"; "manufacturerId"; "vehicleModel";
    "eligibility"; "classname"; "manufacturer"; "entrantname"; "groupname";
    "drivername"; "driverfullname"; "codrivername"; "codriverfullname";
    "code" ].

Definition lookups (entry : value) : list (result value) :=
  map (path entry) source_paths.

Fixpoint first_error {A : Type} (rs : list (result A)) : option error :=
  match rs with
  | [] => None
  | Ok _ :: rs' => first_error rs'
  | Err e :: _ => Some e
  end.

Definition sequence {A : Type} (rs : list (result A)) : result (list A) :=
  mapM (fun r => r) rs.

(** The entry lacks the field at the end of the path [p]: the lookup of
    the path fails. *)
Definition lacks (entry : value) (p : list value) : Prop :=
  exists e, path entry p = Err e.

(** The shape of an entry whose sub-records are mappings: the entry is a
    record, [eventClasses], when present, is a non-empty list that begins
    with a record, and each of the five sub-records, when present, is a
    record.  Fields may still be missing, at the top or in a
    sub-record. *)
Definition sub_records : list string :=
  ["manufacturer"; "entrant"; "group"; "driver"; "codriver"].

Definition entry_shape (entry : value) : Prop :=
  (exists d, entry = VDict d) /\
  (forall v, getitem entry "eventClasses" = Ok v ->
             exists c l, v = VList (VDict c :: l)) /\
  (forall k v, In k sub_records -> getitem entry (VStr k) = Ok v ->
               exists d, v = VDict d).

(** ** The start list of a section: [getStartListId] *)

(** The elements of a list-valued field. *)
Definition items (k : string) (r : value) : list value :=
  match getitem r k with
  | Ok (VList l) => l
  | _ => []
  end.

Definition has_items (k : string) (r : value) : Prop :=
  exists l, getitem r k = Ok (VList l).

(** The sections of an itinerary, leg after leg. *)
Definition sections_of (itinerary : list value) : list value :=
  flat_map (items "itinerarySections") itinerary.

Definition leg_wf (leg : value) : Prop :=
  has_items "itinerarySections" leg /\
  has_field "itineraryLegId" leg /\
  has_field "startListId" leg /\
  Forall (fun s => has_field "itinerarySectionId" s /\
                   has_field "itineraryLegId" s)
         (items "itinerarySections" leg).

(** What the search loop leaves in [itineraryLegId]: the leg identifier of
    the last section that carries the identifier looked for. *)
Definition found_leg_id (itinerary : list value) (sid : Z) : value :=
  fold_left (fun acc s =>
               if field_is "itinerarySectionId" (VInt sid) s
               then field "itineraryLegId" s else acc)
            (sections_of itinerary) VNone.

(** ** The wide pivots are one routine *)

(** The grouping-and-projection routine of the design notes: the records
    are grouped by [entryId], and each group becomes a row that maps the
    [stageId] of a record to the value [select] extracts from it. *)
Definition wide_pivot (select : value -> result value) (records : list value)
  : result (list value) :=
  entries <- collect_entries records ;;
  foldM (fun final entry =>
    newEntry <-
      foldM (fun newEntry stage =>
        e <- getitem stage "entryId" ;;
        if py_eq e entry then
          x <- select stage ;;
          k <- getitem stage "stageId" ;;
          setitem newEntry k x
        else Ok newEntry)
        records (VDict (dict_set [] "entryId" entry)) ;;
    Ok (final ++ [newEntry])) entries [].

(** Seconds from milliseconds, zero for a duration that tests false. *)
Definition select_seconds (stage : value) : result value :=
  ms <- getitem stage "elapsedDurationMs" ;;
  if truthy ms then div1000 ms else Ok (VInt 0).

Definition select_key (stageKey : string) (stage : value) : result value :=
  if String.eqb stageKey "elapsedDurationMs" then select_seconds stage
  else getitem stage stageKey.

(** ** The wide pivot of the stage times *)

(** *** First occurrences *)

(** The distinct elements of a list, each at the place of its first
    occurrence. *)
Fixpoint dedup_first (l : list Z) : list Z :=
  match l with
  | [] => []
  | x :: l' => x :: filter (fun y => negb (y =? x)) (dedup_first l')
  end.

(** The loop [if e not in acc: acc.append(e)]. *)
Definition add_new (acc : list Z) (e : Z) : list Z :=
  if existsb (fun y => y =? e) acc then acc else acc ++ [e].

(** *** Dictionaries keyed by integers and strings *)

Definition simple (k : value) : bool :=
  match k with
  | VInt _ | VStr _ => true
  | _ => false
  end.

Definition simple_dict (d : dict) : Prop :=
  Forall (fun kv => simple (fst kv) = true) d.

(** *** The rows *)

Definition int_field (k : string) (r : value) : Z :=
  match getitem r k with
  | Ok (VInt n) => n
  | _ => 0
  end.

(** An integer whose quotient by 1000 is in the range of the floats; a
    duration in milliseconds is far below the bound. *)
Definition in_float_range (n : Z) : Prop := Z.abs n < 2 ^ 1024.

(** A duration: [null], an integer in range, or a float. *)
Definition is_duration (ms : value) : Prop :=
  match ms with
  | VNone | VFloat _ => True
  | VInt n => in_float_range n
  | _ => False
  end.

(** A number that [/ 1000] divides without overflow. *)
Definition number_in_range (ms : value) : Prop :=
  match ms with
  | VBool _ | VFloat _ => True
  | VInt n => in_float_range n
  | _ => False
  end.

(** A stage-time record: integer identifiers, and a duration in
    milliseconds that may be [null]. *)
Definition stage_time_wf (r : value) : Prop :=
  (exists e, getitem r "entryId" = Ok (VInt e)) /\
  (exists s, getitem r "stageId" = Ok (VInt s)) /\
  (exists ms, getitem r "elapsedDurationMs" = Ok ms /\ is_duration ms).

(** The column value: the duration in seconds, or the integer zero when
    the duration is [null] (or zero). *)
Definition seconds (ms : value) : value :=
  if truthy ms
  then match div1000 ms with Ok v => v | Err _ => VNone end
  else VInt 0.

(** The stage identifiers of the records of an entry, in input order. *)
Definition stages_for (e : Z) (records : list value) : list Z :=
  map (int_field "stageId")
      (filter (fun r => int_field "entryId" r =? e) records).

Definition row_step (e : Z) (d : dict) (r : value) : dict :=
  if int_field "entryId" r =? e
  then dict_set d (VInt (int_field "stageId" r))
                (seconds (field "elapsedDurationMs" r))
  else d.

(** The row of an entry: the entry identifier, then one column per stage
    of the entry, written in input order. *)
Definition row_of (records : list value) (e : Z) : dict :=
  fold_left (row_step e) records [(VStr "entryId", VInt e)].

(** The last record of the entry [e] on the stage [s]. *)
Definition last_time (records : list value) (e s : Z) : option value :=
  find (fun r => (int_field "entryId" r =? e) && (int_field "stageId" r =? s))
       (rev records).

(** ** Flattening the itinerary: [getStages] and [getControls] *)

(** The loops of [getControls] and [getStages] differ in the name of the
    child list only. *)
Definition lift_children (child : string) (sections : list value)
  : result (list value) :=
  foldM (fun out section =>
    cs <- py_iter section ;;
    foldM (fun out c =>
      children <- getitem c child ;;
      items <- py_iter children ;;
      foldM (fun out x =>
        sid <- getitem c "itinerarySectionId" ;;
        x' <- setitem x "itinerarySectionId" sid ;;
        Ok (out ++ [x'])) items out) cs out)
    sections [].

Definition is_dict (v : value) : Prop := exists d, v = VDict d.

Definition elements (v : value) : list value :=
  match v with
  | VList l => l
  | _ => []
  end.

(** The section records of the nested structure, leg after leg. *)
Definition all_sections (sections : list value) : list value :=
  flat_map elements sections.

Definition section_id (c : value) : Z := int_field "itinerarySectionId" c.

(** A section record: an integer identifier and a list of child records. *)
Definition section_wf (child : string) (c : value) : Prop :=
  (exists i, getitem c "itinerarySectionId" = Ok (VInt i)) /\
  (exists l, getitem c child = Ok (VList l) /\ Forall is_dict l).

Definition sections_wf (child : string) (sections : list value) : Prop :=
  Forall (fun section => exists l, section = VList l) sections /\
  Forall (section_wf child) (all_sections sections).

(** The child record with the section identifier injected. *)
Definition annotate (i : Z) (x : value) : value :=
  match x with
  | VDict d => VDict (dict_set d "itinerarySectionId" (VInt i))
  | _ => x
  end.

(** Regrouping: the records of the flat list that carry the identifier. *)
Definition members (i : Z) (out : list value) : list value :=
  filter (field_is "itinerarySectionId" (VInt i)) out.

(** The annotated children of a section. *)
Definition lifted (child : string) (c : value) : list value :=
  map (annotate (section_id c)) (items child c).

(** ** The multi-stage aggregates *)

Definition is_list (v : value) : Prop := exists l, v = VList l.

(** The record with the stage identifier set, as [getOverallResult]
    builds it. *)
Definition with_stage (stageId : Z) (pos : value) : value :=
  match pos with
  | VDict d => VDict (dict_set d "stageId" (VInt stageId))
  | _ => pos
  end.

Definition overall_url (eventId stageId : Z) : string :=
  (results_api ++ "/rally-event/" ++ str_of_int eventId
     ++ "/stage-result/stage-external/" ++ str_of_int stageId)%string.

Definition stage_times_url (eventId stageId : Z) : string :=
  (results_api ++ "/rally-event/" ++ str_of_int eventId
     ++ "/stage-times/stage-external/" ++ str_of_int stageId)%string.

(** ** Projections, lookups of persons and cars *)

(** [[r[k] for r in l]]. *)
Definition project (k : string) (l : list value) : result (list value) :=
  mapM (fun r => getitem r k) l.

(** The list handed to the data frame in [VisualiseStage.py]:
    [[helper.getCarDataFromEntry(helper.getEntryById(entries, winner))
      for winner in ...]]. *)
Definition winners (entries : list value) (ids : list Z) : result (list value) :=
  mapM (fun winner =>
          e <- getEntryById entries winner ;;
          getCarDataFromEntry e) ids.

(** ** The information of a stage: [getStageInfo] *)

(** The suffix that [getStageInfo] removes from a stage name. *)
Definition live_tv : string := " (Live TV)".



(** ** The split times: [getDriverSplits] and [getDriverSplitsWide] *)

(** The split records of a payload, entry after entry. *)
Definition all_splits (splits : value) : list value :=
  flat_map (items "splitPointTimes") (items "entrySplitPointTimes" splits).

(** The payload is a record with a list of entries, each with a list of
    split records. *)
Definition splits_shape (splits : value) : Prop :=
  has_items "entrySplitPointTimes" splits /\
  Forall (has_items "splitPointTimes") (items "entrySplitPointTimes" splits).

(** What [getDriverSplits] does to one split record. *)
Definition split_op (split : value) : result value :=
  ms <- getitem split "elapsedDurationMs" ;;
  secs <- div1000 ms ;;
  split <- setitem split "elapsedDurationS" secs ;;
  pop split "elapsedDurationMs".

(** A split record with a numeric duration. *)
Definition split_wf (x : value) : Prop :=
  exists d ms, x = VDict d /\ NoDup (dict_keys d) /\
               dict_get d "elapsedDurationMs" = Some ms /\
               number_in_range ms.

(** ** Columns of a wide row *)

(** The columns written into a row: every kept record sets the column of
    its key, in input order, a later record overwriting an earlier one. *)
Definition cols (keep : value -> bool) (key : value -> Z) (val : value -> value)
  (records : list value) (d0 : dict) : dict :=
  fold_left (fun d r => if keep r then dict_set d (VInt (key r)) (val r) else d)
            records d0.

(** The last kept record with the key [s]. *)
Definition last_with (keep : value -> bool) (key : value -> Z)
  (records : list value) (s : Z) : option value :=
  find (fun r => keep r && (key r =? s)) (rev records).

(** The quotient by 1000, for a number. *)
Definition secs_of (ms : value) : value :=
  match div1000 ms with
  | Ok v => v
  | Err _ => VNone
  end.

(** The row that [getDriverSplitsWide] builds for an entry of the
    payload. *)
Definition split_row (entry : value) : value :=
  VDict (cols (fun _ => true) (int_field "splitPointId")
              (fun s => secs_of (field "elapsedDurationMs" s))
              (items "splitPointTimes" entry)
              [(VStr "entryId", field "entryId" entry)]).

Definition wide_split_wf (s : value) : Prop :=
  (exists p, getitem s "splitPointId" = Ok (VInt p)) /\
  (exists ms, getitem s "elapsedDurationMs" = Ok ms /\ number_in_range ms).

Definition wide_entry_wf (entry : value) : Prop :=
  has_field "entryId" entry /\
  has_items "splitPointTimes" entry /\
  Forall wide_split_wf (items "splitPointTimes" entry).

(** The row of the entry [e] in a pivot on the field [k]. *)
Definition key_row (k : string) (records : list value) (e : Z) : value :=
  VDict (cols (fun r => int_field "entryId" r =? e) (int_field "stageId")
              (field k) records [(VStr "entryId", VInt e)]).

Definition keyed_wf (k : string) (r : value) : Prop :=
  (exists e, getitem r "entryId" = Ok (VInt e)) /\
  (exists s, getitem r "stageId" = Ok (VInt s)) /\
  has_field k r.

(** A record of a pivot: integer identifiers, and a selection that
    succeeds with the value [val r]. *)
Definition selected (select : value -> result value) (val : value -> value)
  (r : value) : Prop :=
  (exists e, getitem r "entryId" = Ok (VInt e)) /\
  (exists s, getitem r "stageId" = Ok (VInt s)) /\
  select r = Ok (val r).

(** ** The start list: [getStartList] *)

(** Stable insertion by an integer key. *)
Fixpoint ins_by (key : value -> Z) (x : value) (acc : list value) : list value :=
  match acc with
  | [] => [x]
  | y :: acc' =>
      if key x <? key y then x :: y :: acc' else y :: ins_by key x acc'
  end.

Definition isort_by (key : value -> Z) (l : list value) : list value :=
  fold_left (fun acc x => ins_by key x acc) l [].

Definition start_list_url (eventId startListId : Z) : string :=
  (results_api ++ "/rally-event/" ++ str_of_int eventId
     ++ "/start-list-external/" ++ str_of_int startListId)%string.

Definition splits_url (eventId stageId : Z) : string :=
  (results_api ++ "/rally-event/" ++ str_of_int eventId
     ++ "/split-times/stage-external/" ++ str_of_int stageId)%string.

(** The order of a starter. *)
Definition order_of (d : value) : Z := int_field "order" d.

Definition order_le (a b : value) : Prop := order_of a <= order_of b.

(** ** The split times of several stages: [getMultiSplitTimes] *)

(** One stage of [getMultiSplitTimes]: the request, then the reshaping of
    its payload. *)
Definition stage_splits {World : Type}
  (get_json : string -> World -> result value * World)
  (eventId stage : Z) : io World (list value) :=
  bind_io (getSplits get_json eventId stage)
          (fun splits => lift (getDriverSplits splits)).

(** ** The payload after [getDriverSplits] *)

(** A split record as [getDriverSplits] leaves it. *)
Definition converted (x : value) : value :=
  match split_op x with
  | Ok y => y
  | Err _ => x
  end.

(** An entry of the payload with its split records converted. *)
Definition entry_after (entry : value) : value :=
  match entry with
  | VDict d =>
      VDict (dict_set d "splitPointTimes"
                      (VList (map converted (items "splitPointTimes" entry))))
  | _ => entry
  end.

(** What the outer loop needs of an entry. *)
Definition entry_splits_wf (entry : value) : Prop :=
  has_items "splitPointTimes" entry /\
  Forall split_wf (items "splitPointTimes" entry).

(** The payload as [getDriverSplits] leaves it. *)
Definition payload_after (splits : value) : value :=
  match splits with
  | VDict d =>
      VDict (dict_set d "entrySplitPointTimes"
                      (VList (map entry_after
                                  (items "entrySplitPointTimes" splits))))
  | _ => splits
  end.

(** ** The addresses of the requests *)

(** A service that answers every request with an empty list and keeps the
    addresses it was asked for, oldest first. *)
Definition recorder (url : string) (log : list string)
  : result value * list string :=
  (Ok (VList []), log ++ [url]).

(** The addresses a computation requests, started on an empty log. *)
Definition requested {A : Type} (m : io (list string) A) : list string :=
  snd (m []).

Definition itinerary_url (eventId : Z) : string :=
  (results_api ++ "/rally-event/" ++ str_of_int eventId ++ "/itinerary")%string.

Definition cars_url (eventId : Z) : string :=
  (results_api ++ "/rally-event/" ++ str_of_int eventId ++ "/cars")%string.

Fixpoint has_slash (s : string) : bool :=
  match s with
  | EmptyString => false
  | String c s' => (Ascii.eqb c "/" || has_slash s')%bool
  end.

(** * Example payloads *)

(** The double [m * 2 ^ e], for a mantissa of at most 53 bits: [dyadic 65 0]
    is 65.0 and [dyadic 3 (-1)] is 1.5. *)
Definition dyadic (m e : Z) : spec_float := binary_normalize 53 1024 m e false.

Definition record (fields : list (string * value)) : value :=
  VDict (map (fun kv => (VStr (fst kv), snd kv)) fields).

Definition entry_a : value := record [("entryId", VInt 1); ("vehicleModel", VStr "i20")].
Definition entry_b : value := record [("entryId", VInt 2); ("vehicleModel", VStr "Puma")].

Definition stage_a : value :=
  record [("code", VStr "SS1"); ("stageId", VInt 10); ("name", VStr "Col de Braus (Live TV)")].
Definition stage_b : value :=
  record [("code", VStr "SS2"); ("stageId", VInt 11); ("name", VStr "La Bollene")].

Definition event_a : value := record [("id", VInt 301); ("name", VStr "Rallye Monte-Carlo")].
Definition event_b : value := record [("id", VInt 302); ("name", VStr "Rally Sweden")].
Definition event_c : value := record [("id", VInt 303); ("name", VStr "Safari Rally Kenya")].

Definition entry_top : list (string * value) :=
  [ ("entryId", VInt 1); ("driverId", VInt 11); ("codriverId", VInt 12);
    ("manufacturerId", VInt 5); ("vehicleModel", VStr "i20 N Rally1");
    ("eligibility", VStr "M/T");
    ("eventClasses", VList [record [("name", VStr "RC1")]]);
    ("manufacturer", record [("name", VStr "Hyundai")]);
    ("entrant", record [("name", VStr "Hyundai WRT")]);
    ("driver", record [("abbvName", VStr "T. NEUVILLE");
                       ("fullName", VStr "Thierry NEUVILLE");
                       ("code", VStr "NEU")]);
    ("codriver", record [("abbvName", VStr "M. WYDAEGHE");
                         ("fullName", VStr "Martijn WYDAEGHE")]) ].

Definition entry_full : value :=
  record (entry_top ++ [("group", record [("name", VStr "Rally1")])]).

(** The same entry without its [group], and with a [group] that has no
    [name]. *)
Definition entry_no_group : value := record entry_top.

(** An entry with every key, given its classes and its group. *)
Definition entry_with (classes group : value) : value :=
  record
    [ ("entryId", VInt 1); ("driverId", VInt 11); ("codriverId", VInt 12);
      ("manufacturerId", VInt 5); ("vehicleModel", VStr "i20 N Rally1");
      ("eligibility", VStr "M/T");
      ("eventClasses", classes);
      ("manufacturer", record [("name", VStr "Hyundai")]);
      ("entrant", record [("name", VStr "Hyundai WRT")]);
      ("group", group);
      ("driver", record [("abbvName", VStr "T. NEUVILLE");
                         ("fullName", VStr "Thierry NEUVILLE");
                         ("code", VStr "NEU")]);
      ("codriver", record [("abbvName", VStr "M. WYDAEGHE");
                           ("fullName", VStr "Martijn WYDAEGHE")]) ].

(** The entry with an empty list of classes, and with a [null] group. *)
Definition entry_empty_classes : value :=
  entry_with (VList []) (record [("name", VStr "Rally1")]).

Definition entry_null_group : value :=
  entry_with (VList [record [("name", VStr "RC1")]]) VNone.
Definition entry_no_group_name : value :=
  record (entry_top ++ [("group", record [("id", VInt 3)])]).

Definition entry_projected : value :=
  record [ ("entryId", VInt 1); ("driverId", VInt 11); ("codriverId", VInt 12);
           ("manufacturerId", VInt 5); ("vehicleModel", VStr "i20 N Rally1");
           ("eligibility", VStr "M/T"); ("classname", VStr "RC1");
           ("manufacturer", VStr "Hyundai"); ("entrantname", VStr "Hyundai WRT");
           ("groupname", VStr "Rally1"); ("drivername", VStr "T. NEUVILLE");
           ("driverfullname", VStr "Thierry NEUVILLE");
           ("codrivername", VStr "M. WYDAEGHE");
           ("codriverfullname", VStr "Martijn WYDAEGHE"); ("code", VStr "NEU") ].

Definition leg_with (legId : Z) : value :=
  record [ ("itineraryLegId", VInt legId); ("startListId", VInt 5);
           ("itinerarySections",
            VList [record [("itinerarySectionId", VInt 7);
                           ("itineraryLegId", VInt legId)]]) ].

Definition times_example : list value :=
  [ record [("entryId", VInt 4); ("stageId", VInt 10); ("elapsedDurationMs", VInt 1500)];
    record [("entryId", VInt 3); ("stageId", VInt 10); ("elapsedDurationMs", VNone)];
    record [("entryId", VInt 4); ("stageId", VInt 11); ("elapsedDurationMs", VInt 0)] ].

Definition section_ex (i : Z) (stages controls : list value) : value :=
  record [ ("itinerarySectionId", VInt i); ("itineraryLegId", VInt 1);
           ("stages", VList stages); ("controls", VList controls) ].

Definition sections_example : list value :=
  [ VList [ section_ex 21 [record [("stageId", VInt 10)]; record [("stageId", VInt 11)]]
                          [record [("controlId", VInt 100)]];
            section_ex 22 [] [record [("controlId", VInt 101)]] ];
    VList [ section_ex 23 [record [("stageId", VInt 12)]] [] ] ].

(** A service that knows the stages 10 and 11 of the event 7 and counts the
    requests it has served. *)
Definition time_a : value := record [("entryId", VInt 1); ("elapsedDurationMs", VInt 65000)].
Definition time_b : value := record [("entryId", VInt 2); ("elapsedDurationMs", VInt 70000)].
Definition time_c : value := record [("entryId", VInt 1); ("elapsedDurationMs", VNone)].

Definition service (url : string) (served : nat) : result value * nat :=
  (if String.eqb url (stage_times_url 7 10) then Ok (VList [time_a; time_b])
   else if String.eqb url (stage_times_url 7 11) then Ok (VList [time_c])
   else if String.eqb url (overall_url 7 10)
        then Ok (VList [record [("entryId", VInt 2); ("position", VInt 1)];
                        record [("entryId", VInt 1); ("position", VInt 2)]])
   else if String.eqb url (overall_url 7 11)
        then Ok (VList [record [("entryId", VInt 1); ("position", VInt 1)]])
   else Err RequestError,
   S served).


Definition split_ex (point : Z) (ms : value) : value :=
  record [("splitPointId", VInt point); ("elapsedDurationMs", ms)].

Definition splits_payload : value :=
  record [("entrySplitPointTimes",
           VList [ record [("entryId", VInt 1);
                           ("splitPointTimes",
                            VList [split_ex 51 (VInt 30500); split_ex 52 (VInt 61000)])];
                   record [("entryId", VInt 2);
                           ("splitPointTimes", VList [split_ex 51 (VInt 31000)])] ])].

(** The same payload with a [null] duration in the second entry. *)
Definition splits_payload_null : value :=
  record [("entrySplitPointTimes",
           VList [ record [("entryId", VInt 1);
                           ("splitPointTimes", VList [split_ex 51 (VInt 30500)])];
                   record [("entryId", VInt 2);
                           ("splitPointTimes", VList [split_ex 51 VNone])] ])].

(** A payload with a duration beyond the range of the floats. *)
Definition splits_payload_huge : value :=
  record [("entrySplitPointTimes",
           VList [ record [("entryId", VInt 1);
                           ("splitPointTimes",
                            VList [split_ex 51 (VInt 30500);
                                   split_ex 52 (VInt (10 ^ 400))])] ])].

Definition positions_example : list value :=
  [ record [("entryId", VInt 4); ("stageId", VInt 10); ("position", VInt 2)];
    record [("entryId", VInt 3); ("stageId", VInt 10); ("position", VInt 1)];
    record [("entryId", VInt 4); ("stageId", VInt 11); ("position", VNone)] ].

Definition starter (order : Z) (name : string) : value :=
  record [("order", VInt order); ("name", VStr name)].

Definition start_service (url : string) (served : nat) : result value * nat :=
  (if String.eqb url (start_list_url 7 3)
   then Ok (record [("startListItems",
                     VList [starter 2 "b"; starter 1 "a"; starter 2 "c";
                            starter 1 "d"])])
   else Err RequestError,
   S served).

(** A service for the split times of event 7: stage 10 is complete and
    stage 11 carries a [null] duration. *)
Definition splits_service (url : string) (served : nat) : result value * nat :=
  (if String.eqb url (splits_url 7 10) then Ok splits_payload
   else if String.eqb url (splits_url 7 11) then Ok splits_payload_null
   else Err RequestError,
   S served).

(** Records that lack the field a lookup reads. *)
Definition event_broken : value := record [("id", VInt 304)].
Definition stage_broken : value := record [("stageId", VInt 12)].
Definition entry_broken : value := record [("vehicleModel", VStr "Yaris")].

(** * Properties *)

(** ** True division stays in range *)

Lemma digits2_pos_size (p : positive) : digits2_pos p = Pos.size p.
Proof. induction p; simpl; congruence. Qed.

Lemma Zdigits2_nonneg (m : Z) : 0 <= Zdigits2 m.
Proof. destruct m; simpl; lia. Qed.

Lemma Zdigits2_gt (m : Z) : 0 <= m -> m < 2 ^ Zdigits2 m.
Proof.
  destruct m as [|p|p]; simpl Zdigits2; intros H; [reflexivity| |lia].
  rewrite digits2_pos_size. pose proof (Pos.size_gt p) as G.
  rewrite <- Pos2Z.inj_pow. lia.
Qed.

Lemma Zdigits2_le (m k : Z) : 0 <= k -> 0 <= m <= 2 ^ k -> Zdigits2 m <= k + 1.
Proof.
  intros Hk [H0 Hm]. destruct m as [|p|p]; simpl Zdigits2; [lia| |lia].
  rewrite digits2_pos_size. pose proof (Pos.size_le p) as G.
  assert (G' : 2 ^ Zpos (Pos.size p) <= 2 * Zpos p).
  { rewrite <- Pos2Z.inj_pow. lia. }
  assert (L : 2 ^ Zpos (Pos.size p) < 2 ^ (k + 2)).
  { replace (k + 2) with (Z.succ (Z.succ k)) by lia.
    rewrite !Z.pow_succ_r by lia. lia. }
  apply Z.pow_lt_mono_r_iff in L; lia.
Qed.

Lemma Zdigits2_below (m k : Z) : 0 <= k -> 0 <= m < 2 ^ k -> Zdigits2 m <= k.
Proof.
  intros Hk [H0 Hm]. destruct m as [|p|p]; simpl Zdigits2; [lia| |lia].
  rewrite digits2_pos_size. pose proof (Pos.size_le p) as G.
  assert (G' : 2 ^ Zpos (Pos.size p) <= 2 * Zpos p).
  { rewrite <- Pos2Z.inj_pow. lia. }
  assert (L : 2 ^ Zpos (Pos.size p) < 2 ^ (k + 1)).
  { replace (k + 1) with (Z.succ k) by lia.
    rewrite Z.pow_succ_r by lia. lia. }
  apply Z.pow_lt_mono_r_iff in L; lia.
Qed.

Lemma shr_1_m (mrs : shr_record) :
  0 <= shr_m mrs -> shr_m (shr_1 mrs) = shr_m mrs / 2.
Proof.
  destruct mrs as [m r s]. simpl shr_m. intros H.
  rewrite <- Z.div2_div.
  destruct m as [|[p|p|]|p]; simpl; try reflexivity; lia.
Qed.

Lemma iter_shr_m (p : positive) : forall mrs,
  0 <= shr_m mrs ->
  shr_m (iter_pos shr_1 p mrs) = shr_m mrs / 2 ^ Zpos p.
Proof.
  assert (P : 0 < 2 ^ Zpos p) by (apply Z.pow_pos_nonneg; lia).
  induction p as [p IH|p IH|]; intros mrs H; cbn [iter_pos].
  - assert (P' : 0 < 2 ^ Zpos p) by (apply Z.pow_pos_nonneg; lia).
    specialize (IH P').
    assert (H1 : 0 <= shr_m (shr_1 mrs))
      by (rewrite shr_1_m by exact H; apply Z.div_pos; lia).
    assert (H2 : 0 <= shr_m (iter_pos shr_1 p (shr_1 mrs)))
      by (rewrite IH by exact H1; apply Z.div_pos; lia).
    rewrite IH by exact H2. rewrite IH by exact H1. rewrite shr_1_m by exact H.
    rewrite !Z.div_div by lia.
    f_equal.
    replace (Zpos p~1) with (1 + Zpos p + Zpos p) by lia.
    rewrite !Z.pow_add_r by lia. change (2 ^ 1) with 2. lia.
  - assert (P' : 0 < 2 ^ Zpos p) by (apply Z.pow_pos_nonneg; lia).
    specialize (IH P').
    assert (H1 : 0 <= shr_m (iter_pos shr_1 p mrs))
      by (rewrite IH by exact H; apply Z.div_pos; lia).
    rewrite IH by exact H1. rewrite IH by exact H.
    rewrite Z.div_div by lia.
    f_equal.
    replace (Zpos p~0) with (Zpos p + Zpos p) by lia.
    rewrite Z.pow_add_r by lia. reflexivity.
  - rewrite shr_1_m by exact H. reflexivity.
Qed.

Lemma shr_record_of_loc_m (m : Z) (l : location) :
  shr_m (shr_record_of_loc m l) = m.
Proof. destruct l as [|[| |]]; reflexivity. Qed.

(** What [shr_fexp] returns: the exponent, and a bound on the mantissa. *)
Lemma shr_fexp_spec (m e : Z) (l : location) :
  0 <= m ->
  let r := shr_fexp 53 1024 m e l in
  snd r = Z.max e (fexp 53 1024 (Zdigits2 m + e)) /\
  0 <= shr_m (fst r) /\
  shr_m (fst r) = m / 2 ^ (snd r - e).
Proof.
  intros Hm. unfold shr_fexp, shr.
  destruct (fexp 53 1024 (Zdigits2 m + e) - e) as [|p|p] eqn:E; cbn [fst snd].
  - rewrite shr_record_of_loc_m. rewrite Z.sub_diag. cbn [Z.pow]. rewrite Z.div_1_r. lia.
  - rewrite iter_shr_m by (rewrite shr_record_of_loc_m; exact Hm).
    rewrite shr_record_of_loc_m.
    replace (e + Zpos p - e) with (Zpos p) by lia.
    split; [lia|split; [apply Z.div_pos; [exact Hm|apply Z.pow_pos_nonneg; lia]|reflexivity]].
  - rewrite shr_record_of_loc_m. rewrite Z.sub_diag. cbn [Z.pow]. rewrite Z.div_1_r. lia.
Qed.

Lemma round_nearest_even_bounds (m : Z) (l : location) :
  m <= round_nearest_even m l <= m + 1.
Proof.
  unfold round_nearest_even. destruct l as [|[| |]]; try lia.
  destruct (Z.even m); lia.
Qed.

Lemma fexp_eq (x : Z) : fexp 53 1024 x = Z.max (x - 53) (-1074).
Proof. reflexivity. Qed.

(** Rounding does not overflow when the number is below [2 ^ 1023]. *)
Lemma binary_round_aux_finite (s : bool) (mx ex : Z) (lx : location) :
  0 <= mx -> ex <= 971 -> Zdigits2 mx + ex <= 1023 ->
  forall t, binary_round_aux 53 1024 s mx ex lx <> S754_infinity t.
Proof.
  intros Hm He Hd t. unfold binary_round_aux.
  pose proof (shr_fexp_spec mx ex lx Hm) as S1. cbv zeta in S1.
  destruct (shr_fexp 53 1024 mx ex lx) as [mrs' e'] eqn:E1.
  cbn [fst snd] in S1. destruct S1 as (He' & H0 & Hq).
  set (mr := round_nearest_even (shr_m mrs') (loc_of_shr_record mrs')).
  assert (Hmr : shr_m mrs' <= mr <= shr_m mrs' + 1)
    by apply round_nearest_even_bounds.
  assert (Hmr0 : 0 <= mr) by lia.
  pose proof (shr_fexp_spec mr e' loc_Exact Hmr0) as S2. cbv zeta in S2.
  destruct (shr_fexp 53 1024 mr e' loc_Exact) as [mrs'' e''] eqn:E2.
  cbn [fst snd] in S2. destruct S2 as (He'' & _ & _).
  destruct (shr_m mrs''); try discriminate.
  destruct (Z.leb_spec e'' (1024 - 53)) as [|Hover]; [discriminate|].
  exfalso.
  rewrite fexp_eq in He', He''.
  pose proof (Zdigits2_nonneg mx) as Hd0.
  pose proof (Zdigits2_gt mx Hm) as Hlt.
  assert (Hsum : Zdigits2 mr + e' <= 1024).
  { destruct (Z.le_gt_cases (Zdigits2 mx) (e' - ex)) as [Hsmall|Hbig].
    - (* everything is shifted out *)
      assert (Hz : shr_m mrs' = 0).
      { rewrite Hq. apply Z.div_small. split; [exact Hm|].
        eapply Z.lt_le_trans; [exact Hlt|].
        apply Z.pow_le_mono_r; lia. }
      assert (Hk : Zdigits2 mr <= 0 + 1) by (apply Zdigits2_le; cbn; lia).
      lia.
    - assert (Hn : 0 <= e' - ex) by lia.
      assert (Hb : shr_m mrs' < 2 ^ (Zdigits2 mx - (e' - ex))).
      { rewrite Hq. apply Z.div_lt_upper_bound; [apply Z.pow_pos_nonneg; lia|].
        rewrite <- Z.pow_add_r by lia.
        replace (e' - ex + (Zdigits2 mx - (e' - ex))) with (Zdigits2 mx) by lia.
        exact Hlt. }
      assert (Hk : Zdigits2 mr <= Zdigits2 mx - (e' - ex) + 1)
        by (apply Zdigits2_le; lia).
      lia. }
  lia.
Qed.

Lemma div_core_bounds (p : positive) :
  Zpos p < 2 ^ 1024 ->
  let r := SFdiv_core_binary 53 1024 (Zpos p) 0 1000 0 in
  0 <= fst (fst r) /\ snd (fst r) <= 971 /\
  Zdigits2 (fst (fst r)) + snd (fst r) <= 1023.
Proof.
  intros Hp. unfold SFdiv_core_binary.
  set (d1 := Zdigits2 (Zpos p)).
  change (Zdigits2 1000) with 10.
  set (e' := Z.min (fexp 53 1024 (d1 + 0 - (10 + 0))) (0 - 0)).
  set (s := 0 - 0 - e').
  assert (He' : e' <= 0) by (unfold e'; lia).
  assert (Hs : 0 <= s) by (unfold s; lia).
  set (m' := match s with Z0 => Zpos p | Zpos _ => Z.shiftl (Zpos p) s | Zneg _ => 0 end).
  assert (Hm' : m' = Zpos p * 2 ^ s).
  { unfold m'. destruct s as [|q|q] eqn:Es; [cbn; lia| |lia].
    rewrite Z.shiftl_mul_pow2 by lia. reflexivity. }
  pose proof (Z_div_mod m' 1000 ltac:(lia)) as Hdm.
  destruct (Z.div_eucl m' 1000) as [q r] eqn:Eq. cbn [fst snd].
  destruct Hdm as [Hdm Hr].
  assert (Hd1 : 1 <= d1 <= 1024).
  { unfold d1. split; [cbn [Zdigits2]; lia|].
    apply Zdigits2_below; lia. }
  pose proof (Zdigits2_gt (Zpos p) ltac:(lia)) as Hlt. fold d1 in Hlt.
  assert (Hpow : 0 < 2 ^ s) by (apply Z.pow_pos_nonneg; lia).
  assert (Hm0 : 0 <= m') by (rewrite Hm'; apply Z.mul_nonneg_nonneg; lia).
  assert (Hq0 : 0 <= q) by lia.
  assert (Hq : q < 2 ^ (d1 + s - 1)).
  { assert (E : 2 ^ (d1 + s) = 2 * 2 ^ (d1 + s - 1)).
    { replace (d1 + s) with (Z.succ (d1 + s - 1)) at 1 by lia.
      rewrite Z.pow_succ_r by lia. reflexivity. }
    assert (E2 : 2 ^ (d1 + s) = 2 ^ d1 * 2 ^ s) by (apply Z.pow_add_r; lia).
    assert (L : m' < 2 ^ d1 * 2 ^ s)
      by (rewrite Hm'; apply Z.mul_lt_mono_pos_r; assumption).
    lia. }
  split; [exact Hq0|split; [lia|]].
  assert (Hk : Zdigits2 q <= d1 + s - 1) by (apply Zdigits2_below; lia).
  unfold s in *. lia.
Qed.

Lemma int_div_finite (n : Z) :
  in_float_range n ->
  forall t, SFdiv 53 1024 (exact_int n) (exact_int 1000) <> S754_infinity t.
Proof.
  unfold in_float_range. intros Hn t.
  destruct n as [|p|p]; cbn [exact_int SFdiv]; [discriminate| |].
  - pose proof (div_core_bounds p ltac:(lia)) as B. cbv zeta in B.
    destruct (SFdiv_core_binary 53 1024 (Zpos p) 0 1000 0) as [[mz ez] lz].
    cbn [fst snd] in B. destruct B as (B1 & B2 & B3).
    apply binary_round_aux_finite; assumption.
  - pose proof (div_core_bounds p ltac:(lia)) as B. cbv zeta in B.
    destruct (SFdiv_core_binary 53 1024 (Zpos p) 0 1000 0) as [[mz ez] lz].
    cbn [fst snd] in B. destruct B as (B1 & B2 & B3).
    apply binary_round_aux_finite; assumption.
Qed.

(** An integer in range divides without [OverflowError]. *)
Lemma int_div1000_in_range (n : Z) :
  in_float_range n -> exists f, int_div1000 n = Ok f.
Proof.
  intros Hn. unfold int_div1000.
  pose proof (int_div_finite n Hn) as F.
  destruct (SFdiv 53 1024 (exact_int n) (exact_int 1000)) as [s|s| |s m e];
    try (eexists; reflexivity).
  exfalso. exact (F s eq_refl).
Qed.

Lemma div1000_number (ms : value) :
  number_in_range ms -> exists f, div1000 ms = Ok (VFloat f).
Proof.
  destruct ms as [|b|n|f|s|l|d]; cbn [number_in_range div1000]; intros H;
    try contradiction.
  - destruct (int_div1000_in_range (if b then 1 else 0)) as [f Hf].
    { unfold in_float_range. destruct b; cbn [Z.abs]; lia. }
    rewrite Hf. eexists. reflexivity.
  - destruct (int_div1000_in_range n H) as [f Hf].
    rewrite Hf. eexists. reflexivity.
  - eexists. reflexivity.
Qed.

(** Beyond the range the division raises, and inside it rounds. *)
Example div1000_examples :
  div1000 (VInt (10 ^ 400)) = Err OverflowError /\
  div1000 (VInt 65000) = Ok (VFloat (S754_finite false 4573968371548160 (-46))) /\
  div1000 (VInt 65432) = Ok (VFloat (S754_finite false 4604367669032911 (-46))) /\
  div1000 VNone = Err TypeError /\
  div1000 (VStr "65000") = Err TypeError.
Proof.
  repeat split; vm_compute; reflexivity.
Qed.

(** ** The loops *)

Section Combinators.

Context {A B : Type}.

Lemma mapM_ok (f : A -> result B) (g : A -> B) (l : list A) :
  (forall x, In x l -> f x = Ok (g x)) -> mapM f l = Ok (map g l).
Proof.
  induction l as [|x l IH]; intros H; simpl; [reflexivity|].
  rewrite (H x (or_introl eq_refl)); simpl.
  rewrite IH by (intros y Hy; apply H; right; exact Hy).
  reflexivity.
Qed.

Lemma filterM_ok (p : A -> result bool) (q : A -> bool) (l : list A) :
  (forall x, In x l -> p x = Ok (q x)) -> filterM p l = Ok (filter q l).
Proof.
  induction l as [|x l IH]; intros H; simpl; [reflexivity|].
  rewrite (H x (or_introl eq_refl)); simpl.
  rewrite IH by (intros y Hy; apply H; right; exact Hy).
  simpl. destruct (q x); reflexivity.
Qed.

Lemma compM_ok (p : A -> result bool) (f : A -> result B)
  (q : A -> bool) (g : A -> B) (l : list A) :
  (forall x, In x l -> p x = Ok (q x)) ->
  (forall x, In x l -> q x = true -> f x = Ok (g x)) ->
  compM p f l = Ok (map g (filter q l)).
Proof.
  induction l as [|x l IH]; intros Hp Hf; simpl; [reflexivity|].
  rewrite (Hp x (or_introl eq_refl)); simpl.
  destruct (q x) eqn:Hq.
  - rewrite (Hf x (or_introl eq_refl) Hq); simpl.
    rewrite IH; [reflexivity| |]; intros y Hy; [apply Hp|apply Hf]; right; exact Hy.
  - apply IH; intros y Hy; [apply Hp|apply Hf]; right; exact Hy.
Qed.

(** The generator stops at its first match: what follows it is not
    evaluated. *)
Lemma nextM_first (p : A -> result bool) (f : A -> result B)
  (pre : list A) (x : A) (post : list A) (y : B) :
  (forall a, In a pre -> p a = Ok false) ->
  p x = Ok true -> f x = Ok y ->
  nextM p f (pre ++ x :: post) = Ok (Some y).
Proof.
  intros Hpre Hx Hy.
  induction pre as [|a pre IH]; simpl.
  - rewrite Hx; simpl. rewrite Hy. reflexivity.
  - rewrite (Hpre a (or_introl eq_refl)); simpl.
    apply IH. intros b Hb. apply Hpre. right. exact Hb.
Qed.

Lemma nextM_none (p : A -> result bool) (f : A -> result B) (l : list A) :
  (forall a, In a l -> p a = Ok false) -> nextM p f l = Ok None.
Proof.
  induction l as [|a l IH]; intros H; simpl; [reflexivity|].
  rewrite (H a (or_introl eq_refl)); simpl.
  apply IH. intros b Hb. apply H. right. exact Hb.
Qed.

End Combinators.

Lemma mapM_Forall2 {A B : Type} (f : A -> result B) (l : list A) (ys : list B) :
  mapM f l = Ok ys -> Forall2 (fun x y => f x = Ok y) l ys.
Proof.
  revert ys. induction l as [|x l IH]; intros ys H; simpl in H.
  - inversion H. constructor.
  - destruct (f x) as [y|e] eqn:Hx; [|discriminate]. simpl in H.
    destruct (mapM f l) as [zs|e]; [|discriminate]. simpl in H.
    inversion H. constructor; [exact Hx|apply IH; reflexivity].
Qed.

(** A comprehension whose element expression succeeds on every item
    returns. *)
Lemma mapM_total {A B : Type} (f : A -> result B) (l : list A) :
  Forall (fun a => exists b, f a = Ok b) l -> exists bs, mapM f l = Ok bs.
Proof.
  induction 1 as [|a l [b Hb] _ [bs Hbs]]; [exists []; reflexivity|].
  exists (b :: bs). cbn [mapM]. rewrite Hb, Hbs. reflexivity.
Qed.

Lemma head_map_filter {A B : Type} (q : A -> bool) (g : A -> B) (l : list A) :
  hd_error (map g (filter q l)) = option_map g (find q l).
Proof.
  induction l as [|x l IH]; simpl; [reflexivity|].
  destruct (q x); simpl; [reflexivity|exact IH].
Qed.

(** The head of a list, as [l[0]] guarded by [len(l) > 0] reads it. *)
Lemma guarded_head (l : list value) :
  (if 0 <? Z.of_nat (List.length l) then index_list l 0 else Ok VNone)
  = Ok (or_none (hd_error l)).
Proof.
  destruct l as [|x l]; [reflexivity|].
  unfold index_list.
  replace (0 <? Z.of_nat (List.length (x :: l))) with true
    by (symmetry; apply Z.ltb_lt; simpl List.length; lia).
  replace (0 <? 0) with false by reflexivity.
  replace (0 <=? 0) with true by reflexivity.
  replace (0 <? Z.of_nat (List.length (x :: l))) with true
    by (symmetry; apply Z.ltb_lt; simpl List.length; lia).
  reflexivity.
Qed.

Lemma find_none_iff {A : Type} (q : A -> bool) (l : list A) :
  (forall x, In x l -> q x = false) -> find q l = None.
Proof.
  induction l as [|x l IH]; intros H; simpl; [reflexivity|].
  rewrite (H x (or_introl eq_refl)). apply IH.
  intros y Hy. apply H. right. exact Hy.
Qed.

(** ** Lookups by a string key *)

Lemma getitem_str_ok (v : value) (k : string) (x : value) :
  getitem v k = Ok x -> exists d, v = VDict d.
Proof.
  destruct v as [| | | | |l|d]; cbn [getitem as_index]; try discriminate.
  intros _. exists d. reflexivity.
Qed.

Lemma getitem_dict_err (d : dict) (k : string) (e : error) :
  getitem (VDict d) k = Err e -> e = KeyError.
Proof.
  cbn [getitem hashable]. destruct (dict_get d k); [discriminate|].
  intros H. inversion H. reflexivity.
Qed.

(** ** Numbers compare by value *)

Example numbers_compare :
  py_eq (VInt 65) (VFloat (dyadic 65 0)) = true /\
  py_eq (VBool true) (VInt 1) = true /\
  py_eq (VFloat S754_nan) (VFloat S754_nan) = false /\
  py_eq (VFloat (S754_zero true)) (VInt 0) = true /\
  py_lt (VFloat (S754_infinity true)) (VInt 0) = Ok true /\
  py_lt (VInt 1) (VFloat (dyadic 3 (-1))) = Ok true /\
  py_lt (VFloat S754_nan) (VInt 0) = Ok false /\
  truthy (VFloat (S754_zero true)) = false /\
  truthy (VFloat S754_nan) = true.
Proof. repeat split. Qed.

(** ** Equality with a string or an integer *)

Lemma py_eq_str (c : value) (t : string) :
  py_eq c (VStr t) = true <-> c = VStr t.
Proof.
  destruct c as [|b|n|q|s|l|d]; simpl; try (split; discriminate).
  split; intros H.
  - apply String.eqb_eq in H. subst. reflexivity.
  - inversion H. apply String.eqb_refl.
Qed.

Lemma py_eq_int (n m : Z) : py_eq (VInt n) (VInt m) = (n =? m).
Proof.
  simpl. unfold Qeq_bool. simpl. rewrite !Z.mul_1_r. reflexivity.
Qed.

(** ** Letter case *)

Lemma lower_upper_ascii (c : ascii) : lower_ascii (upper_ascii c) = lower_ascii c.
Proof.
  destruct c as [[] [] [] [] [] [] [] []]; reflexivity.
Qed.

Lemma lower_lower_ascii (c : ascii) : lower_ascii (lower_ascii c) = lower_ascii c.
Proof.
  destruct c as [[] [] [] [] [] [] [] []]; reflexivity.
Qed.

Lemma str_lower_upper (s : string) : str_lower (str_upper s) = str_lower s.
Proof.
  induction s as [|c s IH]; simpl; [reflexivity|].
  rewrite lower_upper_ascii, IH. reflexivity.
Qed.

Lemma str_lower_idem (s : string) : str_lower (str_lower s) = str_lower s.
Proof.
  induction s as [|c s IH]; simpl; [reflexivity|].
  rewrite lower_lower_ascii, IH. reflexivity.
Qed.

Lemma name_contains_case (k q : string) (r : value) :
  name_contains k (str_upper q) r = name_contains k q r /\
  name_contains k (str_lower q) r = name_contains k q r.
Proof.
  unfold name_contains.
  rewrite str_lower_upper, str_lower_idem. split; reflexivity.
Qed.

(** ** Substrings *)

Lemma starts_with_app (p s : string) :
  starts_with p s = true <-> exists b, s = (p ++ b)%string.
Proof.
  revert s. induction p as [|a p IH]; intros s; simpl.
  - split; [intros _; exists s; reflexivity|reflexivity].
  - destruct s as [|c s].
    + split; [discriminate|intros [b Hb]; discriminate].
    + rewrite andb_true_iff, Ascii.eqb_eq, IH. split.
      * intros [-> [b ->]]. exists b. reflexivity.
      * intros [b Hb]. inversion Hb; subst. split; [reflexivity|exists b; reflexivity].
Qed.

(** [p in s] holds exactly when [s] is [a ++ p ++ b] for some [a] and [b]. *)
Lemma str_in_app (p s : string) :
  str_in p s = true <-> exists a b, s = (a ++ p ++ b)%string.
Proof.
  induction s as [|c s IH].
  - cbn [str_in]. rewrite orb_false_r, starts_with_app. split.
    + intros [b Hb]. exists EmptyString, b. exact Hb.
    + intros [a [b Hab]]. destruct a as [|x a]; [exists b; exact Hab|discriminate].
  - cbn [str_in]. rewrite orb_true_iff, starts_with_app, IH. split.
    + intros [[b Hb]|[a [b Hab]]].
      * exists EmptyString, b. exact Hb.
      * exists (String c a), b. simpl. rewrite Hab. reflexivity.
    + intros [a [b Hab]]. destruct a as [|x a].
      * left. exists b. exact Hab.
      * right. simpl in Hab. inversion Hab; subst. exists a, b. reflexivity.
Qed.

(** ** Lookup by identifier: [getEntryById] *)

Lemma field_is_true (k : string) (q r : value) :
  field_is k q r = true -> exists c, getitem r k = Ok c /\ py_eq c q = true.
Proof.
  unfold field_is. destruct (getitem r k) as [c|e]; [|discriminate].
  intros H. exists c. split; [reflexivity|exact H].
Qed.

Lemma field_is_false (k : string) (q r : value) :
  has_field k r -> field_is k q r = false ->
  exists c, getitem r k = Ok c /\ py_eq c q = false.
Proof.
  unfold field_is. intros [v Hv]. rewrite Hv. intros H.
  exists v. split; [reflexivity|exact H].
Qed.

(** C9. [getEntryById] returns the first entry whose [entryId] equals the
    given identifier, whatever follows that entry, and returns [None],
    without raising, when the entries all carry an [entryId] and none
    equals it. *)
Theorem getEntryById_first_or_none (entries : list value) (entryId : Z) :
  (forall pre e post,
      entries = pre ++ e :: post ->
      (forall x, In x pre ->
                 has_field "entryId" x /\
                 field_is "entryId" (VInt entryId) x = false) ->
      field_is "entryId" (VInt entryId) e = true ->
      getEntryById entries entryId = Ok e) /\
  ((forall x, In x entries ->
              has_field "entryId" x /\
              field_is "entryId" (VInt entryId) x = false) ->
   getEntryById entries entryId = Ok VNone).
Proof.
  split.
  - intros pre e post -> Hpre He.
    unfold getEntryById.
    rewrite (nextM_first _ _ pre e post e); [reflexivity| | |reflexivity].
    + intros a Ha. destruct (Hpre a Ha) as [Hf Hn].
      destruct (field_is_false _ _ _ Hf Hn) as [c [Hc Hq]].
      rewrite Hc; simpl. rewrite Hq. reflexivity.
    + destruct (field_is_true _ _ _ He) as [c [Hc Hq]].
      rewrite Hc; simpl. rewrite Hq. reflexivity.
  - intros Hall. unfold getEntryById.
    rewrite nextM_none; [reflexivity|].
    intros a Ha. destruct (Hall a Ha) as [Hf Hn].
    destruct (field_is_false _ _ _ Hf Hn) as [c [Hc Hq]].
    rewrite Hc; simpl. rewrite Hq. reflexivity.
Qed.

Lemma getEntryById_first_or_none_witness :
  getEntryById [entry_a; entry_b; VNone] 2 = Ok entry_b /\
  getEntryById [entry_a; entry_b] 3 = Ok VNone.
Proof.
  split.
  - apply (proj1 (getEntryById_first_or_none [entry_a; entry_b; VNone] 2)
             [entry_a] entry_b [VNone]).
    + reflexivity.
    + intros x [<-|[]]. split; [exists (VInt 1); reflexivity|reflexivity].
    + reflexivity.
  - apply (proj2 (getEntryById_first_or_none [entry_a; entry_b] 3)).
    intros x [<-|[<-|[]]].
    + split; [exists (VInt 1); reflexivity|reflexivity].
    + split; [exists (VInt 2); reflexivity|reflexivity].
Defined.

(** ** Lookup of a stage: [getStageId] and [getEventIdFromName] *)

Lemma Forall_In {A : Type} (P : A -> Prop) (l : list A) :
  Forall P l -> forall x, In x l -> P x.
Proof. intros H. apply Forall_forall. exact H. Qed.

Lemma getStageId_code_find (stages : list value) (sname : string) :
  Forall (fun s => has_field "code" s /\ has_field "stageId" s) stages ->
  getStageId stages sname "code"
  = Ok (or_none (option_map (field "stageId")
                   (find (field_is "code" (VStr sname)) stages))).
Proof.
  intros Hwf. unfold getStageId.
  replace (String.eqb "code" "code") with true by reflexivity.
  rewrite (compM_ok _ _ (field_is "code" (VStr sname)) (field "stageId")).
  - simpl. rewrite guarded_head, head_map_filter. reflexivity.
  - intros s Hs. destruct (Forall_In _ _ Hwf s Hs) as [[c Hc] _].
    unfold field_is. rewrite Hc. reflexivity.
  - intros s Hs _. destruct (Forall_In _ _ Hwf s Hs) as [_ [i Hi]].
    unfold field. rewrite Hi. reflexivity.
Qed.

Lemma field_is_str (k t : string) (r : value) :
  field_is k (VStr t) r = true <-> getitem r k = Ok (VStr t).
Proof.
  unfold field_is. destruct (getitem r k) as [c|e].
  - rewrite py_eq_str. split; [intros ->; reflexivity|intros H; inversion H; reflexivity].
  - split; discriminate.
Qed.

(** C7. With [typ = 'code'], [getStageId] returns the [stageId] of the
    first stage whose [code] is exactly the query, and [None] when no
    stage has exactly that code; a code that differs from the query in
    letter case only is not a match. *)
Theorem getStageId_code_exact (stages : list value) (sname : string) :
  (Forall (fun s => has_field "code" s /\ has_field "stageId" s) stages ->
   getStageId stages sname "code"
   = Ok (or_none (option_map (field "stageId")
                    (find (field_is "code" (VStr sname)) stages))) /\
   ((forall s, In s stages -> getitem s "code" <> Ok (VStr sname)) ->
    getStageId stages sname "code" = Ok VNone)) /\
  (forall s, field_is "code" (VStr sname) s = true
             <-> getitem s "code" = Ok (VStr sname)) /\
  getStageId [record [("code", VStr "SS1"); ("stageId", VInt 10)];
              record [("code", VStr "ss1"); ("stageId", VInt 11)];
              record [("code", VStr "ss1"); ("stageId", VInt 12)]]
             "ss1" "code" = Ok (VInt 11) /\
  getStageId [record [("code", VStr "SS1"); ("stageId", VInt 10)]]
             "ss1" "code" = Ok VNone.
Proof.
  split; [|split; [|split]].
  - intros Hwf. split; [apply getStageId_code_find; exact Hwf|].
    intros Hno. rewrite getStageId_code_find by exact Hwf.
    rewrite find_none_iff; [reflexivity|].
    intros s Hs. destruct (field_is "code" (VStr sname) s) eqn:E; [|reflexivity].
    apply field_is_str in E. elim (Hno s Hs E).
  - intros s. apply field_is_str.
  - reflexivity.
  - reflexivity.
Qed.

Lemma getStageId_code_exact_witness :
  getStageId [stage_a; stage_b] "SS2" "code" = Ok (VInt 11) /\
  getStageId [stage_a; stage_b] "ss2" "code" = Ok VNone.
Proof.
  assert (Hwf : Forall (fun s => has_field "code" s /\ has_field "stageId" s)
                  [stage_a; stage_b]).
  { repeat constructor.
    - exists (VStr "SS1"); reflexivity.
    - exists (VInt 10); reflexivity.
    - exists (VStr "SS2"); reflexivity.
    - exists (VInt 11); reflexivity. }
  split.
  - exact (proj1 (proj1 (getStageId_code_exact [stage_a; stage_b] "SS2") Hwf)).
  - apply (proj2 (proj1 (getStageId_code_exact [stage_a; stage_b] "ss2") Hwf)).
    intros s [<-|[<-|[]]]; discriminate.
Defined.











(** ** [getStageInfo] when nothing matches *)

Lemma length_not_negative {A : Type} (l : list A) :
  (Z.of_nat (List.length l) <? 0) = false.
Proof. apply Z.ltb_ge. lia. Qed.

(** C10. When no stage's selected field equals the key, [getStageInfo]
    does not return [None]: the guard [len(stage) < 0] is never true, and
    the index into the empty filtered list raises [IndexError]. *)
Theorem getStageInfo_no_match_raises
  (stages : list value) (sid : value) (typ : string) (clean : bool) :
  (forall s, In s stages -> has_field typ s /\ field_is typ sid s = false) ->
  getStageInfo stages sid typ clean = Err IndexError /\
  getStageInfo stages sid typ clean <> Ok VNone /\
  (forall l : list value, (Z.of_nat (List.length l) <? 0) = false).
Proof.
  intros Hno.
  assert (E : getStageInfo stages sid typ clean = Err IndexError).
  { unfold getStageInfo.
    rewrite (filterM_ok _ (field_is typ sid)).
    - simpl. rewrite length_not_negative.
      replace (filter (field_is typ sid) stages) with (@nil value); [reflexivity|].
      symmetry. induction stages as [|s stages IH]; [reflexivity|].
      simpl. destruct (Hno s (or_introl eq_refl)) as [_ ->].
      apply IH. intros x Hx. apply Hno. right. exact Hx.
    - intros s Hs. destruct (Hno s Hs) as [[v Hv] _].
      unfold field_is. rewrite Hv. reflexivity. }
  split; [exact E|split].
  - rewrite E. discriminate.
  - intros l. apply length_not_negative.
Qed.

Lemma getStageInfo_no_match_raises_witness :
  getStageInfo [stage_a; stage_b] (VInt 99) "stageId" true = Err IndexError /\
  getStageInfo [] (VInt 10) "stageId" true = Err IndexError.
Proof.
  split.
  - apply (getStageInfo_no_match_raises [stage_a; stage_b] (VInt 99) "stageId" true).
    intros s [<-|[<-|[]]].
    + split; [exists (VInt 10); reflexivity|reflexivity].
    + split; [exists (VInt 11); reflexivity|reflexivity].
  - apply (getStageInfo_no_match_raises [] (VInt 10) "stageId" true).
    intros s [].
Defined.

(** On a match the function returns the name, cleaned of the live-TV
    suffix, and the distance. *)
Example getStageInfo_match :
  getStageInfo [record [("stageId", VInt 10); ("name", VStr "Col de Braus (Live TV)");
                        ("distance", VInt 17)]] (VInt 10) "stageId" true
  = Ok (record [("name", VStr "Col de Braus"); ("distance", VInt 17)]).
Proof. reflexivity. Qed.

(** ** The projection of an entry: [getCarDataFromEntry] *)

Lemma sequence_first_error {A : Type} (rs : list (result A)) (e : error) :
  first_error rs = Some e -> sequence rs = Err e.
Proof.
  unfold sequence. induction rs as [|[a|e'] rs IH]; simpl; intros H.
  - discriminate.
  - rewrite (IH H). reflexivity.
  - inversion H. reflexivity.
Qed.

Lemma first_error_in {A : Type} (rs : list (result A)) (e : error) :
  first_error rs = Some e -> In (Err e) rs.
Proof.
  induction rs as [|[a|e'] rs IH]; simpl; intros H.
  - discriminate.
  - right. apply IH. exact H.
  - inversion H. left. reflexivity.
Qed.

Lemma first_error_exists {A : Type} (rs : list (result A)) (e : error) :
  In (Err e) rs -> exists e', first_error rs = Some e'.
Proof.
  induction rs as [|[a|e'] rs IH]; simpl; intros H.
  - destruct H.
  - destruct H as [H|H]; [discriminate|apply IH; exact H].
  - exists e'. reflexivity.
Qed.

Lemma sequence_length {A : Type} (rs : list (result A)) (vals : list A) :
  sequence rs = Ok vals -> List.length vals = List.length rs.
Proof.
  unfold sequence. revert vals.
  induction rs as [|[a|e] rs IH]; simpl; intros vals H.
  - inversion H. reflexivity.
  - destruct (mapM (fun r => r) rs) as [ys|e]; simpl in H; [|discriminate].
    inversion H. simpl. rewrite (IH ys eq_refl). reflexivity.
  - discriminate.
Qed.

(** The function is the sequence of its fifteen lookups followed by the
    construction of the record. *)
Lemma getCarDataFromEntry_lookups (entry : value) :
  getCarDataFromEntry entry
  = (vals <- sequence (lookups entry) ;; Ok (record (combine out_fields vals))).
Proof.
  unfold getCarDataFromEntry, sequence, lookups, source_paths, path, keys.
  cbn [map mapM foldM bind].
  repeat match goal with
         | |- context [bind (getitem ?a ?k) _] =>
             destruct (getitem a k); cbn [bind]; [|reflexivity]
         | |- context [match getitem ?a ?k with _ => _ end] =>
             destruct (getitem a k); cbn [bind]; [|reflexivity]
         end.
  reflexivity.
Qed.

(** The errors a lookup by a string or by an integer raises. *)
Lemma getitem_error_kinds (obj k : value) (e : error) :
  simple k = true ->
  getitem obj k = Err e ->
  e = KeyError \/ e = IndexError \/ e = TypeError.
Proof.
  intros Hk H.
  destruct k as [| |i| |t| |]; try discriminate Hk;
    destruct obj as [| | | |s|l|d]; cbn [getitem hashable as_index] in H;
    try (inversion H; tauto).
  - unfold index_list in H.
    destruct ((0 <=? _) && _); [|inversion H; tauto].
    destruct (nth_error _ _); inversion H; tauto.
  - unfold index_list in H.
    destruct ((0 <=? _) && _); [|inversion H; tauto].
    destruct (nth_error _ _); inversion H; tauto.
  - destruct (dict_get d (VInt i)); inversion H; tauto.
  - destruct (dict_get d (VStr t)); inversion H; tauto.
Qed.

Lemma path_error_kinds (ks : list value) : forall (entry : value) (e : error),
  Forall (fun k => simple k = true) ks ->
  path entry ks = Err e ->
  e = KeyError \/ e = IndexError \/ e = TypeError.
Proof.
  unfold path. induction ks as [|k ks IH]; intros entry e Hks H;
    [discriminate|].
  inversion Hks as [|? ? Hk Hks']; subst. cbn [foldM] in H.
  destruct (getitem entry k) as [v|e'] eqn:E.
  - exact (IH v e Hks' H).
  - inversion H; subst. exact (getitem_error_kinds _ _ _ Hk E).
Qed.

Lemma source_paths_simple :
  Forall (Forall (fun k => simple k = true)) source_paths.
Proof. repeat constructor. Qed.

Lemma source_paths_cases (P : list value -> Prop) :
  Forall P source_paths -> forall p, In p source_paths -> P p.
Proof. intros H. apply Forall_forall. exact H. Qed.

(** On an entry whose sub-records are mappings, a lookup fails on a
    missing key only. *)
Lemma shaped_entry_KeyError (entry : value) (p : list value) (e : error) :
  entry_shape entry ->
  In p source_paths ->
  path entry p = Err e ->
  e = KeyError.
Proof.
  intros [[d ->] [Hclasses Hsubs]] Hp. revert e. revert p Hp.
  assert (Htop : forall (k : string) e,
             path (VDict d) [VStr k] = Err e -> e = KeyError).
  { intros k e H. unfold path in H. cbn [foldM] in H.
    destruct (getitem (VDict d) k) as [v|e'] eqn:E; [discriminate|].
    inversion H; subst. exact (getitem_dict_err _ _ _ E). }
  assert (Hsub : forall (k1 k2 : string) e,
             In k1 sub_records ->
             path (VDict d) [VStr k1; VStr k2] = Err e -> e = KeyError).
  { intros k1 k2 e Hin H. unfold path in H. cbn [foldM] in H.
    destruct (getitem (VDict d) k1) as [v|e'] eqn:E; cbn [bind] in H.
    - destruct (Hsubs k1 v Hin E) as [d' ->].
      destruct (getitem (VDict d') k2) as [w|e''] eqn:E2; [discriminate|].
      inversion H; subst. exact (getitem_dict_err _ _ _ E2).
    - inversion H; subst. exact (getitem_dict_err _ _ _ E). }
  apply (source_paths_cases
           (fun p => forall e, path (VDict d) p = Err e -> e = KeyError)).
  unfold source_paths.
  repeat apply Forall_cons; try apply Forall_nil;
    try (intros e; apply Htop);
    try (intros e; apply Hsub; unfold sub_records; cbn [In]; tauto).
  intros e H. unfold path in H. cbn [foldM] in H.
  destruct (getitem (VDict d) "eventClasses") as [v|e'] eqn:E; cbn [bind] in H.
  - destruct (Hclasses v eq_refl) as [c [l ->]].
    change (getitem (VList (VDict c :: l)) (VInt 0)) with (@Ok value (VDict c)) in H.
    cbn [bind] in H.
    destruct (getitem (VDict c) "name") as [w|e''] eqn:E2; [discriminate|].
    inversion H; subst. exact (getitem_dict_err _ _ _ E2).
  - inversion H; subst. exact (getitem_dict_err _ _ _ E).
Qed.

(** C3. [getCarDataFromEntry] fails as soon as one of its fifteen lookups
    fails, with the error of that lookup, and nothing is dropped or
    defaulted: when the entry lacks a field the call raises, and the
    error is [KeyError], [IndexError] or [TypeError]; it is [KeyError]
    when the sub-records of the entry are mappings, so that the failing
    lookup is a missing key.  When every lookup succeeds the result is
    the record of exactly the fifteen projected fields. *)
Theorem getCarDataFromEntry_fail_fast (entry : value) :
  ((forall p, In p source_paths -> exists v, path entry p = Ok v) ->
   exists vals,
     Forall2 (fun p v => path entry p = Ok v) source_paths vals /\
     getCarDataFromEntry entry = Ok (record (combine out_fields vals))) /\
  (forall e,
      first_error (lookups entry) = Some e ->
      getCarDataFromEntry entry = Err e) /\
  ((exists p, In p source_paths /\ lacks entry p) ->
   exists e,
     first_error (lookups entry) = Some e /\
     getCarDataFromEntry entry = Err e /\
     (e = KeyError \/ e = IndexError \/ e = TypeError)) /\
  (entry_shape entry ->
   (exists p, In p source_paths /\ lacks entry p) ->
   getCarDataFromEntry entry = Err KeyError).
Proof.
  assert (Hfirst : forall e, first_error (lookups entry) = Some e ->
                             getCarDataFromEntry entry = Err e).
  { intros e He. rewrite getCarDataFromEntry_lookups.
    rewrite (sequence_first_error _ _ He). reflexivity. }
  assert (Hin : forall p, In p source_paths -> lacks entry p ->
                          exists e', first_error (lookups entry) = Some e').
  { intros p Hp [e He]. apply (first_error_exists _ e).
    unfold lookups. rewrite <- He. apply in_map. exact Hp. }
  assert (Hwhich : forall e, first_error (lookups entry) = Some e ->
                             exists p, In p source_paths /\ path entry p = Err e).
  { intros e He. apply first_error_in in He. unfold lookups in He.
    apply in_map_iff in He. destruct He as [p [Hp Hin']].
    exists p. split; [exact Hin'|exact Hp]. }
  split; [|split; [|split]].
  - intros Hall.
    destruct (mapM_total (path entry) source_paths) as [vals Hvals].
    { apply Forall_forall. exact Hall. }
    exists vals. split; [apply mapM_Forall2; exact Hvals|].
    rewrite getCarDataFromEntry_lookups. unfold sequence, lookups.
    replace (mapM (fun r => r) (map (path entry) source_paths))
      with (mapM (path entry) source_paths); [rewrite Hvals; reflexivity|].
    clear. induction source_paths as [|p ps IH]; [reflexivity|].
    cbn [map mapM]. rewrite IH. reflexivity.
  - exact Hfirst.
  - intros [p [Hp Hl]]. destruct (Hin p Hp Hl) as [e He].
    exists e. split; [exact He|split; [exact (Hfirst e He)|]].
    destruct (Hwhich e He) as [p' [Hp' He']].
    apply (path_error_kinds p' entry e); [|exact He'].
    exact (source_paths_cases _ source_paths_simple p' Hp').
  - intros Hshape [p [Hp Hl]]. destruct (Hin p Hp Hl) as [e He].
    rewrite (Hfirst e He). f_equal.
    destruct (Hwhich e He) as [p' [Hp' He']].
    exact (shaped_entry_KeyError entry p' e Hshape Hp' He').
Qed.

Lemma entry_no_group_shape : entry_shape entry_no_group.
Proof.
  split; [eexists; reflexivity|split].
  - intros v H. inversion H. eexists. eexists. reflexivity.
  - intros k v Hk H. unfold sub_records in Hk. cbn [In] in Hk.
    destruct Hk as [<-|[<-|[<-|[<-|[<-|[]]]]]];
      vm_compute in H; inversion H; eexists; reflexivity.
Qed.

Lemma getCarDataFromEntry_fail_fast_witness :
  getCarDataFromEntry entry_full = Ok entry_projected /\
  getCarDataFromEntry entry_no_group = Err KeyError /\
  (exists e, getCarDataFromEntry entry_empty_classes = Err e /\
             (e = KeyError \/ e = IndexError \/ e = TypeError)).
Proof.
  split; [|split].
  - destruct (proj1 (getCarDataFromEntry_fail_fast entry_full))
      as [vals [Hvals Hres]].
    + apply source_paths_cases.
      repeat apply Forall_cons; try apply Forall_nil; eexists; reflexivity.
    + rewrite Hres. unfold source_paths in Hvals.
      repeat match goal with
             | H : Forall2 _ (_ :: _) _ |- _ =>
                 inversion H as [|? ? ? ? ?Hv ?Hrest]; subst; clear H;
                 vm_compute in Hv; inversion Hv; subst; clear Hv
             | H : Forall2 _ [] _ |- _ => inversion H; subst; clear H
             end.
      reflexivity.
  - apply (proj2 (proj2 (proj2 (getCarDataFromEntry_fail_fast entry_no_group)))).
    + exact entry_no_group_shape.
    + exists [VStr "group"; VStr "name"]. split.
      * unfold source_paths. cbn [In]. tauto.
      * exists KeyError. reflexivity.
  - destruct (proj1 (proj2 (proj2
                (getCarDataFromEntry_fail_fast entry_empty_classes))))
      as [e [_ [He Hk]]].
    + exists [VStr "eventClasses"; VInt 0; VStr "name"]. split.
      * unfold source_paths. cbn [In]. tauto.
      * exists IndexError. reflexivity.
    + exists e. split; [exact He|exact Hk].
Defined.

(** The entry with an empty list of classes lacks the name of its first
    class, and the entry with a [null] group lacks the name of the group;
    the errors raised are [IndexError] and [TypeError], not the error of
    a missing key. *)
Lemma getCarDataFromEntry_other_errors :
  (In [VStr "eventClasses"; VInt 0; VStr "name"] source_paths /\
   lacks entry_empty_classes [VStr "eventClasses"; VInt 0; VStr "name"] /\
   getCarDataFromEntry entry_empty_classes = Err IndexError /\
   getCarDataFromEntry entry_empty_classes <> Err KeyError) /\
  (In [VStr "group"; VStr "name"] source_paths /\
   lacks entry_null_group [VStr "group"; VStr "name"] /\
   getCarDataFromEntry entry_null_group = Err TypeError /\
   getCarDataFromEntry entry_null_group <> Err KeyError).
Proof.
  split; (split; [unfold source_paths; cbn [In]; tauto|split; [|split]]).
  - exists IndexError. reflexivity.
  - reflexivity.
  - discriminate.
  - exists TypeError. reflexivity.
  - reflexivity.
  - discriminate.
Qed.

(** ** The start list of a section: [getStartListId] *)

Lemma foldM_ok {A S : Type} (body : S -> A -> result S) (step : S -> A -> S)
  (l : list A) (acc : S) :
  (forall s x, In x l -> body s x = Ok (step s x)) ->
  foldM body l acc = Ok (fold_left step l acc).
Proof.
  revert acc. induction l as [|x l IH]; intros acc H; simpl; [reflexivity|].
  rewrite (H acc x (or_introl eq_refl)); simpl.
  apply IH. intros s y Hy. apply H. right. exact Hy.
Qed.

Lemma fold_left_flat_map {A B S : Type} (step : S -> B -> S) (f : A -> list B)
  (l : list A) (acc : S) :
  fold_left step (flat_map f l) acc
  = fold_left (fun s a => fold_left step (f a) s) l acc.
Proof.
  revert acc. induction l as [|a l IH]; intros acc; simpl; [reflexivity|].
  rewrite fold_left_app. apply IH.
Qed.

Lemma fold_left_map_l {A B S : Type} (step : S -> B -> S) (g : A -> B)
  (l : list A) (acc : S) :
  fold_left step (map g l) acc = fold_left (fun s a => step s (g a)) l acc.
Proof.
  revert acc. induction l as [|a l IH]; intros acc; simpl; [reflexivity|].
  apply IH.
Qed.

Lemma getSections_ok (itinerary : list value) :
  Forall leg_wf itinerary ->
  getSections itinerary
  = Ok (map (fun leg => VList (items "itinerarySections" leg)) itinerary).
Proof.
  intros Hwf. unfold getSections. apply mapM_ok.
  intros leg Hleg. destruct (Forall_In _ _ Hwf leg Hleg) as [[l Hl] _].
  unfold items. rewrite Hl. reflexivity.
Qed.

Lemma getStartListId_spec (itinerary : list value) (sid : Z) :
  Forall leg_wf itinerary ->
  getStartListId itinerary sid
  = Ok (let leg := found_leg_id itinerary sid in
        if truthy leg
        then or_none (option_map (field "startListId")
                        (find (field_is "itineraryLegId" leg) itinerary))
        else VNone).
Proof.
  intros Hwf. unfold getStartListId.
  rewrite (getSections_ok _ Hwf). cbn [bind].
  rewrite (foldM_ok _
             (fun acc section =>
                fold_left (fun acc s =>
                             if field_is "itinerarySectionId" (VInt sid) s
                             then field "itineraryLegId" s else acc)
                          (match section with VList l => l | _ => [] end) acc)).
  - cbn [bind]. rewrite fold_left_map_l.
    replace (fold_left _ itinerary VNone) with (found_leg_id itinerary sid)
      by (unfold found_leg_id, sections_of; rewrite fold_left_flat_map; reflexivity).
    cbv zeta. destruct (truthy (found_leg_id itinerary sid)); [|reflexivity].
    cbn [negb].
    set (leg := found_leg_id itinerary sid). clearbody leg.
    induction itinerary as [|x l IH]; [reflexivity|].
    inversion Hwf as [|? ? Hx Hl]; subst.
    destruct Hx as [_ [[v Hv] [[w Hw] _]]].
    cbn [nextM find]. unfold field_is at 1. rewrite Hv. cbn [bind].
    destruct (py_eq v leg).
    + cbv beta. rewrite Hw. unfold field. cbn [option_map]. rewrite Hw. reflexivity.
    + apply IH. exact Hl.
  - intros acc section Hsec.
    apply in_map_iff in Hsec. destruct Hsec as [leg [<- Hleg]].
    destruct (Forall_In _ _ Hwf leg Hleg) as [_ [_ [_ Hss]]].
    cbn [py_iter bind]. apply foldM_ok.
    intros s x Hx. destruct (Forall_In _ _ Hss x Hx) as [[i Hi] [j Hj]].
    unfold field_is, field. rewrite Hi. cbn [bind]. rewrite Hj.
    destruct (py_eq i (VInt sid)); reflexivity.
Qed.

Lemma found_leg_id_skip (sid : Z) (l : list value) (acc : value) :
  (forall s, In s l -> field_is "itinerarySectionId" (VInt sid) s = false) ->
  fold_left (fun acc s =>
               if field_is "itinerarySectionId" (VInt sid) s
               then field "itineraryLegId" s else acc) l acc = acc.
Proof.
  revert acc. induction l as [|x l IH]; intros acc H; simpl; [reflexivity|].
  rewrite (H x (or_introl eq_refl)). apply IH.
  intros s Hs. apply H. right. exact Hs.
Qed.

(** No section with the identifier: the result is [None], not an error. *)
Lemma getStartListId_absent (itinerary : list value) (sid : Z) :
  Forall leg_wf itinerary ->
  (forall s, In s (sections_of itinerary) ->
             field_is "itinerarySectionId" (VInt sid) s = false) ->
  getStartListId itinerary sid = Ok VNone.
Proof.
  intros Hwf Hno. rewrite (getStartListId_spec _ _ Hwf).
  unfold found_leg_id. rewrite (found_leg_id_skip _ _ _ Hno). reflexivity.
Qed.

(** One section with the identifier, and a leg identifier that tests true:
    the result is the start list of the first leg with that identifier. *)
Lemma getStartListId_found (itinerary : list value) (sid : Z)
  (pre : list value) (s : value) (post : list value) :
  Forall leg_wf itinerary ->
  sections_of itinerary = pre ++ s :: post ->
  field_is "itinerarySectionId" (VInt sid) s = true ->
  (forall x, In x post -> field_is "itinerarySectionId" (VInt sid) x = false) ->
  truthy (field "itineraryLegId" s) = true ->
  getStartListId itinerary sid
  = Ok (or_none (option_map (field "startListId")
                   (find (field_is "itineraryLegId" (field "itineraryLegId" s))
                         itinerary))).
Proof.
  intros Hwf Hsec Hs Hpost Ht. rewrite (getStartListId_spec _ _ Hwf).
  unfold found_leg_id. rewrite Hsec, fold_left_app. cbn [fold_left].
  rewrite Hs, (found_leg_id_skip _ _ _ Hpost). cbv zeta. rewrite Ht.
  reflexivity.
Qed.

(** C4. The section 7 exists and belongs to the leg 0, whose start list
    is 5, yet [getStartListId] returns [None]: the leg identifier found by
    the search is tested for truth, and 0 tests false.  With the leg
    identifier 1 instead, the same itinerary gives 5. *)
Theorem getStartListId_leg_zero :
  getStartListId [leg_with 0] 7 = Ok VNone /\
  (exists s, In s (sections_of [leg_with 0]) /\
             field_is "itinerarySectionId" (VInt 7) s = true /\
             field "itineraryLegId" s = VInt 0) /\
  field "itineraryLegId" (leg_with 0) = VInt 0 /\
  field "startListId" (leg_with 0) = VInt 5 /\
  getStartListId [leg_with 1] 7 = Ok (VInt 5) /\
  getStartListId [leg_with 1] 8 = Ok VNone.
Proof.
  split; [reflexivity|split; [|repeat split]].
  exists (record [("itinerarySectionId", VInt 7); ("itineraryLegId", VInt 0)]).
  split; [left; reflexivity|split; reflexivity].
Qed.

(** ** The wide pivots are one routine *)

Lemma foldM_ext {A S : Type} (f g : S -> A -> result S) (l : list A) (acc : S) :
  (forall s x, f s x = g s x) -> foldM f l acc = foldM g l acc.
Proof.
  intros H. revert acc. induction l as [|x l IH]; intros acc; simpl; [reflexivity|].
  rewrite H. destruct (g acc x); simpl; [apply IH|reflexivity].
Qed.

Lemma getMultiStageTimesWide_pivot (records : list value) :
  getMultiStageTimesWide records = wide_pivot select_seconds records.
Proof.
  unfold getMultiStageTimesWide, wide_pivot.
  destruct (collect_entries records) as [entries|e]; [|reflexivity].
  cbn [bind]. apply foldM_ext. intros final entry. f_equal.
  apply foldM_ext. intros row stage.
  destruct (getitem stage "entryId") as [e|]; [|reflexivity]. cbn [bind].
  destruct (py_eq e entry); [|reflexivity].
  unfold select_seconds.
  destruct (getitem stage "elapsedDurationMs") as [ms|]; [|reflexivity].
  cbn [bind]. destruct (truthy ms); reflexivity.
Qed.

Lemma getMultiStageGenericWide_pivot (records : list value) (stageKey : string) :
  getMultiStageGenericWide records stageKey
  = wide_pivot (select_key stageKey) records.
Proof.
  unfold getMultiStageGenericWide, wide_pivot.
  destruct (collect_entries records) as [entries|e]; [|reflexivity].
  cbn [bind]. apply foldM_ext. intros final entry. f_equal.
  apply foldM_ext. intros row stage.
  destruct (getitem stage "entryId") as [e|]; [|reflexivity]. cbn [bind].
  destruct (py_eq e entry); [|reflexivity].
  unfold select_key.
  destruct (String.eqb stageKey "elapsedDurationMs") eqn:Hk; [|reflexivity].
  apply String.eqb_eq in Hk. subst stageKey.
  unfold select_seconds.
  destruct (getitem stage "elapsedDurationMs") as [ms|]; [|reflexivity].
  cbn [bind]. destruct (truthy ms); reflexivity.
Qed.

(** C6. On every input, results and errors alike, the generic pivot with
    the key ['elapsedDurationMs'] is [getMultiStageTimesWide] and the
    generic pivot with the key ['position'] is
    [getMultiStagePositionsWide]; the three functions are the routine
    [wide_pivot] at three selections. *)
Theorem wide_pivots_agree (records : list value) :
  getMultiStageGenericWide records "elapsedDurationMs"
  = getMultiStageTimesWide records /\
  getMultiStageGenericWide records "position"
  = getMultiStagePositionsWide records /\
  getMultiStageTimesWide records = wide_pivot select_seconds records /\
  getMultiStagePositionsWide records
  = wide_pivot (fun stage => getitem stage "position") records /\
  (forall stageKey,
      getMultiStageGenericWide records stageKey
      = wide_pivot (select_key stageKey) records).
Proof.
  split; [|split; [|split; [|split]]].
  - rewrite getMultiStageGenericWide_pivot, getMultiStageTimesWide_pivot.
    reflexivity.
  - rewrite getMultiStageGenericWide_pivot. reflexivity.
  - apply getMultiStageTimesWide_pivot.
  - reflexivity.
  - apply getMultiStageGenericWide_pivot.
Qed.

(** ** The wide pivot of the stage times *)

(** *** First occurrences *)

Lemma dedup_first_In (l : list Z) (x : Z) : In x (dedup_first l) <-> In x l.
Proof.
  induction l as [|a l IH]; simpl; [tauto|].
  rewrite filter_In, IH, negb_true_iff, Z.eqb_neq.
  destruct (Z.eq_dec a x) as [->|Hne]; [tauto|].
  split; [tauto|]. intros [H|H]; [tauto|]. right. split; [exact H|congruence].
Qed.

Lemma dedup_first_NoDup (l : list Z) : NoDup (dedup_first l).
Proof.
  induction l as [|a l IH]; simpl; constructor.
  - rewrite filter_In, negb_true_iff, Z.eqb_neq. tauto.
  - apply NoDup_filter. exact IH.
Qed.

Lemma filter_filter {A : Type} (p q : A -> bool) (l : list A) :
  filter p (filter q l) = filter (fun x => q x && p x) l.
Proof.
  induction l as [|a l IH]; simpl; [reflexivity|].
  destruct (q a); simpl; [destruct (p a); rewrite IH; reflexivity|exact IH].
Qed.

Lemma existsb_snoc (acc : list Z) (a y : Z) :
  existsb (fun z => z =? y) (acc ++ [a]) = existsb (fun z => z =? y) acc || (a =? y).
Proof. rewrite existsb_app. simpl. rewrite orb_false_r. reflexivity. Qed.

(** The accumulating loop computes the first occurrences. *)
Lemma add_new_loop (l acc : list Z) :
  fold_left add_new l acc
  = acc ++ filter (fun y => negb (existsb (fun z => z =? y) acc)) (dedup_first l).
Proof.
  revert acc. induction l as [|a l IH]; intros acc; simpl.
  - rewrite app_nil_r. reflexivity.
  - rewrite IH. unfold add_new.
    destruct (existsb (fun y => y =? a) acc) eqn:Ha; cbn [negb].
    + f_equal. rewrite filter_filter. apply filter_ext_in. intros y _.
      destruct (y =? a) eqn:Hy; [|reflexivity].
      apply Z.eqb_eq in Hy. subst y. rewrite Ha. reflexivity.
    + rewrite <- app_assoc. cbn [app]. do 2 f_equal.
      rewrite filter_filter. apply filter_ext_in. intros y _.
      rewrite existsb_snoc, negb_orb, (Z.eqb_sym a y), andb_comm. reflexivity.
Qed.

Lemma first_seen_dedup (l : list Z) : fold_left add_new l [] = dedup_first l.
Proof.
  rewrite add_new_loop. cbn [app existsb negb].
  induction (dedup_first l) as [|a d IH]; simpl; [reflexivity|].
  rewrite IH. reflexivity.
Qed.

(** *** Dictionaries keyed by integers and strings *)

Lemma simple_eq (a b : value) :
  simple a = true -> simple b = true -> (py_eq a b = true <-> a = b).
Proof.
  destruct a as [| | n | | s | |]; try discriminate;
    destruct b as [| | m | | t | |]; try discriminate; intros _ _.
  - rewrite py_eq_int, Z.eqb_eq. split; [intros ->; reflexivity|intros H; inversion H; reflexivity].
  - split; discriminate.
  - split; discriminate.
  - apply py_eq_str.
Qed.

Lemma dict_set_simple (d : dict) (k v : value) :
  simple_dict d -> simple k = true -> simple_dict (dict_set d k v).
Proof.
  unfold simple_dict. intros Hd Hk.
  induction d as [|[k0 v0] d IH]; simpl.
  - constructor; [exact Hk|constructor].
  - inversion Hd as [|? ? H0 Hd']; subst.
    destruct (py_eq k0 k); constructor; auto.
Qed.

(** Reading after writing. *)
Lemma dict_get_set (d : dict) (k v k' : value) :
  simple_dict d -> simple k = true -> simple k' = true ->
  dict_get (dict_set d k v) k'
  = if py_eq k k' then Some v else dict_get d k'.
Proof.
  intros Hd Hk Hk'. induction d as [|[k0 v0] d IH]; simpl; [reflexivity|].
  inversion Hd as [|? ? H0 Hd']; subst. simpl in H0.
  destruct (py_eq k0 k) eqn:E0; simpl.
  - apply (simple_eq _ _ H0 Hk) in E0. subst k0.
    destruct (py_eq k k'); reflexivity.
  - rewrite (IH Hd').
    destruct (py_eq k0 k') eqn:E1; [|reflexivity].
    destruct (py_eq k k') eqn:E2; [|reflexivity].
    apply (simple_eq _ _ H0 Hk') in E1. apply (simple_eq _ _ Hk Hk') in E2.
    subst. assert (py_eq k' k' = true) by (apply simple_eq; auto).
    congruence.
Qed.

(** The keys after writing: a new key goes last. *)
Lemma dict_keys_set (d : dict) (k v : value) :
  dict_keys (dict_set d k v)
  = if py_in k (dict_keys d) then dict_keys d else dict_keys d ++ [k].
Proof.
  unfold py_in, dict_keys. induction d as [|[k0 v0] d IH]; simpl; [reflexivity|].
  destruct (py_eq k0 k) eqn:E0; simpl; [reflexivity|].
  rewrite IH. destruct (existsb (fun y => py_eq y k) (map fst d)); reflexivity.
Qed.

(** *** The rows *)

Lemma py_in_ints (e : Z) (acc : list Z) :
  py_in (VInt e) (map VInt acc) = existsb (fun y => y =? e) acc.
Proof.
  unfold py_in. induction acc as [|a acc IH]; simpl; [reflexivity|].
  rewrite IH. f_equal. apply py_eq_int.
Qed.

Lemma collect_entries_ok (records : list value) :
  Forall stage_time_wf records ->
  collect_entries records
  = Ok (map VInt (dedup_first (map (int_field "entryId") records))).
Proof.
  intros Hwf. rewrite <- first_seen_dedup. unfold collect_entries.
  match goal with
  | |- foldM ?f _ _ = _ =>
      enough (G : forall acc,
                 foldM f records (map VInt acc)
                 = Ok (map VInt (fold_left add_new
                                   (map (int_field "entryId") records) acc)))
        by exact (G [])
  end.
  induction records as [|r records IH]; intros acc; [reflexivity|].
  inversion Hwf as [|? ? Hr Hrs]; subst.
  destruct Hr as [[e He] _].
  cbn [foldM map fold_left]. rewrite He. cbn [bind].
  unfold int_field at 2. rewrite He.
  rewrite py_in_ints. unfold add_new.
  destruct (existsb (fun y => y =? e) acc); cbn [negb bind].
  - apply IH. exact Hrs.
  - replace (map VInt acc ++ [VInt e]) with (map VInt (acc ++ [e]))
      by (rewrite map_app; reflexivity).
    apply IH. exact Hrs.
Qed.

Lemma row_loop_ok (records : list value) (e : Z) (d : dict) :
  Forall stage_time_wf records ->
  foldM (fun newEntry stage =>
           x <- getitem stage "entryId" ;;
           if py_eq x (VInt e) then
             ms <- getitem stage "elapsedDurationMs" ;;
             if truthy ms then
               ms <- getitem stage "elapsedDurationMs" ;;
               secs <- div1000 ms ;;
               k <- getitem stage "stageId" ;;
               setitem newEntry k secs
             else
               k <- getitem stage "stageId" ;;
               setitem newEntry k (VInt 0)
           else Ok newEntry) records (VDict d)
  = Ok (VDict (fold_left (row_step e) records d)).
Proof.
  intros Hwf. revert d.
  induction records as [|r records IH]; intros d; [reflexivity|].
  inversion Hwf as [|? ? Hr Hrs]; subst.
  destruct Hr as [[x Hx] [[s Hs] [ms [Hms Hd]]]].
  cbn [foldM fold_left]. rewrite Hx. cbn [bind]. rewrite py_eq_int.
  unfold row_step at 2. unfold int_field, field, seconds.
  rewrite Hx, Hs, Hms.
  destruct (x =? e); cbn [bind]; [|apply IH; exact Hrs].
  destruct ms as [| |n|f| | |]; try (elim Hd); cbn [truthy].
  - cbn [bind setitem hashable]. apply IH. exact Hrs.
  - destruct (div1000_number (VInt n) Hd) as [q Hq].
    destruct (negb (n =? 0)); [rewrite Hq|]; cbn [bind setitem hashable];
      apply IH; exact Hrs.
  - destruct (div1000_number (VFloat f) Hd) as [q Hq].
    destruct f; [|rewrite Hq..]; cbn [bind setitem hashable];
      apply IH; exact Hrs.
Qed.

Lemma rows_loop_ok {A : Type} (f : A -> result value) (g : A -> value)
  (l : list A) (acc : list value) :
  (forall x, In x l -> f x = Ok (g x)) ->
  foldM (fun final x => y <- f x ;; Ok (final ++ [y])) l acc
  = Ok (acc ++ map g l).
Proof.
  revert acc. induction l as [|x l IH]; intros acc H; simpl.
  - rewrite app_nil_r. reflexivity.
  - rewrite (H x (or_introl eq_refl)). simpl.
    rewrite IH by (intros y Hy; apply H; right; exact Hy).
    rewrite <- app_assoc. reflexivity.
Qed.

Lemma getMultiStageTimesWide_rows (records : list value) :
  Forall stage_time_wf records ->
  getMultiStageTimesWide records
  = Ok (map (fun e => VDict (row_of records e))
            (dedup_first (map (int_field "entryId") records))).
Proof.
  intros Hwf. unfold getMultiStageTimesWide.
  rewrite (collect_entries_ok _ Hwf). cbn [bind].
  rewrite (rows_loop_ok _ (fun v => match v with
                                    | VInt e => VDict (row_of records e)
                                    | _ => VNone
                                    end)).
  - rewrite map_map. reflexivity.
  - intros v Hv. apply in_map_iff in Hv. destruct Hv as [e [<- _]].
    apply (row_loop_ok records e _ Hwf).
Qed.

Lemma find_snoc {A : Type} (p : A -> bool) (l : list A) (x : A) :
  find p (l ++ [x])
  = match find p l with
    | Some y => Some y
    | None => if p x then Some x else None
    end.
Proof.
  induction l as [|a l IH]; simpl; [reflexivity|].
  destruct (p a); [reflexivity|exact IH].
Qed.

Lemma row_step_simple (e : Z) (d : dict) (r : value) :
  simple_dict d -> simple_dict (row_step e d r).
Proof.
  intros Hd. unfold row_step. destruct (int_field "entryId" r =? e); [|exact Hd].
  apply dict_set_simple; [exact Hd|reflexivity].
Qed.

(** The column of a stage holds the time of the last record of the entry on
    that stage. *)
Lemma row_fold_get (records : list value) (e s : Z) (d : dict) :
  simple_dict d ->
  dict_get (fold_left (row_step e) records d) (VInt s)
  = match last_time records e s with
    | Some r => Some (seconds (field "elapsedDurationMs" r))
    | None => dict_get d (VInt s)
    end.
Proof.
  unfold last_time. revert d.
  induction records as [|r records IH]; intros d Hd; [reflexivity|].
  cbn [fold_left rev]. rewrite (IH _ (row_step_simple e d r Hd)), find_snoc.
  destruct (find _ (rev records)); [reflexivity|].
  unfold row_step. destruct (int_field "entryId" r =? e); cbn [andb]; [|reflexivity].
  rewrite dict_get_set by (exact Hd || reflexivity).
  rewrite py_eq_int. destruct (int_field "stageId" r =? s); reflexivity.
Qed.

Lemma row_fold_get_str (records : list value) (e : Z) (t : string) (d : dict) :
  simple_dict d ->
  dict_get (fold_left (row_step e) records d) (VStr t) = dict_get d (VStr t).
Proof.
  revert d. induction records as [|r records IH]; intros d Hd; [reflexivity|].
  cbn [fold_left]. rewrite (IH _ (row_step_simple e d r Hd)).
  unfold row_step. destruct (int_field "entryId" r =? e); [|reflexivity].
  rewrite dict_get_set by (exact Hd || reflexivity). reflexivity.
Qed.

Lemma py_in_stage_key (s : Z) (zs : list Z) :
  py_in (VInt s) (VStr "entryId" :: map VInt zs) = existsb (fun y => y =? s) zs.
Proof.
  unfold py_in. cbn [existsb]. fold (py_in (VInt s) (map VInt zs)).
  rewrite py_in_ints. reflexivity.
Qed.

Lemma row_fold_keys (records : list value) (e : Z) (d : dict) (zs : list Z) :
  dict_keys d = VStr "entryId" :: map VInt zs ->
  dict_keys (fold_left (row_step e) records d)
  = VStr "entryId" :: map VInt (fold_left add_new (stages_for e records) zs).
Proof.
  unfold stages_for. revert d zs.
  induction records as [|r records IH]; intros d zs Hd; [exact Hd|].
  cbn [fold_left filter]. unfold row_step at 2.
  destruct (int_field "entryId" r =? e); cbn [map fold_left]; [|apply IH; exact Hd].
  apply IH. rewrite dict_keys_set, Hd, py_in_stage_key. unfold add_new.
  destruct (existsb _ zs); [reflexivity|].
  rewrite map_app. reflexivity.
Qed.

Lemma row_of_simple (e : Z) : simple_dict [(VStr "entryId", VInt e)].
Proof. repeat constructor. Qed.

Lemma seconds_int (n : Z) :
  n <> 0 -> in_float_range n ->
  exists f, int_div1000 n = Ok f /\ seconds (VInt n) = VFloat f.
Proof.
  intros Hn Hr. destruct (int_div1000_in_range n Hr) as [f Hf].
  exists f. split; [exact Hf|].
  unfold seconds. cbn [truthy div1000].
  apply Z.eqb_neq in Hn. rewrite Hn, Hf. reflexivity.
Qed.

Lemma seconds_float (f : spec_float) :
  seconds (VFloat f)
  = match f with
    | S754_zero _ => VInt 0
    | _ => VFloat (float_div1000 f)
    end.
Proof. destruct f; reflexivity. Qed.

(** C1. On stage-time records, [getMultiStageTimesWide] returns one row per
    distinct [entryId], in the order the entries first occur; the row of
    an entry has the key [entryId] and then one column per stage seen for
    that entry, holding the elapsed duration in seconds, and the integer
    0 when the duration is [null] (or zero).  The seconds of an integer
    duration are the double nearest to its quotient by 1000, those of a
    float its IEEE quotient; the example of the specification evaluates
    as stated. *)
Theorem getMultiStageTimesWide_spec :
  (forall records,
      Forall stage_time_wf records ->
      let ids := dedup_first (map (int_field "entryId") records) in
      getMultiStageTimesWide records
      = Ok (map (fun e => VDict (row_of records e)) ids) /\
      NoDup ids /\
      (forall e, In e ids <-> In e (map (int_field "entryId") records)) /\
      (forall e,
          getitem (VDict (row_of records e)) "entryId" = Ok (VInt e) /\
          dict_keys (row_of records e)
          = VStr "entryId" :: map VInt (dedup_first (stages_for e records)) /\
          (forall s,
              getitem (VDict (row_of records e)) (VInt s)
              = match last_time records e s with
                | Some r => Ok (seconds (field "elapsedDurationMs" r))
                | None => Err KeyError
                end))) /\
  seconds VNone = VInt 0 /\
  (forall n, n <> 0 -> in_float_range n ->
             exists f, int_div1000 n = Ok f /\ seconds (VInt n) = VFloat f) /\
  (forall f, seconds (VFloat f)
             = match f with
               | S754_zero _ => VInt 0
               | _ => VFloat (float_div1000 f)
               end) /\
  getMultiStageTimesWide
    [ record [("entryId", VInt 1); ("stageId", VInt 10);
              ("elapsedDurationMs", VInt 65000)];
      record [("entryId", VInt 1); ("stageId", VInt 11);
              ("elapsedDurationMs", VNone)];
      record [("entryId", VInt 2); ("stageId", VInt 10);
              ("elapsedDurationMs", VInt 70000)] ]
  = Ok [ VDict [(VStr "entryId", VInt 1); (VInt 10, VFloat (dyadic 65 0));
                (VInt 11, VInt 0)];
         VDict [(VStr "entryId", VInt 2); (VInt 10, VFloat (dyadic 70 0))] ].
Proof.
  split; [|split; [reflexivity|split; [exact seconds_int|
    split; [exact seconds_float|vm_compute; reflexivity]]]].
  intros records Hwf ids. split; [|split; [|split]].
  - apply getMultiStageTimesWide_rows. exact Hwf.
  - apply dedup_first_NoDup.
  - intros e. apply dedup_first_In.
  - intros e. split; [|split].
    + cbn [getitem hashable]. unfold row_of.
      rewrite row_fold_get_str by apply row_of_simple. reflexivity.
    + unfold row_of. rewrite (row_fold_keys records e _ []) by reflexivity.
      rewrite first_seen_dedup. reflexivity.
    + intros s. cbn [getitem hashable]. unfold row_of.
      rewrite row_fold_get by apply row_of_simple.
      destruct (last_time records e s); reflexivity.
Qed.

Lemma times_example_wf : Forall stage_time_wf times_example.
Proof.
  repeat apply Forall_cons; try apply Forall_nil;
    (split; [eexists; reflexivity|split; [eexists; reflexivity|]]);
    eexists; (split; [reflexivity|]); cbn [is_duration]; try exact I;
    reflexivity.
Qed.

Lemma getMultiStageTimesWide_spec_witness :
  getMultiStageTimesWide times_example
  = Ok [ VDict [(VStr "entryId", VInt 4); (VInt 10, VFloat (dyadic 3 (-1)));
                (VInt 11, VInt 0)];
         VDict [(VStr "entryId", VInt 3); (VInt 10, VInt 0)] ].
Proof.
  exact (proj1 (proj1 getMultiStageTimesWide_spec times_example
                  times_example_wf)).
Defined.

(** Outside the range the division raises, and the pivot with it; a
    duration that is not a number raises [TypeError]. *)
Example getMultiStageTimesWide_errors :
  getMultiStageTimesWide
    [ record [("entryId", VInt 1); ("stageId", VInt 10);
              ("elapsedDurationMs", VInt (10 ^ 400))] ]
  = Err OverflowError /\
  getMultiStageTimesWide
    [ record [("entryId", VInt 1); ("stageId", VInt 10);
              ("elapsedDurationMs", VStr "65000")] ]
  = Err TypeError.
Proof. split; vm_compute; reflexivity. Qed.

(** ** Flattening the itinerary: [getStages] and [getControls] *)

Lemma getControls_lift (sections : list value) :
  getControls sections = lift_children "controls" sections.
Proof. reflexivity. Qed.

Lemma getStages_lift (sections : list value) :
  getStages sections = lift_children "stages" sections.
Proof. reflexivity. Qed.

Lemma foldM_flat {A B : Type} (body : list B -> A -> result (list B))
  (g : A -> list B) (l : list A) (acc : list B) :
  (forall out x, In x l -> body out x = Ok (out ++ g x)) ->
  foldM body l acc = Ok (acc ++ flat_map g l).
Proof.
  revert acc. induction l as [|x l IH]; intros acc H; simpl.
  - rewrite app_nil_r. reflexivity.
  - rewrite (H acc x (or_introl eq_refl)). simpl.
    rewrite IH by (intros out y Hy; apply H; right; exact Hy).
    rewrite <- app_assoc. reflexivity.
Qed.

Lemma flat_map_single {A B : Type} (f : A -> B) (l : list A) :
  flat_map (fun x => [f x]) l = map f l.
Proof. induction l as [|x l IH]; simpl; [reflexivity|rewrite IH; reflexivity]. Qed.

Lemma flat_map_flat_map {A B C : Type} (f : A -> list B) (g : B -> list C)
  (l : list A) :
  flat_map g (flat_map f l) = flat_map (fun x => flat_map g (f x)) l.
Proof.
  induction l as [|x l IH]; simpl; [reflexivity|].
  rewrite flat_map_app, IH. reflexivity.
Qed.

(** The flat list: the children of each section, annotated, in order. *)
Lemma lift_children_ok (child : string) (sections : list value) :
  sections_wf child sections ->
  lift_children child sections
  = Ok (flat_map (fun c => map (annotate (section_id c)) (items child c))
                 (all_sections sections)).
Proof.
  intros [Hlists Hsecs]. unfold lift_children.
  rewrite (foldM_flat _
             (fun section =>
                flat_map (fun c => map (annotate (section_id c)) (items child c))
                         (elements section))).
  - cbn [app]. unfold all_sections. rewrite flat_map_flat_map. reflexivity.
  - intros out section Hsec.
    destruct (Forall_In _ _ Hlists section Hsec) as [cs ->].
    cbn [py_iter bind elements].
    apply foldM_flat. intros out' c Hc.
    assert (Hwf : section_wf child c).
    { apply (Forall_In _ _ Hsecs). unfold all_sections.
      apply in_flat_map. exists (VList cs). split; [exact Hsec|exact Hc]. }
    destruct Hwf as [[i Hi] [l [Hl Hd]]].
    rewrite Hl. cbn [bind py_iter].
    unfold items, section_id, int_field. rewrite Hl, Hi.
    rewrite <- flat_map_single. apply foldM_flat.
    intros out'' x Hx. cbn [bind].
    destruct (Forall_In _ _ Hd x Hx) as [d ->]. reflexivity.
Qed.

(** Writing a string key and reading a string key, in any dictionary. *)
Lemma dict_get_set_str (d : dict) (k k' : string) (v : value) :
  dict_get (dict_set d (VStr k) v) (VStr k')
  = if String.eqb k k' then Some v else dict_get d (VStr k').
Proof.
  induction d as [|[k0 v0] d IH]; simpl; [reflexivity|].
  destruct (py_eq k0 (VStr k)) eqn:E0; simpl.
  - apply py_eq_str in E0. subst k0. cbn [py_eq].
    destruct (String.eqb k k'); reflexivity.
  - rewrite IH. destruct (py_eq k0 (VStr k')) eqn:E1; [|reflexivity].
    apply py_eq_str in E1. subst k0.
    destruct (String.eqb k k') eqn:E2; [|reflexivity].
    apply String.eqb_eq in E2. subst k'.
    cbn [py_eq] in E0. rewrite String.eqb_refl in E0. discriminate.
Qed.

Lemma annotate_id (i : Z) (x : value) :
  is_dict x -> getitem (annotate i x) "itinerarySectionId" = Ok (VInt i).
Proof.
  intros [d ->]. cbn [annotate getitem hashable].
  rewrite dict_get_set_str, String.eqb_refl. reflexivity.
Qed.

Lemma annotate_other (i : Z) (x : value) (k : string) :
  is_dict x -> k <> "itinerarySectionId" ->
  getitem (annotate i x) k = getitem x k.
Proof.
  intros [d ->] Hk. cbn [annotate getitem hashable].
  rewrite dict_get_set_str.
  destruct (String.eqb "itinerarySectionId" k) eqn:E; [|reflexivity].
  apply String.eqb_eq in E. congruence.
Qed.

Lemma members_annotated (i j : Z) (l : list value) :
  Forall is_dict l ->
  members i (map (annotate j) l) = if j =? i then map (annotate j) l else [].
Proof.
  intros Hd. unfold members.
  induction l as [|x l IH]; simpl; [destruct (j =? i); reflexivity|].
  inversion Hd as [|? ? Hx Hl]; subst.
  unfold field_is at 1. rewrite (annotate_id j x Hx), py_eq_int, (IH Hl).
  destruct (j =? i); reflexivity.
Qed.

Lemma members_app (i : Z) (l1 l2 : list value) :
  members i (l1 ++ l2) = members i l1 ++ members i l2.
Proof. unfold members. apply filter_app. Qed.

Section Regroup.

Variable child : string.

Lemma members_lifted_other (i : Z) (secs : list value) :
  Forall (section_wf child) secs ->
  ~ In i (map section_id secs) ->
  members i (flat_map (lifted child) secs) = [].
Proof.
  induction secs as [|a secs IH]; intros Hwf Hi; [reflexivity|].
  inversion Hwf as [|? ? Ha Hs]; subst.
  cbn [flat_map]. rewrite members_app. unfold lifted at 1.
  destruct Ha as [_ [l [Hl Hd]]].
  unfold items at 1. rewrite Hl. rewrite (members_annotated _ _ _ Hd).
  destruct (Z.eqb_spec (section_id a) i) as [E|E].
  - elim Hi. left. exact E.
  - apply IH; [exact Hs|]. intros H. apply Hi. right. exact H.
Qed.

(** Regrouping the flat list by the injected identifier gives each section
    its own children back. *)
Lemma members_lifted (secs : list value) (c : value) :
  Forall (section_wf child) secs ->
  NoDup (map section_id secs) ->
  In c secs ->
  members (section_id c) (flat_map (lifted child) secs) = lifted child c.
Proof.
  induction secs as [|a secs IH]; intros Hwf Hnd Hc; [destruct Hc|].
  inversion Hwf as [|? ? Ha Hs]; subst.
  cbn [map] in Hnd. inversion Hnd as [|? ? Hnotin Hnd']; subst.
  cbn [flat_map]. rewrite members_app.
  assert (Hhead : forall i, members i (lifted child a)
                            = if section_id a =? i then lifted child a else []).
  { intros i. unfold lifted. destruct Ha as [_ [l [Hl Hd]]].
    unfold items. rewrite Hl. apply members_annotated. exact Hd. }
  rewrite Hhead. destruct Hc as [<-|Hc].
  - rewrite Z.eqb_refl, (members_lifted_other _ _ Hs Hnotin).
    apply app_nil_r.
  - destruct (Z.eqb_spec (section_id a) (section_id c)) as [E|E].
    + elim Hnotin. rewrite E. apply in_map. exact Hc.
    + apply (IH Hs Hnd' Hc).
Qed.

Lemma lift_children_roundtrip (sections : list value) :
  sections_wf child sections ->
  NoDup (map section_id (all_sections sections)) ->
  exists out,
    lift_children child sections = Ok out /\
    out = flat_map (lifted child) (all_sections sections) /\
    map (fun c => members (section_id c) out) (all_sections sections)
    = map (lifted child) (all_sections sections).
Proof.
  intros Hwf Hnd. exists (flat_map (lifted child) (all_sections sections)).
  split; [apply lift_children_ok; exact Hwf|split; [reflexivity|]].
  apply map_ext_in. intros c Hc.
  apply members_lifted; [exact (proj2 Hwf)|exact Hnd|exact Hc].
Qed.

End Regroup.

(** C5. When the section identifiers are distinct, flattening with
    [getStages] (with [getControls]) and regrouping the flat list by the
    injected [itinerarySectionId] gives, section by section and in the
    original order, the stages (the controls) of each section; an
    annotated record is the original one with the identifier set and
    every other field unchanged. *)
Theorem flatten_then_regroup (sections : list value) :
  (sections_wf "stages" sections ->
   NoDup (map section_id (all_sections sections)) ->
   exists out,
     getStages sections = Ok out /\
     out = flat_map (lifted "stages") (all_sections sections) /\
     map (fun c => members (section_id c) out) (all_sections sections)
     = map (fun c => map (annotate (section_id c)) (items "stages" c))
           (all_sections sections)) /\
  (sections_wf "controls" sections ->
   NoDup (map section_id (all_sections sections)) ->
   exists out,
     getControls sections = Ok out /\
     out = flat_map (lifted "controls") (all_sections sections) /\
     map (fun c => members (section_id c) out) (all_sections sections)
     = map (fun c => map (annotate (section_id c)) (items "controls" c))
           (all_sections sections)) /\
  (forall i x, is_dict x ->
               getitem (annotate i x) "itinerarySectionId" = Ok (VInt i) /\
               forall k : string, k <> "itinerarySectionId" ->
                                  getitem (annotate i x) k = getitem x k).
Proof.
  split; [|split].
  - intros Hwf Hnd. rewrite getStages_lift.
    exact (lift_children_roundtrip "stages" sections Hwf Hnd).
  - intros Hwf Hnd. rewrite getControls_lift.
    exact (lift_children_roundtrip "controls" sections Hwf Hnd).
  - intros i x Hx. split; [apply annotate_id; exact Hx|].
    intros k Hk. apply annotate_other; assumption.
Qed.

Lemma sections_example_wf (child : string) :
  child = "stages" \/ child = "controls" ->
  sections_wf child sections_example.
Proof.
  intros [->| ->]; (split; [repeat constructor; eexists; reflexivity|]);
    cbn [all_sections flat_map elements sections_example app];
    repeat (apply Forall_cons || apply Forall_nil);
    (split; [eexists; reflexivity|]);
    eexists; (split; [reflexivity|]);
    repeat (apply Forall_cons || apply Forall_nil); eexists; reflexivity.
Qed.

Lemma sections_example_distinct :
  NoDup (map section_id (all_sections sections_example)).
Proof.
  change (NoDup [21; 22; 23]).
  repeat constructor; cbn [In]; intros H;
    repeat (destruct H as [H|H]; [discriminate H|]); exact H.
Qed.

Lemma flatten_then_regroup_witness :
  (exists out,
      getStages sections_example = Ok out /\
      out = flat_map (lifted "stages") (all_sections sections_example) /\
      map (fun c => members (section_id c) out) (all_sections sections_example)
      = map (fun c => map (annotate (section_id c)) (items "stages" c))
            (all_sections sections_example)) /\
  (exists out,
      getControls sections_example = Ok out /\
      out = flat_map (lifted "controls") (all_sections sections_example) /\
      map (fun c => members (section_id c) out) (all_sections sections_example)
      = map (fun c => map (annotate (section_id c)) (items "controls" c))
            (all_sections sections_example)).
Proof.
  split.
  - exact (proj1 (flatten_then_regroup sections_example)
             (sections_example_wf "stages" (or_introl eq_refl))
             sections_example_distinct).
  - exact (proj1 (proj2 (flatten_then_regroup sections_example))
             (sections_example_wf "controls" (or_intror eq_refl))
             sections_example_distinct).
Defined.

(** The flat list of the example, and the group of section 21. *)
Example getStages_example :
  getStages sections_example
  = Ok [ record [("stageId", VInt 10); ("itinerarySectionId", VInt 21)];
         record [("stageId", VInt 11); ("itinerarySectionId", VInt 21)];
         record [("stageId", VInt 12); ("itinerarySectionId", VInt 23)] ].
Proof. reflexivity. Qed.

(** ** The multi-stage aggregates *)

Lemma flatten_ok (resultList : list value) :
  Forall is_list resultList ->
  flatten resultList = Ok (List.concat (map elements resultList)).
Proof.
  intros Hl. unfold flatten. rewrite (foldM_flat _ elements).
  - cbn [app]. rewrite flat_map_concat_map. reflexivity.
  - intros out res Hres. destruct (Forall_In _ _ Hl res Hres) as [l ->].
    cbn [py_iter bind elements].
    rewrite (foldM_flat _ (fun pos => [pos])).
    + rewrite flat_map_single, map_id. reflexivity.
    + intros out' x _. reflexivity.
Qed.

Lemma flatten_lists (resultList : list (list value)) :
  flatten (map VList resultList) = Ok (List.concat resultList).
Proof.
  rewrite flatten_ok.
  - rewrite map_map. cbn [elements]. rewrite map_id. reflexivity.
  - apply Forall_forall. intros v Hv. apply in_map_iff in Hv.
    destruct Hv as [l [<- _]]. exists l. reflexivity.
Qed.

Section Aggregates.

Variable World : Type.
Variable get_json : string -> World -> result value * World.

(** The comprehension stops at the first request that raises; the stages
    after it are not fetched. *)
Lemma map_io_abort {B : Type} (f : Z -> io World B)
  (pre : list Z) (s : Z) (post : list Z) (rs : list B) (w w1 w2 : World)
  (e : error) :
  map_io f pre w = (Ok rs, w1) ->
  f s w1 = (Err e, w2) ->
  map_io f (pre ++ s :: post) w = (Err e, w2).
Proof.
  revert rs w. induction pre as [|a pre IH]; intros rs w Hpre Hs.
  - cbn [map_io ret] in Hpre. inversion Hpre; subst.
    cbn [app map_io]. unfold bind_io. rewrite Hs. reflexivity.
  - cbn [app map_io] in *. unfold bind_io in *.
    destruct (f a w) as [[y|e'] wa]; [|discriminate].
    destruct (map_io f pre wa) as [[ys|e'] wb] eqn:Hm; [|discriminate].
    cbn [ret] in Hpre. inversion Hpre; subst.
    rewrite (IH ys wa Hm Hs). reflexivity.
Qed.

Lemma getOverallResult_ok (eventId stageId : Z) (l : list value) (w w' : World) :
  get_json (overall_url eventId stageId) w = (Ok (VList l), w') ->
  Forall is_dict l ->
  getOverallResult get_json eventId stageId w
  = (Ok (map (with_stage stageId) l), w').
Proof.
  intros Hget Hd. unfold getOverallResult, bind_io.
  fold (overall_url eventId stageId). rewrite Hget.
  unfold lift. cbn [py_iter bind]. f_equal. apply mapM_ok.
  intros pos Hpos. destruct (Forall_In _ _ Hd pos Hpos) as [d ->].
  reflexivity.
Qed.

Lemma with_stage_id (stageId : Z) (l : list value) :
  Forall is_dict l ->
  Forall (fun r => getitem r "stageId" = Ok (VInt stageId))
         (map (with_stage stageId) l).
Proof.
  intros Hd. apply Forall_forall. intros r Hr.
  apply in_map_iff in Hr. destruct Hr as [x [<- Hx]].
  destruct (Forall_In _ _ Hd x Hx) as [d ->].
  cbn [with_stage getitem hashable].
  rewrite dict_get_set_str, String.eqb_refl. reflexivity.
Qed.

(** The aggregates: the comprehension over the stage list, then the
    flattening loop. *)
Lemma getMultipleStageTimes_eq (eventId : Z) (stageList : list Z) (w : World) :
  getMultipleStageTimes get_json eventId stageList w
  = match map_io (getStageTimes get_json eventId) stageList w with
    | (Ok resultList, w') => (flatten resultList, w')
    | (Err e, w') => (Err e, w')
    end.
Proof. reflexivity. Qed.

Lemma getMultipleOverall_eq (eventId : Z) (stageList : list Z) (w : World) :
  getMultipleOverall get_json eventId stageList w
  = match map_io (getOverallResult get_json eventId) stageList w with
    | (Ok resultList, w') => (flatten (map VList resultList), w')
    | (Err e, w') => (Err e, w')
    end.
Proof. reflexivity. Qed.

End Aggregates.

(** C8. The aggregates return the concatenation of the per-stage lists, in
    the order of the stage list; [getMultipleOverall] sets the [stageId]
    of every record to the stage it was fetched for; and the first request
    that raises aborts the aggregate with its error, no further stage
    being fetched. *)
Theorem multi_stage_aggregates (World : Type)
  (get_json : string -> World -> result value * World)
  (eventId : Z) (stageList : list Z) (w : World) :
  (forall resultList w',
      map_io (getStageTimes get_json eventId) stageList w = (Ok resultList, w') ->
      Forall is_list resultList ->
      getMultipleStageTimes get_json eventId stageList w
      = (Ok (List.concat (map elements resultList)), w')) /\
  (forall resultList w',
      map_io (getOverallResult get_json eventId) stageList w = (Ok resultList, w') ->
      getMultipleOverall get_json eventId stageList w
      = (Ok (List.concat resultList), w')) /\
  (forall stageId l w0 w1,
      get_json (overall_url eventId stageId) w0 = (Ok (VList l), w1) ->
      Forall is_dict l ->
      getOverallResult get_json eventId stageId w0
      = (Ok (map (with_stage stageId) l), w1) /\
      Forall (fun r => getitem r "stageId" = Ok (VInt stageId))
             (map (with_stage stageId) l)) /\
  (forall e w',
      map_io (getStageTimes get_json eventId) stageList w = (Err e, w') ->
      getMultipleStageTimes get_json eventId stageList w = (Err e, w')) /\
  (forall e w',
      map_io (getOverallResult get_json eventId) stageList w = (Err e, w') ->
      getMultipleOverall get_json eventId stageList w = (Err e, w')) /\
  (forall pre s post rs w1 e w2,
      stageList = pre ++ s :: post ->
      map_io (getStageTimes get_json eventId) pre w = (Ok rs, w1) ->
      get_json (stage_times_url eventId s) w1 = (Err e, w2) ->
      getMultipleStageTimes get_json eventId stageList w = (Err e, w2)) /\
  (forall pre s post rs w1 e w2,
      stageList = pre ++ s :: post ->
      map_io (getOverallResult get_json eventId) pre w = (Ok rs, w1) ->
      get_json (overall_url eventId s) w1 = (Err e, w2) ->
      getMultipleOverall get_json eventId stageList w = (Err e, w2)).
Proof.
  split; [|split; [|split; [|split; [|split; [|split]]]]].
  - intros resultList w' Hm Hl. rewrite getMultipleStageTimes_eq, Hm.
    rewrite (flatten_ok _ Hl). reflexivity.
  - intros resultList w' Hm. rewrite getMultipleOverall_eq, Hm.
    rewrite flatten_lists. reflexivity.
  - intros stageId l w0 w1 Hget Hd. split.
    + apply (getOverallResult_ok World get_json eventId stageId l w0 w1);
        assumption.
    + apply with_stage_id. assumption.
  - intros e w' Hm. rewrite getMultipleStageTimes_eq, Hm. reflexivity.
  - intros e w' Hm. rewrite getMultipleOverall_eq, Hm. reflexivity.
  - intros pre s post rs w1 e w2 -> Hpre Hs.
    rewrite getMultipleStageTimes_eq.
    rewrite (map_io_abort World _ pre s post rs w w1 w2 e Hpre); [reflexivity|].
    exact Hs.
  - intros pre s post rs w1 e w2 -> Hpre Hs.
    rewrite getMultipleOverall_eq.
    rewrite (map_io_abort World _ pre s post rs w w1 w2 e Hpre); [reflexivity|].
    unfold getOverallResult, bind_io. fold (overall_url eventId s).
    rewrite Hs. reflexivity.
Qed.

Lemma multi_stage_aggregates_witness :
  getMultipleStageTimes service 7 [10; 11] 0%nat
  = (Ok [time_a; time_b; time_c], 2%nat) /\
  getMultipleOverall service 7 [10; 11] 0%nat
  = (Ok [ record [("entryId", VInt 2); ("position", VInt 1); ("stageId", VInt 10)];
          record [("entryId", VInt 1); ("position", VInt 2); ("stageId", VInt 10)];
          record [("entryId", VInt 1); ("position", VInt 1); ("stageId", VInt 11)] ],
     2%nat) /\
  getMultipleStageTimes service 7 [10; 99; 11] 0%nat = (Err RequestError, 2%nat) /\
  getMultipleOverall service 7 [10; 99; 11] 0%nat = (Err RequestError, 2%nat).
Proof.
  split; [|split; [|split]].
  - apply (proj1 (multi_stage_aggregates nat service 7 [10; 11] 0%nat)
             [VList [time_a; time_b]; VList [time_c]] 2%nat).
    + reflexivity.
    + repeat constructor; eexists; reflexivity.
  - apply (proj1 (proj2 (multi_stage_aggregates nat service 7 [10; 11] 0%nat))
             [ [ record [("entryId", VInt 2); ("position", VInt 1); ("stageId", VInt 10)];
                 record [("entryId", VInt 1); ("position", VInt 2); ("stageId", VInt 10)] ];
               [ record [("entryId", VInt 1); ("position", VInt 1); ("stageId", VInt 11)] ] ]
             2%nat).
    reflexivity.
  - apply (proj1 (proj2 (proj2 (proj2 (proj2 (proj2
             (multi_stage_aggregates nat service 7 [10; 99; 11] 0%nat))))))
             [10] 99 [11] [VList [time_a; time_b]] 1%nat RequestError 2%nat);
      reflexivity.
  - apply (proj2 (proj2 (proj2 (proj2 (proj2 (proj2
             (multi_stage_aggregates nat service 7 [10; 99; 11] 0%nat))))))
             [10] 99 [11]
             [ [ record [("entryId", VInt 2); ("position", VInt 1); ("stageId", VInt 10)];
                 record [("entryId", VInt 1); ("position", VInt 2); ("stageId", VInt 10)] ] ]
             1%nat RequestError 2%nat);
      reflexivity.
Defined.

Example stage_times_url_example :
  stage_times_url 7 10
  = "https://api.wrc.com/results-api/rally-event/7/stage-times/stage-external/10".
Proof. reflexivity. Qed.

(** * Further properties of [Helper] *)

(** ** Comprehensions *)

Lemma mapM_abort {A B : Type} (f : A -> result B)
  (pre : list A) (x : A) (post : list A) (e : error) :
  (forall a, In a pre -> exists b, f a = Ok b) ->
  f x = Err e ->
  mapM f (pre ++ x :: post) = Err e.
Proof.
  intros Hpre Hx. induction pre as [|a pre IH]; simpl.
  - rewrite Hx. reflexivity.
  - destruct (Hpre a (or_introl eq_refl)) as [b ->]. simpl.
    rewrite IH; [reflexivity|]. intros c Hc. apply Hpre. right. exact Hc.
Qed.

Lemma mapM_ext_Forall2 {A B : Type} (f g : A -> result B) (l1 l2 : list A) :
  Forall2 (fun a b => f a = g b) l1 l2 -> mapM f l1 = mapM g l2.
Proof.
  induction 1 as [|a b l1 l2 Hab _ IH]; simpl; [reflexivity|].
  rewrite Hab, IH. reflexivity.
Qed.

(** The loop [for x in l: out.append(f(x))] is the comprehension
    [[f(x) for x in l]]. *)
Lemma append_loop_mapM {A B : Type} (f : A -> result B) (l : list A) (acc : list B) :
  foldM (fun out x => y <- f x ;; Ok (out ++ [y])) l acc
  = (ys <- mapM f l ;; Ok (acc ++ ys)).
Proof.
  revert acc. induction l as [|x l IH]; intros acc; simpl.
  - rewrite app_nil_r. reflexivity.
  - destruct (f x) as [y|e]; simpl; [|reflexivity].
    rewrite IH. destruct (mapM f l) as [ys|e]; simpl; [|reflexivity].
    rewrite <- app_assoc. reflexivity.
Qed.

Lemma Forall2_length_eq {A B : Type} (R : A -> B -> Prop) (l : list A) (l' : list B) :
  Forall2 R l l' -> List.length l' = List.length l.
Proof. induction 1; simpl; congruence. Qed.

(** X1. The five projections [getEventIds], [getStageList], [getDrivers],
    [getCoDrivers] and [getSections] read one field of every record: a
    result has one element per record, in input order, each the field of
    its record; the first record without the field raises its error for
    the whole call. *)
Theorem projections_keep_order (k : string) (l : list value) :
  (getEventIds l = project "id" l /\
   getStageList l = project "stageId" l /\
   getDrivers l = project "driver" l /\
   getCoDrivers l = project "codriver" l /\
   getSections l = project "itinerarySections" l) /\
  (forall vals,
      project k l = Ok vals ->
      List.length vals = List.length l /\
      Forall2 (fun r v => getitem r k = Ok v) l vals) /\
  (forall pre r post e,
      l = pre ++ r :: post ->
      (forall a, In a pre -> has_field k a) ->
      getitem r k = Err e ->
      project k l = Err e).
Proof.
  split; [repeat split|split].
  - intros vals H. apply mapM_Forall2 in H.
    split; [apply (Forall2_length_eq _ _ _ H)|exact H].
  - intros pre r post e -> Hpre He. unfold project.
    apply mapM_abort; [exact Hpre|exact He].
Qed.

Lemma projections_keep_order_witness :
  getEventIds [event_a; event_b; event_c] = Ok [VInt 301; VInt 302; VInt 303] /\
  getEventIds [event_a; VDict []; event_c; VNone] = Err KeyError.
Proof.
  split.
  - reflexivity.
  - rewrite (proj1 (proj1 (projections_keep_order "id" _))).
    apply (proj2 (proj2 (projections_keep_order "id"
                           [event_a; VDict []; event_c; VNone]))
             [event_a] (VDict []) [event_c; VNone] KeyError).
    + reflexivity.
    + intros a [<-|[]]. exists (VInt 301). reflexivity.
    + reflexivity.
Defined.




(** ** The stage list of an itinerary *)

(** X3. [getStageList] after [getStages] gives the stage identifiers of the
    itinerary, section after section: injecting the section identifier
    leaves the [stageId] of a stage as it was. *)
Theorem stage_list_of_sections (sections : list value) :
  sections_wf "stages" sections ->
  (forall c, In c (all_sections sections) ->
             Forall (has_field "stageId") (items "stages" c)) ->
  exists stages,
    getStages sections = Ok stages /\
    getStageList stages
    = Ok (flat_map (fun c => map (field "stageId") (items "stages" c))
                   (all_sections sections)).
Proof.
  intros Hwf Hids.
  exists (flat_map (fun c => map (annotate (section_id c)) (items "stages" c))
                   (all_sections sections)).
  split; [rewrite getStages_lift; apply lift_children_ok; exact Hwf|].
  unfold getStageList.
  destruct Hwf as [_ Hsecs].
  induction (all_sections sections) as [|c secs IH]; [reflexivity|].
  inversion Hsecs as [|? ? Hc Hrest]; subst.
  cbn [flat_map].
  assert (Hhead : mapM (fun s => getitem s "stageId")
                       (map (annotate (section_id c)) (items "stages" c))
                  = Ok (map (field "stageId") (items "stages" c))).
  { destruct Hc as [_ [l [Hl Hd]]].
    pose proof (Hids c (or_introl eq_refl)) as Hst.
    unfold items in *. rewrite Hl in *.
    clear Hl. induction l as [|x l IHl]; [reflexivity|].
    inversion Hd as [|? ? Hx Hd']; subst.
    inversion Hst as [|? ? Hi Hst']; subst. destruct Hi as [i Hi].
    cbn [map mapM]. cbv beta.
    rewrite (annotate_other _ x "stageId" Hx) by discriminate.
    rewrite Hi. cbn [bind]. rewrite (IHl Hd' Hst'). cbn [bind].
    change (field "stageId" x) with
      (match getitem x "stageId" with Ok v => v | Err _ => VNone end).
    rewrite Hi. reflexivity. }
  assert (Happ : forall (l1 l2 : list value) (r1 r2 : list value),
             mapM (fun s => getitem s "stageId") l1 = Ok r1 ->
             mapM (fun s => getitem s "stageId") l2 = Ok r2 ->
             mapM (fun s => getitem s "stageId") (l1 ++ l2) = Ok (r1 ++ r2)).
  { induction l1 as [|x l1 IH1]; intros l2 r1 r2 H1 H2; simpl in *.
    - inversion H1. exact H2.
    - destruct (getitem x "stageId") as [y|]; [|discriminate]. simpl in *.
      destruct (mapM (fun s => getitem s "stageId") l1) as [ys|] eqn:E;
        [|discriminate].
      simpl in H1. inversion H1; subst.
      rewrite (IH1 l2 ys r2 eq_refl H2). reflexivity. }
  apply Happ; [exact Hhead|].
  apply IH; [exact Hrest|].
  intros c' Hc'. apply Hids. right. exact Hc'.
Qed.

Lemma stage_list_of_sections_witness :
  exists stages,
    getStages sections_example = Ok stages /\
    getStageList stages = Ok [VInt 10; VInt 11; VInt 12].
Proof.
  apply (stage_list_of_sections sections_example).
  - apply sections_example_wf. left. reflexivity.
  - intros c [<-|[<-|[<-|[]]]]; repeat constructor; eexists; reflexivity.
Defined.

(** ** The lookup table of the stages *)

Lemma compM_ext_Forall2 {A B : Type} (p : A -> result bool) (f : A -> result B)
  (l1 l2 : list A) :
  Forall2 (fun a b => p a = p b /\ f a = f b) l1 l2 ->
  compM p f l1 = compM p f l2.
Proof.
  induction 1 as [|a b l1 l2 [Hp Hf] _ IH]; simpl; [reflexivity|].
  rewrite Hp, Hf, IH. reflexivity.
Qed.

Lemma getStagesLookup_rows (stages lk : list value) :
  getStagesLookup stages = Ok lk ->
  Forall2 (fun s r => exists c i,
               getitem s "code" = Ok c /\ getitem s "stageId" = Ok i /\
               r = VDict [(VStr "code", c); (VStr "stageId", i)]) stages lk.
Proof.
  intros H. apply mapM_Forall2 in H.
  induction H as [|s r stages lk Hs _ IH]; constructor; [|exact IH].
  destruct (getitem s "code") as [c|] eqn:Hc; [|discriminate]. simpl in Hs.
  destruct (getitem s "stageId") as [i|] eqn:Hi; [|discriminate]. simpl in Hs.
  inversion Hs. exists c, i. repeat split.
Qed.

(** X4. On stages that carry a [code] and a [stageId], [getStagesLookup]
    returns one record per stage, in input order, holding exactly the
    [code] and the [stageId] of the stage; looking a code up in the table,
    or listing its stage identifiers, gives what the full stage records
    give.  The first stage without one of the two fields stops the call
    with the error of that lookup. *)
Theorem getStagesLookup_keeps_lookup (stages : list value) :
  (Forall (fun s => has_field "code" s /\ has_field "stageId" s) stages ->
   exists lk,
     getStagesLookup stages = Ok lk /\
     List.length lk = List.length stages /\
     Forall2 (fun s r => exists c i,
                  getitem s "code" = Ok c /\ getitem s "stageId" = Ok i /\
                  r = VDict [(VStr "code", c); (VStr "stageId", i)]) stages lk /\
     (forall q, getStageId lk q "code" = getStageId stages q "code") /\
     getStageList lk = getStageList stages) /\
  (forall pre s post e,
      stages = pre ++ s :: post ->
      Forall (fun s => has_field "code" s /\ has_field "stageId" s) pre ->
      getitem s "code" = Err e \/
      (has_field "code" s /\ getitem s "stageId" = Err e) ->
      getStagesLookup stages = Err e).
Proof.
  assert (Hrow : forall s,
             has_field "code" s /\ has_field "stageId" s ->
             exists r,
               (c <- getitem s "code" ;;
                i <- getitem s "stageId" ;;
                Ok (VDict (dict_set (dict_set [] "code" c) "stageId" i)))
               = Ok r).
  { intros s [[c Hc] [i Hi]]. rewrite Hc, Hi. eexists. reflexivity. }
  split.
  - intros Hwf.
    destruct (mapM_total
                (fun s => c <- getitem s "code" ;;
                          i <- getitem s "stageId" ;;
                          Ok (VDict (dict_set (dict_set [] "code" c) "stageId" i)))
                stages) as [lk H].
    { apply Forall_forall. intros s Hs. apply Hrow.
      exact (Forall_In _ _ Hwf s Hs). }
    exists lk. split; [exact H|].
    pose proof (getStagesLookup_rows _ _ H) as Hrows.
    split; [apply (Forall2_length_eq _ _ _ Hrows)|split; [exact Hrows|split]].
    + intros q. unfold getStageId.
      replace (String.eqb "code" "code") with true by reflexivity.
      f_equal. symmetry. apply compM_ext_Forall2.
      clear H Hwf. induction Hrows as [|s r stages lk [c [i [Hc [Hi ->]]]] _ IH];
        constructor; [|exact IH].
      rewrite Hc, Hi. split; reflexivity.
    + unfold getStageList. symmetry. apply mapM_ext_Forall2.
      clear H Hwf. induction Hrows as [|s r stages lk [c [i [Hc [Hi ->]]]] _ IH];
        constructor; [|exact IH].
      rewrite Hi. reflexivity.
  - intros pre s post e -> Hpre Hs. unfold getStagesLookup.
    apply mapM_abort.
    + intros a Ha. apply Hrow. exact (Forall_In _ _ Hpre a Ha).
    + destruct Hs as [Hc|[[c Hc] Hi]].
      * rewrite Hc. reflexivity.
      * rewrite Hc. cbn [bind]. rewrite Hi. reflexivity.
Qed.

Lemma getStagesLookup_keeps_lookup_witness :
  (exists lk,
      getStagesLookup [stage_a; stage_b] = Ok lk /\
      List.length lk = 2%nat /\
      getStageId lk "SS2" "code" = getStageId [stage_a; stage_b] "SS2" "code" /\
      getStageList lk = getStageList [stage_a; stage_b]) /\
  getStagesLookup [stage_a; record [("stageId", VInt 12)]; stage_b]
  = Err KeyError.
Proof.
  split.
  - destruct (proj1 (getStagesLookup_keeps_lookup [stage_a; stage_b]))
      as [lk [H [Hlen [_ [Hid Hlist]]]]].
    + repeat apply Forall_cons; try apply Forall_nil;
        (split; eexists; reflexivity).
    + exists lk.
      split; [exact H|split; [exact Hlen|split; [exact (Hid "SS2")|exact Hlist]]].
  - apply (proj2 (getStagesLookup_keeps_lookup
                    [stage_a; record [("stageId", VInt 12)]; stage_b])
             [stage_a] (record [("stageId", VInt 12)]) [stage_b] KeyError).
    + reflexivity.
    + repeat apply Forall_cons; try apply Forall_nil;
        (split; eexists; reflexivity).
    + left. reflexivity.
Defined.

(** A stage without a [code] makes the whole table fail. *)
Example getStagesLookup_missing_code :
  getStagesLookup [stage_a; record [("stageId", VInt 12)]] = Err KeyError.
Proof. reflexivity. Qed.

(** ** Lookup of a person: [getPersonId] *)

Lemma nextM_first_result {A B : Type} (p : A -> result bool) (f : A -> result B)
  (pre : list A) (x : A) (post : list A) :
  (forall a, In a pre -> p a = Ok false) ->
  p x = Ok true ->
  nextM p f (pre ++ x :: post) = (y <- f x ;; Ok (Some y)).
Proof.
  intros Hpre Hx. induction pre as [|a pre IH]; simpl.
  - rewrite Hx. reflexivity.
  - rewrite (Hpre a (or_introl eq_refl)). simpl.
    apply IH. intros b Hb. apply Hpre. right. exact Hb.
Qed.




(** ** The cars of an event: [getCarData] and its caller *)

Lemma getCarData_mapM (entries : list value) :
  getCarData entries = mapM getCarDataFromEntry entries.
Proof.
  unfold getCarData. rewrite append_loop_mapM.
  destruct (mapM getCarDataFromEntry entries); reflexivity.
Qed.

(** X6. When every entry projects, [getCarData] returns one projected
    record per entry, in input order; the first entry whose projection
    fails makes the whole call fail with that error, whatever the other
    entries are. *)
Theorem getCarData_all_or_nothing (entries : list value) :
  (Forall (fun e => exists r, getCarDataFromEntry e = Ok r) entries ->
   exists rows,
     getCarData entries = Ok rows /\
     List.length rows = List.length entries /\
     Forall2 (fun e r => getCarDataFromEntry e = Ok r) entries rows) /\
  (forall pre x post e,
      entries = pre ++ x :: post ->
      (forall a, In a pre -> exists r, getCarDataFromEntry a = Ok r) ->
      getCarDataFromEntry x = Err e ->
      getCarData entries = Err e).
Proof.
  split.
  - intros Hall. destruct (mapM_total _ _ Hall) as [rows H].
    exists rows. rewrite getCarData_mapM. split; [exact H|].
    apply mapM_Forall2 in H.
    split; [apply (Forall2_length_eq _ _ _ H)|exact H].
  - intros pre x post e -> Hpre Hx. rewrite getCarData_mapM.
    apply mapM_abort; [exact Hpre|exact Hx].
Qed.

Lemma getCarData_all_or_nothing_witness :
  getCarData [entry_full; entry_no_group; entry_full] = Err KeyError /\
  (exists rows,
      getCarData [entry_full; entry_full] = Ok rows /\
      List.length rows = 2%nat /\
      Forall2 (fun e r => getCarDataFromEntry e = Ok r)
              [entry_full; entry_full] rows).
Proof.
  split.
  - apply (proj2 (getCarData_all_or_nothing
                    [entry_full; entry_no_group; entry_full])
             [entry_full] entry_no_group [entry_full] KeyError).
    + reflexivity.
    + intros a [<-|[]]. exists entry_projected. reflexivity.
    + reflexivity.
  - apply (proj1 (getCarData_all_or_nothing [entry_full; entry_full])).
    repeat apply Forall_cons; try apply Forall_nil;
      (exists entry_projected; reflexivity).
Defined.

(** The list of the projections, as the call returns it. *)
Example getCarData_example :
  getCarData [entry_full; entry_full] = Ok [entry_projected; entry_projected].
Proof. reflexivity. Qed.

Lemma getEntryById_absent (entries : list value) (entryId : Z) :
  (forall x, In x entries ->
             has_field "entryId" x /\
             field_is "entryId" (VInt entryId) x = false) ->
  getEntryById entries entryId = Ok VNone.
Proof.
  intros Hall. unfold getEntryById.
  rewrite nextM_none; [reflexivity|].
  intros a Ha. destruct (Hall a Ha) as [Hf Hn].
  destruct (field_is_false _ _ _ Hf Hn) as [c [Hc Hq]].
  rewrite Hc. simpl. rewrite Hq. reflexivity.
Qed.

Lemma getEntryById_present (entries : list value) (entryId : Z)
  (pre : list value) (e : value) (post : list value) :
  entries = pre ++ e :: post ->
  (forall x, In x pre ->
             has_field "entryId" x /\
             field_is "entryId" (VInt entryId) x = false) ->
  field_is "entryId" (VInt entryId) e = true ->
  getEntryById entries entryId = Ok e.
Proof.
  intros -> Hpre He. unfold getEntryById.
  rewrite (nextM_first_result _ _ pre e post); [reflexivity| |].
  - intros a Ha. destruct (Hpre a Ha) as [Hf Hn].
    destruct (field_is_false _ _ _ Hf Hn) as [c [Hc Hq]].
    rewrite Hc. simpl. rewrite Hq. reflexivity.
  - destruct (field_is_true _ _ _ He) as [c [Hc Hq]].
    rewrite Hc. simpl. rewrite Hq. reflexivity.
Qed.

(** X7. In [VisualiseStage.py] the entry found by [getEntryById] goes
    straight into [getCarDataFromEntry]: an identifier that no entry
    carries gives [None], and the projection of [None] raises [TypeError]
    for the whole list; an identifier that is found gives the projection
    of the first entry that carries it. *)
Theorem winners_need_their_entries (entries : list value) (ids : list Z) :
  (forall pre w post,
      ids = pre ++ w :: post ->
      (forall a, In a pre ->
                 exists r, (e <- getEntryById entries a ;;
                            getCarDataFromEntry e) = Ok r) ->
      (forall x, In x entries ->
                 has_field "entryId" x /\
                 field_is "entryId" (VInt w) x = false) ->
      winners entries ids = Err TypeError) /\
  (forall w before e after,
      entries = before ++ e :: after ->
      (forall x, In x before ->
                 has_field "entryId" x /\
                 field_is "entryId" (VInt w) x = false) ->
      field_is "entryId" (VInt w) e = true ->
      winners entries [w]
      = (r <- getCarDataFromEntry e ;; Ok [r])).
Proof.
  split.
  - intros pre w post -> Hpre Hno. unfold winners.
    apply mapM_abort; [exact Hpre|].
    rewrite (getEntryById_absent _ _ Hno). reflexivity.
  - intros w before e after Hsplit Hbefore He. unfold winners.
    cbn [mapM]. rewrite (getEntryById_present _ _ _ _ _ Hsplit Hbefore He).
    cbn [bind]. destruct (getCarDataFromEntry e); reflexivity.
Qed.

Lemma winners_need_their_entries_witness :
  winners [entry_full] [1; 9; 1] = Err TypeError /\
  winners [entry_full] [1] = Ok [entry_projected].
Proof.
  split.
  - apply (proj1 (winners_need_their_entries [entry_full] [1; 9; 1])
             [1] 9 [1]).
    + reflexivity.
    + intros a [<-|[]]. exists entry_projected. reflexivity.
    + intros x [<-|[]]. split; [exists (VInt 1); reflexivity|reflexivity].
  - apply (proj2 (winners_need_their_entries [entry_full] [1])
             1 [] entry_full []).
    + reflexivity.
    + intros x [].
    + reflexivity.
Defined.

(** ** The information of a stage: [getStageInfo] *)

Lemma replace_skip (old new x b : string) :
  replace_from old new (String.length x) (x ++ b)%string
  = replace_from old new 0 b.
Proof.
  induction x as [|c x IH]; [reflexivity|].
  simpl. exact IH.
Qed.

Lemma starts_with_self (p b : string) : starts_with p (p ++ b)%string = true.
Proof. apply starts_with_app. exists b. reflexivity. Qed.

(** An occurrence at the head is replaced, and the scan goes on behind
    it. *)
Lemma replace_at_head (old new b : string) :
  old <> EmptyString ->
  str_replace (old ++ b)%string old new
  = (new ++ str_replace b old new)%string.
Proof.
  intros Hne. unfold str_replace.
  destruct old as [|c old']; [congruence|].
  change ((String c old' ++ b)%string) with (String c (old' ++ b)%string).
  cbn [replace_from].
  change (String c (old' ++ b)%string) with ((String c old' ++ b)%string).
  rewrite starts_with_self. cbn [String.length]. rewrite Nat.sub_1_r.
  cbn [Nat.pred]. rewrite replace_skip. reflexivity.
Qed.

Lemma replace_no_head (old new : string) (c : ascii) (s : string) :
  starts_with old (String c s) = false ->
  str_replace (String c s) old new = String c (str_replace s old new).
Proof.
  intros H. unfold str_replace. cbn [replace_from]. rewrite H. reflexivity.
Qed.

(** A string without the pattern is left as it is. *)
Lemma replace_absent (old new s : string) :
  str_in old s = false -> str_replace s old new = s.
Proof.
  induction s as [|c s IH]; intros H; [reflexivity|].
  cbn [str_in] in H. apply orb_false_iff in H. destruct H as [H1 H2].
  rewrite (replace_no_head _ _ _ _ H1), (IH H2). reflexivity.
Qed.

(** Before an opening parenthesis there is no room for the suffix. *)
Lemma live_tv_not_before (a rest : string) (c : ascii) :
  str_in "(" (String c a) = false ->
  starts_with live_tv (String c a ++ live_tv ++ rest)%string = false.
Proof.
  intros Hno. destruct (starts_with live_tv _) eqn:E; [|reflexivity].
  exfalso. destruct a as [|c2 a].
  - simpl in E. rewrite andb_false_r in E. discriminate.
  - apply starts_with_app in E. destruct E as [b Hb].
    unfold live_tv in Hb. simpl in Hb. inversion Hb; subst.
    assert (Hin : str_in "(" (String " " (String "(" a)) = true).
    { apply str_in_app. exists " "%string, a. reflexivity. }
    congruence.
Qed.

Lemma clean_suffix (a rest : string) :
  str_in "(" a = false ->
  str_replace (a ++ live_tv ++ rest)%string live_tv ""
  = (a ++ str_replace rest live_tv "")%string.
Proof.
  induction a as [|c a IH]; intros Hno.
  - cbn [append]. rewrite replace_at_head by discriminate. reflexivity.
  - change ((String c a ++ live_tv ++ rest)%string)
      with (String c (a ++ live_tv ++ rest)%string).
    rewrite replace_no_head.
    + rewrite IH; [reflexivity|].
      cbn [str_in] in Hno. apply orb_false_iff in Hno. tauto.
    + apply (live_tv_not_before a rest c Hno).
Qed.

Lemma filter_first_match {A : Type} (q : A -> bool) (pre : list A) (x : A)
  (post : list A) :
  (forall a, In a pre -> q a = false) -> q x = true ->
  filter q (pre ++ x :: post) = x :: filter q post.
Proof.
  intros Hpre Hx. induction pre as [|a pre IH]; simpl.
  - rewrite Hx. reflexivity.
  - rewrite (Hpre a (or_introl eq_refl)). apply IH.
    intros b Hb. apply Hpre. right. exact Hb.
Qed.

(** X8. When a stage matches, [getStageInfo] returns the name and the
    distance of the first matching stage, the later matches being
    ignored; with [clean] the suffix [" (Live TV)"] is removed from the
    name: a name without it is unchanged, and a name without parenthesis
    followed by the suffix is cut back to the name. *)
Theorem getStageInfo_first_match (stages : list value) (sid : value)
  (typ : string) (clean : bool) :
  (forall pre s post,
      stages = pre ++ s :: post ->
      (forall x, In x pre -> has_field typ x /\ field_is typ sid x = false) ->
      field_is typ sid s = true ->
      (forall x, In x post -> has_field typ x) ->
      getStageInfo stages sid typ clean
      = (n <- getitem s "name" ;;
         n' <- (if clean then replace n live_tv "" else Ok n) ;;
         d <- getitem s "distance" ;;
         Ok (VDict [(VStr "name", n'); (VStr "distance", d)]))) /\
  (forall n, str_in live_tv n = false ->
             replace (VStr n) live_tv "" = Ok (VStr n)) /\
  (forall a, str_in "(" a = false ->
             replace (VStr (a ++ live_tv)) live_tv "" = Ok (VStr a)).
Proof.
  split; [|split].
  - intros pre s post -> Hpre Hs Hpost. unfold getStageInfo.
    rewrite (filterM_ok _ (field_is typ sid)).
    + cbn [bind]. rewrite length_not_negative.
      rewrite (filter_first_match _ pre s post);
        [|intros a Ha; apply (Hpre a Ha)|exact Hs].
      replace (index_list (s :: filter (field_is typ sid) post) 0) with (Ok s).
      * cbn [bind]. fold live_tv.
        destruct clean; destruct (getitem s "name") as [n|]; reflexivity.
      * unfold index_list.
        replace (0 <? 0) with false by reflexivity.
        replace (0 <=? 0) with true by reflexivity.
        replace (0 <? Z.of_nat (List.length (s :: filter (field_is typ sid) post)))
          with true by (symmetry; apply Z.ltb_lt; simpl List.length; lia).
        reflexivity.
    + intros x Hx. apply in_app_or in Hx.
      assert (Hf : has_field typ x).
      { destruct Hx as [Hx|[<-|Hx]].
        - apply (Hpre x Hx).
        - destruct (field_is_true _ _ _ Hs) as [c [Hc _]]. exists c. exact Hc.
        - apply (Hpost x Hx). }
      destruct Hf as [v Hv]. unfold field_is. rewrite Hv. reflexivity.
  - intros n Hn. unfold replace. rewrite (replace_absent _ _ _ Hn). reflexivity.
  - intros a Ha. unfold replace.
    replace (a ++ live_tv)%string with (a ++ live_tv ++ "")%string
      by (unfold live_tv; simpl; reflexivity).
    rewrite (clean_suffix a "" Ha).
    cbn. assert (Hnil : forall x : string, (x ++ "")%string = x).
    { induction x as [|c x IH]; simpl; [reflexivity|rewrite IH; reflexivity]. }
    rewrite Hnil. reflexivity.
Qed.

Lemma getStageInfo_first_match_witness :
  getStageInfo [stage_b;
                record [("stageId", VInt 10); ("name", VStr "Col de Braus (Live TV)");
                        ("distance", VInt 17)];
                record [("stageId", VInt 10); ("name", VStr "Other"); ("distance", VInt 3)]]
               (VInt 10) "stageId" true
  = Ok (record [("name", VStr "Col de Braus"); ("distance", VInt 17)]) /\
  replace (VStr "La Bollene") live_tv "" = Ok (VStr "La Bollene") /\
  replace (VStr ("Col de Braus" ++ live_tv)) live_tv "" = Ok (VStr "Col de Braus").
Proof.
  split; [|split].
  - apply (proj1 (getStageInfo_first_match _ (VInt 10) "stageId" true)
             [stage_b]
             (record [("stageId", VInt 10); ("name", VStr "Col de Braus (Live TV)");
                      ("distance", VInt 17)])
             [record [("stageId", VInt 10); ("name", VStr "Other"); ("distance", VInt 3)]]).
    + reflexivity.
    + intros x [<-|[]]. split; [exists (VInt 11); reflexivity|reflexivity].
    + reflexivity.
    + intros x [<-|[]]. exists (VInt 10). reflexivity.
  - apply (proj1 (proj2 (getStageInfo_first_match [] VNone "stageId" true))).
    reflexivity.
  - apply (proj2 (proj2 (getStageInfo_first_match [] VNone "stageId" true))).
    reflexivity.
Defined.

(** ** The split times: [getDriverSplits] *)

Lemma mapM_app {A B : Type} (f : A -> result B) (l1 l2 : list A) :
  mapM f (l1 ++ l2)
  = (a <- mapM f l1 ;; b <- mapM f l2 ;; Ok (a ++ b)).
Proof.
  induction l1 as [|x l1 IH]; simpl.
  - destruct (mapM f l2); reflexivity.
  - destruct (f x) as [y|]; simpl; [|reflexivity].
    rewrite IH. destruct (mapM f l1) as [a|]; simpl; [|reflexivity].
    destruct (mapM f l2); reflexivity.
Qed.

(** Nested append loops are one comprehension over the flattened list. *)
Lemma append_loop_flat {A B C : Type} (sub : A -> list B) (f : B -> result C)
  (l : list A) (acc : list C) :
  foldM (fun out x =>
           foldM (fun out y => z <- f y ;; Ok (out ++ [z])) (sub x) out) l acc
  = (zs <- mapM f (flat_map sub l) ;; Ok (acc ++ zs)).
Proof.
  revert acc. induction l as [|x l IH]; intros acc; simpl.
  - rewrite app_nil_r. reflexivity.
  - rewrite append_loop_mapM, mapM_app.
    destruct (mapM f (sub x)) as [a|]; simpl; [|reflexivity].
    rewrite IH. destruct (mapM f (flat_map sub l)) as [b|]; simpl; [|reflexivity].
    rewrite app_assoc. reflexivity.
Qed.

Lemma driver_splits_loop (entries acc : list value) :
  Forall (has_items "splitPointTimes") entries ->
  foldM (fun driverSplits entry =>
    points <- getitem entry "splitPointTimes" ;;
    items <- py_iter points ;;
    foldM (fun driverSplits split =>
      ms <- getitem split "elapsedDurationMs" ;;
      secs <- div1000 ms ;;
      split <- setitem split "elapsedDurationS" secs ;;
      split <- pop split "elapsedDurationMs" ;;
      Ok (driverSplits ++ [split])) items driverSplits)
    entries acc
  = foldM (fun out entry =>
             foldM (fun out y => z <- split_op y ;; Ok (out ++ [z]))
                   (items "splitPointTimes" entry) out) entries acc.
Proof.
  intros Hshape. revert acc.
  induction entries as [|entry entries IH]; intros acc; [reflexivity|].
  inversion Hshape as [|? ? [l Hl] Hrest]; subst.
  cbn [foldM]. unfold items at 1. rewrite Hl. cbn [bind py_iter].
  rewrite (foldM_ext _ (fun out y => z <- split_op y ;; Ok (out ++ [z]))).
  - destruct (foldM _ l acc) as [acc'|]; cbn [bind]; [|reflexivity].
    apply IH. exact Hrest.
  - intros s x. unfold split_op.
    destruct (getitem x "elapsedDurationMs") as [ms|]; [|reflexivity].
    cbn [bind]. destruct (div1000 ms) as [secs|]; [|reflexivity].
    cbn [bind]. destruct (setitem x "elapsedDurationS" secs); reflexivity.
Qed.

Lemma getDriverSplits_mapM (splits : value) :
  splits_shape splits ->
  getDriverSplits splits = mapM split_op (all_splits splits).
Proof.
  intros [[entries He] Hshape]. unfold getDriverSplits, all_splits.
  unfold items at 1 in Hshape. unfold items at 2. rewrite He in *.
  cbn [bind py_iter].
  rewrite (driver_splits_loop _ _ Hshape), append_loop_flat.
  destruct (mapM split_op _); reflexivity.
Qed.

Lemma dict_get_absent_str (d : dict) (k : string) :
  ~ In (VStr k) (dict_keys d) -> dict_get d (VStr k) = None.
Proof.
  induction d as [|[k0 v0] d IH]; intros H; simpl; [reflexivity|].
  destruct (py_eq k0 (VStr k)) eqn:E.
  - apply py_eq_str in E. elim H. left. exact E.
  - apply IH. intros Hin. apply H. right. exact Hin.
Qed.

(** Reading after removing, for string keys. *)
Lemma dict_get_del_str (d : dict) (k k' : string) :
  NoDup (dict_keys d) ->
  dict_get (dict_del d (VStr k)) (VStr k')
  = if String.eqb k k' then None else dict_get d (VStr k').
Proof.
  induction d as [|[k0 v0] d IH]; intros Hnd; simpl.
  - destruct (String.eqb k k'); reflexivity.
  - cbn [dict_keys map fst] in Hnd. inversion Hnd as [|? ? Hnotin Hnd']; subst.
    destruct (py_eq k0 (VStr k)) eqn:E0.
    + apply py_eq_str in E0. subst k0. cbn [py_eq].
      destruct (String.eqb k k') eqn:E1; [|reflexivity].
      apply String.eqb_eq in E1. subst k'.
      apply dict_get_absent_str. exact Hnotin.
    + simpl. rewrite (IH Hnd').
      destruct (py_eq k0 (VStr k')) eqn:E1; [|reflexivity].
      apply py_eq_str in E1. subst k0.
      destruct (String.eqb k k') eqn:E2; [|reflexivity].
      apply String.eqb_eq in E2. subst k'.
      cbn [py_eq] in E0. rewrite String.eqb_refl in E0. discriminate.
Qed.

Lemma dict_set_keys_in (d : dict) (k v y : value) :
  In y (dict_keys (dict_set d k v)) -> In y (dict_keys d) \/ y = k.
Proof.
  induction d as [|[k0 v0] d IH]; simpl.
  - intros [H|[]]. right. symmetry. exact H.
  - destruct (py_eq k0 k); simpl.
    + intros H. left. exact H.
    + intros [H|H]; [left; left; exact H|].
      destruct (IH H) as [H'|H']; [left; right; exact H'|right; exact H'].
Qed.

Lemma dict_set_NoDup (d : dict) (k : string) (v : value) :
  NoDup (dict_keys d) -> NoDup (dict_keys (dict_set d (VStr k) v)).
Proof.
  induction d as [|[k0 v0] d IH]; intros Hnd; simpl.
  - constructor; [intros []|constructor].
  - cbn [dict_keys map fst] in Hnd. inversion Hnd as [|? ? Hnotin Hnd']; subst.
    destruct (py_eq k0 (VStr k)) eqn:E0; simpl.
    + constructor; assumption.
    + constructor; [|apply IH; exact Hnd'].
      intros Hin. apply dict_set_keys_in in Hin. destruct Hin as [Hin|Heq].
      * exact (Hnotin Hin).
      * subst k0. cbn [py_eq] in E0. rewrite String.eqb_refl in E0. discriminate.
Qed.

(** One split record: the duration moves to the new key, in seconds, and
    every other field stays. *)
Lemma split_op_ok (x : value) :
  split_wf x ->
  exists y,
    split_op x = Ok y /\
    getitem y "elapsedDurationMs" = Err KeyError /\
    (exists ms secs, getitem x "elapsedDurationMs" = Ok ms /\
                     div1000 ms = Ok secs /\
                     getitem y "elapsedDurationS" = Ok secs) /\
    (forall k : string, k <> "elapsedDurationMs" -> k <> "elapsedDurationS" ->
                        getitem y k = getitem x k).
Proof.
  intros [d [ms [-> [Hnd [Hms Hnum]]]]].
  destruct (div1000_number ms Hnum) as [q Hq].
  set (secs := VFloat q).
  set (d1 := dict_set d "elapsedDurationS" secs).
  assert (Hnd1 : NoDup (dict_keys d1)) by (apply dict_set_NoDup; exact Hnd).
  assert (Hms1 : dict_get d1 "elapsedDurationMs" = Some ms).
  { unfold d1. rewrite dict_get_set_str. exact Hms. }
  exists (VDict (dict_del d1 "elapsedDurationMs")).
  split; [|split; [|split]].
  - unfold split_op. cbn [getitem hashable]. rewrite Hms. cbn [bind].
    rewrite Hq. cbn [bind setitem hashable pop].
    fold secs. fold d1. rewrite Hms1. reflexivity.
  - cbn [getitem hashable]. rewrite (dict_get_del_str _ _ _ Hnd1).
    rewrite String.eqb_refl. reflexivity.
  - exists ms, secs. split; [|split].
    + cbn [getitem hashable]. rewrite Hms. reflexivity.
    + exact Hq.
    + cbn [getitem hashable]. rewrite (dict_get_del_str _ _ _ Hnd1).
      replace (String.eqb "elapsedDurationMs" "elapsedDurationS") with false
        by reflexivity.
      unfold d1. rewrite dict_get_set_str, String.eqb_refl. reflexivity.
  - intros k Hk1 Hk2. cbn [getitem hashable].
    rewrite (dict_get_del_str _ _ _ Hnd1).
    destruct (String.eqb "elapsedDurationMs" k) eqn:E1;
      [apply String.eqb_eq in E1; congruence|].
    unfold d1. rewrite dict_get_set_str.
    destruct (String.eqb "elapsedDurationS" k) eqn:E2;
      [apply String.eqb_eq in E2; congruence|].
    reflexivity.
Qed.

(** X9. [getDriverSplits] returns the split records of the payload, entry
    after entry: each has lost [elapsedDurationMs] and carries the
    duration in seconds under [elapsedDurationS], its other fields
    unchanged.  The first duration that cannot be divided stops the whole
    call with the error of the division: a [null] duration is not
    replaced by zero here, it raises [TypeError], and an integer beyond
    the range of the floats raises [OverflowError]. *)
Theorem getDriverSplits_converts (splits : value) :
  splits_shape splits ->
  (Forall split_wf (all_splits splits) ->
   exists out,
     getDriverSplits splits = Ok out /\
     Forall2 (fun x y =>
                getitem y "elapsedDurationMs" = Err KeyError /\
                (exists ms secs, getitem x "elapsedDurationMs" = Ok ms /\
                                 div1000 ms = Ok secs /\
                                 getitem y "elapsedDurationS" = Ok secs) /\
                (forall k : string,
                    k <> "elapsedDurationMs" -> k <> "elapsedDurationS" ->
                    getitem y k = getitem x k))
             (all_splits splits) out) /\
  (forall pre x post ms e,
      all_splits splits = pre ++ x :: post ->
      Forall split_wf pre ->
      getitem x "elapsedDurationMs" = Ok ms ->
      div1000 ms = Err e ->
      getDriverSplits splits = Err e) /\
  div1000 VNone = Err TypeError /\
  div1000 (VInt (10 ^ 400)) = Err OverflowError.
Proof.
  intros Hshape. rewrite (getDriverSplits_mapM _ Hshape).
  split; [|split; [|split; [reflexivity|vm_compute; reflexivity]]].
  - intros Hwf. induction (all_splits splits) as [|x l IH].
    + exists []. split; [reflexivity|constructor].
    + inversion Hwf as [|? ? Hx Hl]; subst.
      destruct (split_op_ok x Hx) as [y [Hy Hprops]].
      destruct (IH Hl) as [out [Hout Hall]].
      exists (y :: out). split.
      * cbn [mapM]. rewrite Hy, Hout. reflexivity.
      * constructor; [exact Hprops|exact Hall].
  - intros pre x post ms e -> Hpre Hx He. apply mapM_abort.
    + intros a Ha. destruct (split_op_ok a (Forall_In _ _ Hpre a Ha)) as [y [Hy _]].
      exists y. exact Hy.
    + unfold split_op. rewrite Hx. cbn [bind]. rewrite He. reflexivity.
Qed.

Lemma split_ex_wf (p n : Z) :
  in_float_range n -> split_wf (split_ex p (VInt n)).
Proof.
  intros Hn.
  exists [(VStr "splitPointId", VInt p); (VStr "elapsedDurationMs", VInt n)], (VInt n).
  split; [reflexivity|split; [|split; [reflexivity|exact Hn]]].
  repeat constructor; cbn [In]; intros H;
    repeat (destruct H as [H|H]; [discriminate H|]); exact H.
Qed.

Lemma splits_payload_shape : splits_shape splits_payload.
Proof.
  split; [eexists; reflexivity|].
  repeat constructor; eexists; reflexivity.
Qed.

Lemma splits_payload_null_shape : splits_shape splits_payload_null.
Proof.
  split; [eexists; reflexivity|].
  repeat constructor; eexists; reflexivity.
Qed.

Lemma splits_payload_huge_shape : splits_shape splits_payload_huge.
Proof.
  split; [eexists; reflexivity|].
  repeat constructor; eexists; reflexivity.
Qed.

Lemma getDriverSplits_converts_witness :
  (exists out,
      getDriverSplits splits_payload = Ok out /\
      Forall2 (fun x y =>
                 getitem y "elapsedDurationMs" = Err KeyError /\
                 (exists ms secs, getitem x "elapsedDurationMs" = Ok ms /\
                                  div1000 ms = Ok secs /\
                                  getitem y "elapsedDurationS" = Ok secs) /\
                 (forall k : string,
                     k <> "elapsedDurationMs" -> k <> "elapsedDurationS" ->
                     getitem y k = getitem x k))
              (all_splits splits_payload) out) /\
  getDriverSplits splits_payload_null = Err TypeError /\
  getDriverSplits splits_payload_huge = Err OverflowError.
Proof.
  split; [|split].
  - apply (proj1 (getDriverSplits_converts splits_payload splits_payload_shape)).
    repeat apply Forall_cons; try apply Forall_nil; apply split_ex_wf;
      reflexivity.
  - apply (proj1 (proj2 (getDriverSplits_converts splits_payload_null
                           splits_payload_null_shape))
             [split_ex 51 (VInt 30500)] (split_ex 51 VNone) [] VNone TypeError).
    + reflexivity.
    + repeat apply Forall_cons; try apply Forall_nil; apply split_ex_wf;
        reflexivity.
    + reflexivity.
    + reflexivity.
  - apply (proj1 (proj2 (getDriverSplits_converts splits_payload_huge
                           splits_payload_huge_shape))
             [split_ex 51 (VInt 30500)] (split_ex 52 (VInt (10 ^ 400))) []
             (VInt (10 ^ 400)) OverflowError).
    + reflexivity.
    + repeat apply Forall_cons; try apply Forall_nil; apply split_ex_wf;
        reflexivity.
    + reflexivity.
    + vm_compute. reflexivity.
Defined.

Example getDriverSplits_example :
  getDriverSplits splits_payload
  = Ok [ record [("splitPointId", VInt 51);
                 ("elapsedDurationS", VFloat (dyadic 61 (-1)))];
         record [("splitPointId", VInt 52);
                 ("elapsedDurationS", VFloat (dyadic 61 0))];
         record [("splitPointId", VInt 51);
                 ("elapsedDurationS", VFloat (dyadic 31 0))] ].
Proof. vm_compute. reflexivity. Qed.

(** ** Columns of a wide row *)

Section Columns.

Variable keep : value -> bool.
Variable key : value -> Z.
Variable val : value -> value.

Lemma cols_simple (records : list value) (d : dict) :
  simple_dict d -> simple_dict (cols keep key val records d).
Proof.
  unfold cols. revert d. induction records as [|r records IH]; intros d Hd;
    [exact Hd|].
  cbn [fold_left]. apply IH. destruct (keep r); [|exact Hd].
  apply dict_set_simple; [exact Hd|reflexivity].
Qed.

(** A column holds the value of the last kept record with its key. *)
Lemma cols_get (records : list value) (s : Z) (d : dict) :
  simple_dict d ->
  dict_get (cols keep key val records d) (VInt s)
  = match last_with keep key records s with
    | Some r => Some (val r)
    | None => dict_get d (VInt s)
    end.
Proof.
  unfold cols, last_with. revert d.
  induction records as [|r records IH]; intros d Hd; [reflexivity|].
  cbn [fold_left rev]. rewrite find_snoc.
  assert (Hd' : simple_dict (if keep r then dict_set d (VInt (key r)) (val r)
                             else d)).
  { destruct (keep r); [|exact Hd].
    apply dict_set_simple; [exact Hd|reflexivity]. }
  rewrite (IH _ Hd').
  destruct (find _ (rev records)); [reflexivity|].
  destruct (keep r); cbn [andb]; [|reflexivity].
  rewrite dict_get_set by (exact Hd || reflexivity).
  rewrite py_eq_int. destruct (key r =? s); reflexivity.
Qed.

Lemma cols_get_str (records : list value) (t : string) (d : dict) :
  simple_dict d ->
  dict_get (cols keep key val records d) (VStr t) = dict_get d (VStr t).
Proof.
  unfold cols. revert d.
  induction records as [|r records IH]; intros d Hd; [reflexivity|].
  cbn [fold_left].
  assert (Hd' : simple_dict (if keep r then dict_set d (VInt (key r)) (val r)
                             else d)).
  { destruct (keep r); [|exact Hd].
    apply dict_set_simple; [exact Hd|reflexivity]. }
  rewrite (IH _ Hd'). destruct (keep r); [|reflexivity].
  rewrite dict_get_set by (exact Hd || reflexivity). reflexivity.
Qed.

(** The keys of a row: [entryId], then the keys of the kept records at
    their first occurrence. *)
Lemma cols_keys (records : list value) (d : dict) (zs : list Z) :
  dict_keys d = VStr "entryId" :: map VInt zs ->
  dict_keys (cols keep key val records d)
  = VStr "entryId"
      :: map VInt (fold_left add_new (map key (filter keep records)) zs).
Proof.
  unfold cols. revert d zs.
  induction records as [|r records IH]; intros d zs Hd; [exact Hd|].
  cbn [fold_left filter].
  destruct (keep r); cbn [map fold_left]; [|apply IH; exact Hd].
  apply IH. rewrite dict_keys_set, Hd, py_in_stage_key. unfold add_new.
  destruct (existsb _ zs); [reflexivity|].
  rewrite map_app. reflexivity.
Qed.

End Columns.

(** ** The wide split times: [getDriverSplitsWide] *)

Lemma split_cols_loop (ss : list value) (d : dict) :
  Forall wide_split_wf ss ->
  foldM (fun newEntry split =>
           ms <- getitem split "elapsedDurationMs" ;;
           secs <- div1000 ms ;;
           k <- getitem split "splitPointId" ;;
           setitem newEntry k secs) ss (VDict d)
  = Ok (VDict (cols (fun _ => true) (int_field "splitPointId")
                    (fun s => secs_of (field "elapsedDurationMs" s)) ss d)).
Proof.
  intros Hwf. revert d. induction ss as [|s ss IH]; intros d; [reflexivity|].
  inversion Hwf as [|? ? Hs Hrest]; subst.
  destruct Hs as [[p Hp] [ms [Hms Hnum]]].
  cbn [foldM]. rewrite Hms. cbn [bind].
  unfold cols. cbn [fold_left]. fold (cols (fun _ : value => true)
    (int_field "splitPointId") (fun s => secs_of (field "elapsedDurationMs" s))).
  unfold secs_of at 2, field at 2, int_field at 2. rewrite Hms, Hp.
  destruct (div1000_number ms Hnum) as [q Hq]. rewrite Hq.
  cbn [bind setitem hashable].
  apply IH. exact Hrest.
Qed.

Lemma split_rows_loop (entries acc : list value) :
  Forall wide_entry_wf entries ->
  foldM (fun out entry =>
    i <- getitem entry "entryId" ;;
    points <- getitem entry "splitPointTimes" ;;
    ss <- py_iter points ;;
    newEntry <-
      foldM (fun newEntry split =>
        ms <- getitem split "elapsedDurationMs" ;;
        secs <- div1000 ms ;;
        k <- getitem split "splitPointId" ;;
        setitem newEntry k secs) ss (VDict (dict_set [] "entryId" i)) ;;
    Ok (out ++ [newEntry])) entries acc
  = Ok (acc ++ map split_row entries).
Proof.
  intros Hwf. revert acc.
  induction entries as [|entry entries IH]; intros acc.
  - cbn [foldM map]. rewrite app_nil_r. reflexivity.
  - inversion Hwf as [|? ? He Hrest]; subst.
    destruct He as [[i Hi] [[l Hl] Hss]].
    cbn [foldM map]. rewrite Hi, Hl. cbn [bind py_iter].
    unfold items in Hss. rewrite Hl in Hss.
    change (dict_set [] "entryId" i) with [(VStr "entryId", i)].
    rewrite (split_cols_loop _ _ Hss). cbn [bind].
    rewrite (IH Hrest). rewrite <- app_assoc. cbn [app].
    unfold split_row at 2, items, field. rewrite Hi, Hl. reflexivity.
Qed.

Lemma filter_all {A : Type} (l : list A) : filter (fun _ => true) l = l.
Proof. induction l as [|x l IH]; simpl; [reflexivity|rewrite IH; reflexivity]. Qed.

(** X10. [getDriverSplitsWide] returns one row per entry of the payload, in
    payload order and without grouping by [entryId]; a row has the
    [entryId] of its entry, then one column per split point at its first
    occurrence, holding the last duration of that point divided by
    1000: the float that the division returns, for a number in range. *)
Theorem getDriverSplitsWide_rows (splits : value) :
  has_items "entrySplitPointTimes" splits ->
  Forall wide_entry_wf (items "entrySplitPointTimes" splits) ->
  getDriverSplitsWide splits
  = Ok (map split_row (items "entrySplitPointTimes" splits)) /\
  (forall entry,
      getitem (split_row entry) "entryId" = Ok (field "entryId" entry) /\
      (exists d, split_row entry = VDict d /\
                 dict_keys d
                 = VStr "entryId"
                     :: map VInt (dedup_first
                                    (map (int_field "splitPointId")
                                         (items "splitPointTimes" entry)))) /\
      (forall p,
          getitem (split_row entry) (VInt p)
          = match last_with (fun _ => true) (int_field "splitPointId")
                            (items "splitPointTimes" entry) p with
            | Some s => Ok (secs_of (field "elapsedDurationMs" s))
            | None => Err KeyError
            end)) /\
  (forall ms, number_in_range ms ->
              exists f, div1000 ms = Ok (VFloat f) /\ secs_of ms = VFloat f).
Proof.
  intros [entries He] Hwf. split; [|split].
  - unfold getDriverSplitsWide. unfold items at 1 in Hwf. unfold items at 1.
    rewrite He in *. cbn [bind py_iter].
    rewrite (split_rows_loop _ _ Hwf). reflexivity.
  - intros entry.
    assert (Hs : simple_dict [(VStr "entryId", field "entryId" entry)])
      by (repeat constructor).
    split; [|split].
    + unfold split_row. cbn [getitem hashable].
      rewrite cols_get_str by exact Hs. reflexivity.
    + eexists. split; [reflexivity|].
      rewrite (cols_keys _ _ _ _ _ []) by reflexivity.
      rewrite filter_all, first_seen_dedup. reflexivity.
    + intros p. unfold split_row. cbn [getitem hashable].
      rewrite cols_get by exact Hs.
      destruct (last_with _ _ _ p); reflexivity.
  - intros ms Hms. destruct (div1000_number ms Hms) as [f Hf].
    exists f. split; [exact Hf|]. unfold secs_of. rewrite Hf. reflexivity.
Qed.

Lemma split_ex_wide_wf (p n : Z) :
  in_float_range n -> wide_split_wf (split_ex p (VInt n)).
Proof.
  intros Hn. split; [exists p; reflexivity|].
  exists (VInt n). split; [reflexivity|exact Hn].
Qed.

Lemma splits_payload_wide_wf :
  Forall wide_entry_wf (items "entrySplitPointTimes" splits_payload).
Proof.
  repeat apply Forall_cons; try apply Forall_nil;
    (split; [eexists; reflexivity|split; [eexists; reflexivity|]]);
    repeat apply Forall_cons; try apply Forall_nil;
    apply split_ex_wide_wf; reflexivity.
Qed.

Lemma getDriverSplitsWide_rows_witness :
  getDriverSplitsWide splits_payload
  = Ok (map split_row (items "entrySplitPointTimes" splits_payload)) /\
  map split_row (items "entrySplitPointTimes" splits_payload)
  = [ VDict [(VStr "entryId", VInt 1); (VInt 51, VFloat (dyadic 61 (-1)));
             (VInt 52, VFloat (dyadic 61 0))];
      VDict [(VStr "entryId", VInt 2); (VInt 51, VFloat (dyadic 31 0))] ].
Proof.
  split.
  - exact (proj1 (getDriverSplitsWide_rows splits_payload
                    (ex_intro _ _ eq_refl) splits_payload_wide_wf)).
  - vm_compute. reflexivity.
Defined.

(** Two entries of the payload with the same [entryId] give two rows; a
    [null] duration raises [TypeError], and a duration beyond the range
    of the floats [OverflowError]. *)
Example getDriverSplitsWide_edge :
  getDriverSplitsWide
    (record [("entrySplitPointTimes",
              VList [ record [("entryId", VInt 1);
                              ("splitPointTimes", VList [split_ex 51 (VInt 1000)])];
                      record [("entryId", VInt 1);
                              ("splitPointTimes", VList [split_ex 52 (VInt 2000)])] ])])
  = Ok [ VDict [(VStr "entryId", VInt 1); (VInt 51, VFloat (dyadic 1 0))];
         VDict [(VStr "entryId", VInt 1); (VInt 52, VFloat (dyadic 2 0))] ] /\
  getDriverSplitsWide splits_payload_null = Err TypeError /\
  getDriverSplitsWide splits_payload_huge = Err OverflowError.
Proof. repeat split; vm_compute; reflexivity. Qed.

(** ** The wide pivot on a field *)

Lemma collect_entries_ids (records : list value) :
  Forall (fun r => exists e, getitem r "entryId" = Ok (VInt e)) records ->
  collect_entries records
  = Ok (map VInt (dedup_first (map (int_field "entryId") records))).
Proof.
  intros Hwf. rewrite <- first_seen_dedup. unfold collect_entries.
  match goal with
  | |- foldM ?f _ _ = _ =>
      enough (G : forall acc,
                 foldM f records (map VInt acc)
                 = Ok (map VInt (fold_left add_new
                                   (map (int_field "entryId") records) acc)))
        by exact (G [])
  end.
  induction records as [|r records IH]; intros acc; [reflexivity|].
  inversion Hwf as [|? ? [e He] Hrs]; subst.
  cbn [foldM map fold_left]. rewrite He. cbn [bind].
  unfold int_field at 2. rewrite He.
  rewrite py_in_ints. unfold add_new.
  destruct (existsb (fun y => y =? e) acc); cbn [negb bind].
  - apply IH. exact Hrs.
  - replace (map VInt acc ++ [VInt e]) with (map VInt (acc ++ [e]))
      by (rewrite map_app; reflexivity).
    apply IH. exact Hrs.
Qed.

Section Pivot.

Variable select : value -> result value.
Variable val : value -> value.

Lemma pivot_row_loop (records : list value) (e : Z) (d : dict) :
  Forall (selected select val) records ->
  foldM (fun newEntry stage =>
           x <- getitem stage "entryId" ;;
           if py_eq x (VInt e) then
             v <- select stage ;;
             k <- getitem stage "stageId" ;;
             setitem newEntry k v
           else Ok newEntry) records (VDict d)
  = Ok (VDict (cols (fun r => int_field "entryId" r =? e)
                    (int_field "stageId") val records d)).
Proof.
  intros Hwf. revert d. induction records as [|r records IH]; intros d;
    [reflexivity|].
  inversion Hwf as [|? ? Hr Hrs]; subst.
  destruct Hr as [[x Hx] [[s Hs] Hsel]].
  cbn [foldM]. unfold cols. cbn [fold_left].
  fold (cols (fun r => int_field "entryId" r =? e) (int_field "stageId") val).
  unfold int_field at 3 4. rewrite Hx, Hs. cbn [bind]. rewrite py_eq_int.
  destruct (x =? e); cbn [bind]; [|apply IH; exact Hrs].
  rewrite Hsel. cbn [bind setitem hashable]. apply IH. exact Hrs.
Qed.

Lemma wide_pivot_rows (records : list value) :
  Forall (selected select val) records ->
  wide_pivot select records
  = Ok (map (fun e => VDict (cols (fun r => int_field "entryId" r =? e)
                                  (int_field "stageId") val records
                                  [(VStr "entryId", VInt e)]))
            (dedup_first (map (int_field "entryId") records))).
Proof.
  intros Hwf. unfold wide_pivot.
  rewrite collect_entries_ids.
  - cbn [bind].
    rewrite (rows_loop_ok _
               (fun v => match v with
                         | VInt e =>
                             VDict (cols (fun r => int_field "entryId" r =? e)
                                         (int_field "stageId") val records
                                         [(VStr "entryId", VInt e)])
                         | _ => VNone
                         end)).
    + rewrite map_map. reflexivity.
    + intros v Hv. apply in_map_iff in Hv. destruct Hv as [e [<- _]].
      apply (pivot_row_loop records e _ Hwf).
  - apply Forall_forall. intros r Hr.
    exact (proj1 (Forall_In _ _ Hwf r Hr)).
Qed.

End Pivot.

Lemma key_row_props (k : string) (records : list value) (e : Z) :
  getitem (key_row k records e) "entryId" = Ok (VInt e) /\
  (exists d, key_row k records e = VDict d /\
             dict_keys d
             = VStr "entryId" :: map VInt (dedup_first (stages_for e records))) /\
  (forall s,
      getitem (key_row k records e) (VInt s)
      = match last_with (fun r => int_field "entryId" r =? e)
                        (int_field "stageId") records s with
        | Some r => Ok (field k r)
        | None => Err KeyError
        end).
Proof.
  assert (Hs : simple_dict [(VStr "entryId", VInt e)]) by (repeat constructor).
  split; [|split].
  - unfold key_row. cbn [getitem hashable].
    rewrite cols_get_str by exact Hs. reflexivity.
  - eexists. split; [reflexivity|].
    rewrite (cols_keys _ _ _ _ _ []) by reflexivity.
    rewrite first_seen_dedup. reflexivity.
  - intros s. unfold key_row. cbn [getitem hashable].
    rewrite cols_get by exact Hs.
    destruct (last_with _ _ _ s); reflexivity.
Qed.

(** X11. On a field other than the duration, the generic pivot (and
    [getMultiStagePositionsWide] for ['position']) returns one row per
    distinct [entryId] in first-occurrence order; the column of a stage
    holds the field of the last record of the entry on that stage, as it
    is: a [null] stays [null], it is not replaced by zero. *)
Theorem pivot_on_field (k : string) (records : list value) :
  k <> "elapsedDurationMs" ->
  Forall (keyed_wf k) records ->
  getMultiStageGenericWide records k
  = Ok (map (key_row k records)
            (dedup_first (map (int_field "entryId") records))) /\
  (k = "position" ->
   getMultiStagePositionsWide records
   = Ok (map (key_row k records)
             (dedup_first (map (int_field "entryId") records)))) /\
  (forall e,
      getitem (key_row k records e) "entryId" = Ok (VInt e) /\
      (exists d, key_row k records e = VDict d /\
                 dict_keys d
                 = VStr "entryId"
                     :: map VInt (dedup_first (stages_for e records))) /\
      (forall s,
          getitem (key_row k records e) (VInt s)
          = match last_with (fun r => int_field "entryId" r =? e)
                            (int_field "stageId") records s with
            | Some r => Ok (field k r)
            | None => Err KeyError
            end)).
Proof.
  intros Hk Hwf.
  assert (Hsel : Forall (selected (select_key k) (field k)) records).
  { apply Forall_forall. intros r Hr.
    destruct (Forall_In _ _ Hwf r Hr) as [He [Hs [v Hv]]].
    split; [exact He|split; [exact Hs|]].
    unfold select_key, field.
    destruct (String.eqb k "elapsedDurationMs") eqn:E;
      [apply String.eqb_eq in E; congruence|].
    rewrite Hv. reflexivity. }
  split; [|split].
  - rewrite getMultiStageGenericWide_pivot.
    apply (wide_pivot_rows _ _ _ Hsel).
  - intros ->.
    change (getMultiStagePositionsWide records)
      with (wide_pivot (fun stage => getitem stage "position") records).
    apply (wide_pivot_rows _ (field "position")).
    apply Forall_forall. intros r Hr.
    destruct (Forall_In _ _ Hwf r Hr) as [He [Hs [v Hv]]].
    split; [exact He|split; [exact Hs|]].
    unfold field. rewrite Hv. reflexivity.
  - intros e. apply key_row_props.
Qed.

Lemma pivot_on_field_witness :
  getMultiStageGenericWide positions_example "position"
  = Ok [ VDict [(VStr "entryId", VInt 4); (VInt 10, VInt 2); (VInt 11, VNone)];
         VDict [(VStr "entryId", VInt 3); (VInt 10, VInt 1)] ] /\
  getMultiStagePositionsWide positions_example
  = Ok [ VDict [(VStr "entryId", VInt 4); (VInt 10, VInt 2); (VInt 11, VNone)];
         VDict [(VStr "entryId", VInt 3); (VInt 10, VInt 1)] ].
Proof.
  assert (Hwf : Forall (keyed_wf "position") positions_example).
  { repeat constructor; eexists; reflexivity. }
  split.
  - apply (proj1 (pivot_on_field "position" positions_example
                    ltac:(discriminate) Hwf)).
  - apply (proj1 (proj2 (pivot_on_field "position" positions_example
                           ltac:(discriminate) Hwf)) eq_refl).
Defined.

(** A record without the field makes the pivot raise [KeyError]. *)
Example pivot_missing_field :
  getMultiStagePositionsWide
    [record [("entryId", VInt 4); ("stageId", VInt 10)]] = Err KeyError.
Proof. reflexivity. Qed.

(** ** The start list: [getStartList] *)

Lemma py_lt_int (a b : Z) : py_lt (VInt a) (VInt b) = Ok (a <? b).
Proof.
  cbn [py_lt num_of num_ltb]. unfold Qle_bool. cbn [Qnum Qden inject_Z].
  rewrite !Z.mul_1_r, Z.ltb_antisym. reflexivity.
Qed.

Section StableSort.

Variable key : value -> Z.

Lemma ins_by_perm (x : value) (acc : list value) :
  Permutation (x :: acc) (ins_by key x acc).
Proof.
  induction acc as [|y acc IH]; simpl; [apply Permutation_refl|].
  destruct (key x <? key y); [apply Permutation_refl|].
  apply perm_trans with (y :: x :: acc); [apply perm_swap|].
  apply perm_skip. exact IH.
Qed.

Lemma isort_by_perm_acc (l acc : list value) :
  Permutation (acc ++ l) (fold_left (fun a x => ins_by key x a) l acc).
Proof.
  revert acc. induction l as [|x l IH]; intros acc; simpl.
  - rewrite app_nil_r. apply Permutation_refl.
  - apply perm_trans with (ins_by key x acc ++ l); [|apply IH].
    apply perm_trans with ((x :: acc) ++ l).
    + apply Permutation_sym. apply Permutation_middle.
    + apply Permutation_app_tail. apply ins_by_perm.
Qed.

Lemma ins_by_hd (y x : value) (acc : list value) :
  HdRel (fun a b => key a <= key b) y acc ->
  key y <= key x ->
  HdRel (fun a b => key a <= key b) y (ins_by key x acc).
Proof.
  intros Hhd Hyx. destruct acc as [|z acc]; simpl.
  - constructor. exact Hyx.
  - destruct (key x <? key z); constructor; [exact Hyx|].
    inversion Hhd; assumption.
Qed.

Lemma ins_by_sorted (x : value) (acc : list value) :
  Sorted (fun a b => key a <= key b) acc ->
  Sorted (fun a b => key a <= key b) (ins_by key x acc).
Proof.
  induction acc as [|y acc IH]; intros Hs; simpl.
  - repeat constructor.
  - inversion Hs as [|? ? Hs' Hhd]; subst.
    destruct (key x <? key y) eqn:E.
    + constructor; [exact Hs|]. constructor. apply Z.ltb_lt in E. lia.
    + constructor; [apply IH; exact Hs'|].
      apply ins_by_hd; [exact Hhd|]. apply Z.ltb_ge in E. exact E.
Qed.

Lemma sorted_tail_above (y : value) (acc : list value) :
  Sorted (fun a b => key a <= key b) (y :: acc) ->
  forall z, In z acc -> key y <= key z.
Proof.
  intros Hs. apply Sorted_StronglySorted in Hs.
  - inversion Hs as [|? ? _ Hall]; subst.
    intros z Hz. exact (Forall_In _ _ Hall z Hz).
  - intros a b c Hab Hbc. lia.
Qed.

(** Stability: among the items with the same key, the inserted item comes
    last. *)
Lemma ins_by_filter (n : Z) (x : value) (acc : list value) :
  Sorted (fun a b => key a <= key b) acc ->
  filter (fun a => key a =? n) (ins_by key x acc)
  = filter (fun a => key a =? n) acc ++ (if key x =? n then [x] else []).
Proof.
  induction acc as [|y acc IH]; intros Hs; simpl.
  - destruct (key x =? n); reflexivity.
  - inversion Hs as [|? ? Hs' Hhd]; subst.
    destruct (key x <? key y) eqn:E.
    + apply Z.ltb_lt in E. cbn [filter].
      destruct (Z.eqb_spec (key x) n) as [Hx|Hx].
      * assert (Hnone : filter (fun a => key a =? n) (y :: acc) = []).
        { assert (Hall : forall a, In a (y :: acc) -> (key a =? n) = false).
          { intros a [<-|Ha]; apply Z.eqb_neq.
            - lia.
            - pose proof (sorted_tail_above y acc Hs a Ha). lia. }
          clear - Hall. induction (y :: acc) as [|a l IHl]; [reflexivity|].
          simpl. rewrite (Hall a (or_introl eq_refl)). apply IHl.
          intros b Hb. apply Hall. right. exact Hb. }
        cbn [filter] in Hnone. rewrite Hnone. reflexivity.
      * rewrite app_nil_r. reflexivity.
    + cbn [filter]. rewrite (IH Hs').
      destruct (key y =? n); reflexivity.
Qed.

Lemma isort_by_sorted_acc (l acc : list value) :
  Sorted (fun a b => key a <= key b) acc ->
  Sorted (fun a b => key a <= key b) (fold_left (fun a x => ins_by key x a) l acc).
Proof.
  revert acc. induction l as [|x l IH]; intros acc Hs; [exact Hs|].
  simpl. apply IH. apply ins_by_sorted. exact Hs.
Qed.

Lemma isort_by_filter_acc (n : Z) (l acc : list value) :
  Sorted (fun a b => key a <= key b) acc ->
  filter (fun a => key a =? n) (fold_left (fun a x => ins_by key x a) l acc)
  = filter (fun a => key a =? n) acc ++ filter (fun a => key a =? n) l.
Proof.
  revert acc. induction l as [|x l IH]; intros acc Hs; simpl.
  - rewrite app_nil_r. reflexivity.
  - rewrite (IH _ (ins_by_sorted x acc Hs)), (ins_by_filter n x acc Hs).
    rewrite <- app_assoc. destruct (key x =? n); reflexivity.
Qed.

End StableSort.

Lemma insert_by_key_int (x : value) (acc : list value) :
  insert_by_key (VInt (order_of x)) x
                (map (fun d => (VInt (order_of d), d)) acc)
  = Ok (map (fun d => (VInt (order_of d), d)) (ins_by order_of x acc)).
Proof.
  induction acc as [|y acc IH]; [reflexivity|].
  cbn [map insert_by_key ins_by]. rewrite py_lt_int. cbn [bind].
  destruct (order_of x <? order_of y); [reflexivity|].
  rewrite IH. reflexivity.
Qed.

Lemma combine_map_self {A B : Type} (f : A -> B) (l : list A) :
  combine (map f l) l = map (fun x => (f x, x)) l.
Proof. induction l as [|x l IH]; simpl; [reflexivity|rewrite IH; reflexivity]. Qed.

(** On starters with an integer [order], [sorted] is the stable insertion
    sort. *)
Lemma sorted_by_order (items : list value) :
  Forall (fun d => exists n, getitem d "order" = Ok (VInt n)) items ->
  sorted (fun d => getitem d "order") items = Ok (isort_by order_of items).
Proof.
  intros Hwf. unfold sorted.
  rewrite (mapM_ok _ (fun d => VInt (order_of d))).
  - cbn [bind]. rewrite combine_map_self.
    assert (G : forall acc,
               foldM (fun a kx => insert_by_key (fst kx) (snd kx) a)
                     (map (fun d => (VInt (order_of d), d)) items)
                     (map (fun d => (VInt (order_of d), d)) acc)
               = Ok (map (fun d => (VInt (order_of d), d))
                         (fold_left (fun a x => ins_by order_of x a) items acc))).
    { clear Hwf. induction items as [|x items IH]; intros acc; [reflexivity|].
      cbn [map foldM fold_left fst snd]. rewrite insert_by_key_int.
      cbn [bind]. apply IH. }
    pose proof (G []) as G0. cbn [map] in G0. rewrite G0.
    cbn [bind]. rewrite map_map. cbn [snd].
    rewrite map_id. reflexivity.
  - intros d Hd. destruct (Forall_In _ _ Hwf d Hd) as [n Hn].
    unfold order_of, int_field. rewrite Hn. reflexivity.
Qed.

(** X12. [getStartList] returns the starters of the payload sorted by
    [order]: the result is a rearrangement of the starters, in
    non-decreasing order, and starters with the same order keep the place
    they have relative to each other in the payload. *)
Theorem getStartList_sorted (World : Type)
  (get_json : string -> World -> result value * World)
  (eventId startListId : Z) (w w' : World) (r : value) (items : list value) :
  get_json (start_list_url eventId startListId) w = (Ok r, w') ->
  getitem r "startListItems" = Ok (VList items) ->
  Forall (fun d => exists n, getitem d "order" = Ok (VInt n)) items ->
  exists out,
    getStartList get_json eventId startListId w = (Ok out, w') /\
    Permutation items out /\
    Sorted order_le out /\
    (forall n, filter (fun d => order_of d =? n) out
               = filter (fun d => order_of d =? n) items).
Proof.
  intros Hget Hitems Hwf. exists (isort_by order_of items).
  split; [|split; [|split]].
  - unfold getStartList, bind_io. fold (start_list_url eventId startListId).
    rewrite Hget. unfold lift. rewrite Hitems. cbn [bind py_iter].
    rewrite (sorted_by_order _ Hwf). reflexivity.
  - apply (isort_by_perm_acc order_of items []).
  - apply (isort_by_sorted_acc order_of items []). constructor.
  - intros n. apply (isort_by_filter_acc order_of n items []). constructor.
Qed.

Lemma getStartList_sorted_witness :
  exists out,
    getStartList start_service 7 3 0%nat = (Ok out, 1%nat) /\
    Permutation [starter 2 "b"; starter 1 "a"; starter 2 "c"; starter 1 "d"] out /\
    Sorted order_le out /\
    (forall n, filter (fun d => order_of d =? n) out
               = filter (fun d => order_of d =? n)
                        [starter 2 "b"; starter 1 "a"; starter 2 "c"; starter 1 "d"]).
Proof.
  apply (getStartList_sorted nat start_service 7 3 0%nat 1%nat
           (record [("startListItems",
                     VList [starter 2 "b"; starter 1 "a"; starter 2 "c";
                            starter 1 "d"])])).
  - reflexivity.
  - reflexivity.
  - repeat constructor; eexists; reflexivity.
Defined.

Example getStartList_example :
  getStartList start_service 7 3 0%nat
  = (Ok [starter 1 "a"; starter 1 "d"; starter 2 "b"; starter 2 "c"], 1%nat).
Proof. reflexivity. Qed.

(** A starter without [order] raises [KeyError], and orders of types that
    [<] does not relate raise [TypeError]. *)
Example sorted_edge :
  sorted (fun d => getitem d "order") [record [("name", VStr "a")]] = Err KeyError /\
  sorted (fun d => getitem d "order")
         [record [("order", VInt 1)]; record [("order", VNone)]] = Err TypeError /\
  sorted (fun d => getitem d "order") [record [("order", VNone)]]
  = Ok [record [("order", VNone)]].
Proof. repeat split; reflexivity. Qed.

(** ** The split times of several stages: [getMultiSplitTimes] *)

Lemma append_all {A : Type} (l acc : list A) :
  foldM (fun final x => Ok (final ++ [x])) l acc = Ok (acc ++ l).
Proof.
  revert acc. induction l as [|x l IH]; intros acc; simpl.
  - rewrite app_nil_r. reflexivity.
  - rewrite IH, <- app_assoc. reflexivity.
Qed.

Section MultiSplits.

Variable World : Type.
Variable get_json : string -> World -> result value * World.

(** The loop fetches and reshapes stage after stage; it is the
    comprehension over the stages followed by the concatenation. *)
Lemma getMultiSplitTimes_loop (eventId : Z) (stageList : list Z)
  (acc : list value) (w : World) :
  fold_io (fun final stage =>
             bind_io (getSplits get_json eventId stage) (fun splits =>
             bind_io (lift (getDriverSplits splits)) (fun splits =>
             lift (foldM (fun final split => Ok (final ++ [split]))
                         splits final))))
          stageList acc w
  = match map_io (stage_splits get_json eventId) stageList w with
    | (Ok rs, w') => (Ok (acc ++ List.concat rs), w')
    | (Err e, w') => (Err e, w')
    end.
Proof.
  revert acc w. induction stageList as [|s l IH]; intros acc w.
  - cbn [fold_io map_io ret List.concat]. rewrite app_nil_r. reflexivity.
  - cbn [fold_io map_io]. unfold stage_splits in *.
    unfold bind_io, lift, ret in *.
    destruct (getSplits get_json eventId s w) as [[p|e] w1]; [|reflexivity].
    destruct (getDriverSplits p) as [rows|e]; [|reflexivity].
    rewrite append_all, IH.
    match goal with
    | |- context [map_io ?f l w1] =>
        destruct (map_io f l w1) as [[rs|e] w2]; [|reflexivity]
    end.
    cbn [List.concat]. rewrite app_assoc. reflexivity.
Qed.

End MultiSplits.

(** X13. [getMultiSplitTimes] returns the reshaped splits of the stages,
    stage after stage.  Each payload is reshaped before the next request:
    a payload that cannot be reshaped, or a request that raises, stops the
    loop there, and no later stage is requested. *)
Theorem getMultiSplitTimes_stage_by_stage (World : Type)
  (get_json : string -> World -> result value * World)
  (eventId : Z) (stageList : list Z) (w : World) :
  (forall rs w',
      map_io (stage_splits get_json eventId) stageList w = (Ok rs, w') ->
      getMultiSplitTimes get_json eventId stageList w
      = (Ok (List.concat rs), w')) /\
  (forall pre s post rs w1 p w2 e,
      stageList = pre ++ s :: post ->
      map_io (stage_splits get_json eventId) pre w = (Ok rs, w1) ->
      get_json (splits_url eventId s) w1 = (Ok p, w2) ->
      getDriverSplits p = Err e ->
      getMultiSplitTimes get_json eventId stageList w = (Err e, w2)) /\
  (forall pre s post rs w1 w2 e,
      stageList = pre ++ s :: post ->
      map_io (stage_splits get_json eventId) pre w = (Ok rs, w1) ->
      get_json (splits_url eventId s) w1 = (Err e, w2) ->
      getMultiSplitTimes get_json eventId stageList w = (Err e, w2)).
Proof.
  split; [|split].
  - intros rs w' Hm. unfold getMultiSplitTimes.
    rewrite getMultiSplitTimes_loop, Hm. reflexivity.
  - intros pre s post rs w1 p w2 e -> Hpre Hget Hbad.
    unfold getMultiSplitTimes. rewrite getMultiSplitTimes_loop.
    rewrite (map_io_abort World _ pre s post rs w w1 w2 e Hpre); [reflexivity|].
    unfold stage_splits, bind_io, getSplits. fold (splits_url eventId s).
    rewrite Hget. unfold lift. rewrite Hbad. reflexivity.
  - intros pre s post rs w1 w2 e -> Hpre Hget.
    unfold getMultiSplitTimes. rewrite getMultiSplitTimes_loop.
    rewrite (map_io_abort World _ pre s post rs w w1 w2 e Hpre); [reflexivity|].
    unfold stage_splits, bind_io, getSplits. fold (splits_url eventId s).
    rewrite Hget. reflexivity.
Qed.

Lemma getMultiSplitTimes_stage_by_stage_witness :
  getMultiSplitTimes splits_service 7 [10; 10] 0%nat
  = (Ok [ record [("splitPointId", VInt 51); ("elapsedDurationS", VFloat (dyadic 61 (-1)))];
          record [("splitPointId", VInt 52); ("elapsedDurationS", VFloat (dyadic 61 0))];
          record [("splitPointId", VInt 51); ("elapsedDurationS", VFloat (dyadic 31 0))];
          record [("splitPointId", VInt 51); ("elapsedDurationS", VFloat (dyadic 61 (-1)))];
          record [("splitPointId", VInt 52); ("elapsedDurationS", VFloat (dyadic 61 0))];
          record [("splitPointId", VInt 51); ("elapsedDurationS", VFloat (dyadic 31 0))] ],
     2%nat) /\
  getMultiSplitTimes splits_service 7 [10; 11; 10; 10] 0%nat
  = (Err TypeError, 2%nat) /\
  getMultiSplitTimes splits_service 7 [10; 99; 10] 0%nat
  = (Err RequestError, 2%nat).
Proof.
  split; [|split].
  - apply (proj1 (getMultiSplitTimes_stage_by_stage nat splits_service 7
                    [10; 10] 0%nat)
             [ [ record [("splitPointId", VInt 51); ("elapsedDurationS", VFloat (dyadic 61 (-1)))];
                 record [("splitPointId", VInt 52); ("elapsedDurationS", VFloat (dyadic 61 0))];
                 record [("splitPointId", VInt 51); ("elapsedDurationS", VFloat (dyadic 31 0))] ];
               [ record [("splitPointId", VInt 51); ("elapsedDurationS", VFloat (dyadic 61 (-1)))];
                 record [("splitPointId", VInt 52); ("elapsedDurationS", VFloat (dyadic 61 0))];
                 record [("splitPointId", VInt 51); ("elapsedDurationS", VFloat (dyadic 31 0))] ] ]
             2%nat).
    reflexivity.
  - apply (proj1 (proj2 (getMultiSplitTimes_stage_by_stage nat splits_service 7
                           [10; 11; 10; 10] 0%nat))
             [10] 11 [10; 10]
             [ [ record [("splitPointId", VInt 51); ("elapsedDurationS", VFloat (dyadic 61 (-1)))];
                 record [("splitPointId", VInt 52); ("elapsedDurationS", VFloat (dyadic 61 0))];
                 record [("splitPointId", VInt 51); ("elapsedDurationS", VFloat (dyadic 31 0))] ] ]
             1%nat splits_payload_null 2%nat TypeError); reflexivity.
  - apply (proj2 (proj2 (getMultiSplitTimes_stage_by_stage nat splits_service 7
                           [10; 99; 10] 0%nat))
             [10] 99 [10]
             [ [ record [("splitPointId", VInt 51); ("elapsedDurationS", VFloat (dyadic 61 (-1)))];
                 record [("splitPointId", VInt 52); ("elapsedDurationS", VFloat (dyadic 61 0))];
                 record [("splitPointId", VInt 51); ("elapsedDurationS", VFloat (dyadic 31 0))] ] ]
             1%nat 2%nat RequestError); reflexivity.
Defined.

(** ** The start list of a section, as the code finds it *)

(** X14. On a well-formed itinerary [getStartListId] never raises.  It
    returns [None] when no section carries the identifier, and also when
    the leg identifier of the last section that carries it tests false;
    otherwise it returns the [startListId] of the first leg whose
    identifier equals that leg identifier, or [None] when no leg has
    it. *)
Theorem getStartListId_behaviour (itinerary : list value) (sid : Z) :
  Forall leg_wf itinerary ->
  (exists v, getStartListId itinerary sid = Ok v) /\
  ((forall s, In s (sections_of itinerary) ->
              field_is "itinerarySectionId" (VInt sid) s = false) ->
   getStartListId itinerary sid = Ok VNone) /\
  (forall pre s post,
      sections_of itinerary = pre ++ s :: post ->
      field_is "itinerarySectionId" (VInt sid) s = true ->
      (forall x, In x post ->
                 field_is "itinerarySectionId" (VInt sid) x = false) ->
      getStartListId itinerary sid
      = Ok (if truthy (field "itineraryLegId" s)
            then or_none
                   (option_map (field "startListId")
                      (find (field_is "itineraryLegId" (field "itineraryLegId" s))
                            itinerary))
            else VNone)).
Proof.
  intros Hwf. split; [|split].
  - rewrite (getStartListId_spec _ _ Hwf). eexists. reflexivity.
  - intros Hno. apply getStartListId_absent; assumption.
  - intros pre s post Hsec Hs Hpost.
    rewrite (getStartListId_spec _ _ Hwf).
    unfold found_leg_id. rewrite Hsec, fold_left_app. cbn [fold_left].
    rewrite Hs, (found_leg_id_skip _ _ _ Hpost). reflexivity.
Qed.

Lemma leg_with_wf (n : Z) : leg_wf (leg_with n).
Proof.
  split; [eexists; reflexivity|].
  split; [eexists; reflexivity|].
  split; [eexists; reflexivity|].
  repeat constructor; eexists; reflexivity.
Qed.

Lemma getStartListId_behaviour_witness :
  getStartListId [leg_with 1; leg_with 2] 9 = Ok VNone /\
  getStartListId [leg_with 1; leg_with 2] 7 = Ok (VInt 5).
Proof.
  assert (Hwf : Forall leg_wf [leg_with 1; leg_with 2])
    by (repeat constructor; apply leg_with_wf).
  split.
  - apply (proj1 (proj2 (getStartListId_behaviour _ 9 Hwf))).
    intros s [<-|[<-|[]]]; reflexivity.
  - apply (proj2 (proj2 (getStartListId_behaviour _ 7 Hwf))
             [record [("itinerarySectionId", VInt 7); ("itineraryLegId", VInt 1)]]
             (record [("itinerarySectionId", VInt 7); ("itineraryLegId", VInt 2)])
             []).
    + reflexivity.
    + reflexivity.
    + intros x [].
Defined.

(** ** The payload after [getDriverSplits] *)

Lemma split_op_steps {B : Type} (x y : value) (k : value -> result B) :
  split_op x = Ok y ->
  (ms <- getitem x "elapsedDurationMs" ;;
   secs <- div1000 ms ;;
   s1 <- setitem x "elapsedDurationS" secs ;;
   s2 <- pop s1 "elapsedDurationMs" ;;
   k s2) = k y.
Proof.
  unfold split_op.
  destruct (getitem x "elapsedDurationMs") as [ms|]; [|discriminate].
  cbn [bind]. destruct (div1000 ms) as [secs|]; [|discriminate].
  cbn [bind]. destruct (setitem x "elapsedDurationS" secs) as [s1|];
    [|discriminate].
  cbn [bind]. intros ->. reflexivity.
Qed.

Lemma converted_ok (x : value) :
  split_wf x -> split_op x = Ok (converted x).
Proof.
  intros Hx. destruct (split_op_ok x Hx) as [y [Hy _]].
  unfold converted. rewrite Hy. reflexivity.
Qed.

Lemma inplace_inner (l out acc : list value) :
  Forall split_wf l ->
  foldM (fun st split =>
           ms <- getitem split "elapsedDurationMs" ;;
           secs <- div1000 ms ;;
           split <- setitem split "elapsedDurationS" secs ;;
           split <- pop split "elapsedDurationMs" ;;
           Ok (fst st ++ [split], snd st ++ [split])) l (out, acc)
  = Ok (out ++ map converted l, acc ++ map converted l).
Proof.
  intros Hwf. revert out acc.
  induction l as [|x l IH]; intros out acc.
  - cbn [foldM map]. rewrite !app_nil_r. reflexivity.
  - inversion Hwf as [|? ? Hx Hl]; subst.
    cbn [foldM map].
    rewrite (split_op_steps x (converted x)
               (fun s2 => Ok (fst (out, acc) ++ [s2], snd (out, acc) ++ [s2]))
               (converted_ok x Hx)).
    cbn [bind fst snd]. rewrite (IH Hl). rewrite <- !app_assoc. reflexivity.
Qed.

Lemma inplace_outer (entries out acc : list value) :
  Forall entry_splits_wf entries ->
  foldM (fun st entry =>
           points <- getitem entry "splitPointTimes" ;;
           items <- py_iter points ;;
           r <- foldM (fun st split =>
                  ms <- getitem split "elapsedDurationMs" ;;
                  secs <- div1000 ms ;;
                  split <- setitem split "elapsedDurationS" secs ;;
                  split <- pop split "elapsedDurationMs" ;;
                  Ok (fst st ++ [split], snd st ++ [split]))
                items (fst st, []) ;;
           entry' <- match points with
                     | VList _ => setitem entry "splitPointTimes" (VList (snd r))
                     | _ => Ok entry
                     end ;;
           Ok (fst r, snd st ++ [entry'])) entries (out, acc)
  = Ok (out ++ flat_map (fun e => map converted (items "splitPointTimes" e))
                        entries,
        acc ++ map entry_after entries).
Proof.
  intros Hwf. revert out acc.
  induction entries as [|entry entries IH]; intros out acc.
  - cbn [foldM map flat_map]. rewrite !app_nil_r. reflexivity.
  - inversion Hwf as [|? ? He Hrest]; subst.
    destruct He as [[l Hl] Hss].
    destruct (getitem_str_ok _ _ _ Hl) as [d ->].
    cbn [foldM map flat_map]. rewrite Hl. cbn [bind py_iter fst snd].
    unfold items in Hss. rewrite Hl in Hss.
    rewrite (inplace_inner l out [] Hss).
    cbn [bind fst snd app setitem hashable].
    rewrite (IH Hrest). rewrite <- !app_assoc. cbn [app].
    unfold entry_after, items. rewrite Hl. reflexivity.
Qed.

Lemma map_flat_map {A B C : Type} (f : B -> C) (g : A -> list B) (l : list A) :
  map f (flat_map g l) = flat_map (fun x => map f (g x)) l.
Proof.
  induction l as [|x l IH]; simpl; [reflexivity|].
  rewrite map_app, IH. reflexivity.
Qed.

Lemma Forall_flat_map {A B : Type} (P : B -> Prop) (g : A -> list B) (l : list A) :
  Forall P (flat_map g l) -> Forall (fun x => Forall P (g x)) l.
Proof.
  induction l as [|x l IH]; intros H; [constructor|].
  cbn [flat_map] in H. apply Forall_app in H. destruct H as [H1 H2].
  constructor; [exact H1|apply IH; exact H2].
Qed.

Lemma entries_splits_wf (splits : value) :
  splits_shape splits ->
  Forall split_wf (all_splits splits) ->
  Forall entry_splits_wf (items "entrySplitPointTimes" splits).
Proof.
  intros [_ Hshape] Hwf. apply Forall_flat_map in Hwf.
  apply Forall_forall. intros entry He. split.
  - exact (Forall_In _ _ Hshape entry He).
  - exact (Forall_In _ _ Hwf entry He).
Qed.

Lemma getDriverSplits_inplace_ok (splits : value) :
  splits_shape splits ->
  Forall split_wf (all_splits splits) ->
  getDriverSplits_inplace splits
  = Ok (map converted (all_splits splits), payload_after splits).
Proof.
  intros Hshape Hwf.
  pose proof (entries_splits_wf _ Hshape Hwf) as Hentries.
  destruct Hshape as [[entries He] _].
  destruct (getitem_str_ok _ _ _ He) as [d ->].
  assert (Hi : items "entrySplitPointTimes" (VDict d) = entries)
    by (unfold items; rewrite He; reflexivity).
  rewrite Hi in Hentries.
  unfold getDriverSplits_inplace. rewrite He. cbn [bind py_iter].
  rewrite (inplace_outer entries [] [] Hentries).
  cbn [bind app fst snd setitem hashable].
  unfold all_splits, payload_after. rewrite Hi, map_flat_map. reflexivity.
Qed.

Lemma payload_after_items (splits : value) :
  has_items "entrySplitPointTimes" splits ->
  items "entrySplitPointTimes" (payload_after splits)
  = map entry_after (items "entrySplitPointTimes" splits).
Proof.
  intros [entries He]. destruct (getitem_str_ok _ _ _ He) as [d ->].
  unfold payload_after. unfold items at 1. cbn [getitem hashable].
  rewrite dict_get_set_str, String.eqb_refl. reflexivity.
Qed.

Lemma entry_after_items (entry : value) :
  has_items "splitPointTimes" entry ->
  items "splitPointTimes" (entry_after entry)
  = map converted (items "splitPointTimes" entry).
Proof.
  intros [l Hl]. destruct (getitem_str_ok _ _ _ Hl) as [d ->].
  unfold entry_after. unfold items at 1. cbn [getitem hashable].
  rewrite dict_get_set_str, String.eqb_refl. reflexivity.
Qed.

Lemma entry_after_has_items (entry : value) :
  has_items "splitPointTimes" entry ->
  has_items "splitPointTimes" (entry_after entry).
Proof.
  intros [l Hl]. destruct (getitem_str_ok _ _ _ Hl) as [d ->].
  eexists. unfold entry_after. cbn [getitem hashable].
  rewrite dict_get_set_str, String.eqb_refl. reflexivity.
Qed.

Lemma payload_after_shape (splits : value) :
  splits_shape splits -> splits_shape (payload_after splits).
Proof.
  intros [Hitems Hshape]. split.
  - destruct Hitems as [entries He].
    destruct (getitem_str_ok _ _ _ He) as [d ->].
    eexists. unfold payload_after. cbn [getitem hashable].
    rewrite dict_get_set_str, String.eqb_refl. reflexivity.
  - rewrite (payload_after_items _ Hitems).
    apply Forall_forall. intros e' He'. apply in_map_iff in He'.
    destruct He' as [e [<- He]].
    apply entry_after_has_items. exact (Forall_In _ _ Hshape e He).
Qed.

(** The records that the call returns are the records of the payload it
    leaves. *)
Lemma payload_after_splits (splits : value) :
  splits_shape splits ->
  all_splits (payload_after splits) = map converted (all_splits splits).
Proof.
  intros [Hitems Hshape]. unfold all_splits.
  rewrite (payload_after_items _ Hitems), map_flat_map.
  induction (items "entrySplitPointTimes" splits) as [|e l IH]; [reflexivity|].
  inversion Hshape as [|? ? He Hl]; subst.
  cbn [map flat_map]. rewrite (entry_after_items _ He), (IH Hl). reflexivity.
Qed.

Lemma wide_loop_missing (entries : list value) (y : value) (rest acc : list value) :
  Forall (fun e => is_dict e /\ has_items "splitPointTimes" e) entries ->
  flat_map (items "splitPointTimes") entries = y :: rest ->
  getitem y "elapsedDurationMs" = Err KeyError ->
  foldM (fun out entry =>
    i <- getitem entry "entryId" ;;
    points <- getitem entry "splitPointTimes" ;;
    ss <- py_iter points ;;
    newEntry <-
      foldM (fun newEntry split =>
        ms <- getitem split "elapsedDurationMs" ;;
        secs <- div1000 ms ;;
        k <- getitem split "splitPointId" ;;
        setitem newEntry k secs) ss (VDict (dict_set [] "entryId" i)) ;;
    Ok (out ++ [newEntry])) entries acc
  = Err KeyError.
Proof.
  intros Hwf Hflat Hy. revert acc.
  induction entries as [|entry entries IH]; intros acc; [discriminate|].
  inversion Hwf as [|? ? [[d ->] [l Hl]] Hrest]; subst.
  cbn [foldM].
  destruct (getitem (VDict d) "entryId") as [i|e] eqn:Hi.
  - cbn [bind]. rewrite Hl. cbn [bind py_iter].
    cbn [flat_map] in Hflat. unfold items at 1 in Hflat. rewrite Hl in Hflat.
    destruct l as [|x l].
    + cbn [foldM bind]. apply IH; [exact Hrest|exact Hflat].
    + cbn [app] in Hflat. inversion Hflat; subst.
      cbn [foldM]. rewrite Hy. reflexivity.
  - cbn [bind]. rewrite (getitem_dict_err _ _ _ Hi). reflexivity.
Qed.

(** X15. [getDriverSplits] updates the split records of its argument in
    place: the records it returns are those the payload holds after the
    call, and they no longer carry [elapsedDurationMs].  On a payload
    with at least one split, a second [getDriverSplits], or a
    [getDriverSplitsWide], on the same payload therefore raises
    [KeyError]. *)
Theorem getDriverSplits_consumes_payload (splits : value) :
  splits_shape splits ->
  Forall split_wf (all_splits splits) ->
  all_splits splits <> [] ->
  exists out after,
    getDriverSplits_inplace splits = Ok (out, after) /\
    getDriverSplits splits = Ok out /\
    all_splits after = out /\
    getDriverSplits after = Err KeyError /\
    getDriverSplitsWide after = Err KeyError.
Proof.
  intros Hshape Hwf Hne.
  exists (map converted (all_splits splits)), (payload_after splits).
  pose proof (payload_after_shape _ Hshape) as Hshape'.
  pose proof (payload_after_splits _ Hshape) as Hafter.
  assert (Hfirst : exists x rest,
             all_splits splits = x :: rest /\
             getitem (converted x) "elapsedDurationMs" = Err KeyError).
  { destruct (all_splits splits) as [|x rest] eqn:E; [congruence|].
    exists x, rest. split; [reflexivity|].
    inversion Hwf as [|? ? Hx _]; subst.
    destruct (split_op_ok x Hx) as [y [Hy [Hmiss _]]].
    unfold converted. rewrite Hy. exact Hmiss. }
  destruct Hfirst as [x [rest [Hx Hmiss]]].
  split; [|split; [|split; [|split]]].
  - apply getDriverSplits_inplace_ok; assumption.
  - rewrite (getDriverSplits_mapM _ Hshape). apply mapM_ok.
    intros a Ha. apply converted_ok. exact (Forall_In _ _ Hwf a Ha).
  - exact Hafter.
  - rewrite (getDriverSplits_mapM _ Hshape'), Hafter, Hx.
    cbn [map mapM]. unfold split_op at 1. rewrite Hmiss. reflexivity.
  - unfold getDriverSplitsWide.
    destruct Hshape' as [[entries' He'] Hitems'].
    rewrite He'. cbn [bind py_iter].
    apply (wide_loop_missing entries' (converted x) (map converted rest)).
    + unfold items at 1 in Hitems'. rewrite He' in Hitems'.
      apply Forall_forall. intros e He.
      pose proof (Forall_In _ _ Hitems' e He) as [l Hl].
      split; [exact (getitem_str_ok _ _ _ Hl)|exists l; exact Hl].
    + unfold all_splits in Hafter. unfold items at 2 in Hafter.
      rewrite He' in Hafter. rewrite Hafter. fold (all_splits splits).
      rewrite Hx. reflexivity.
    + exact Hmiss.
Qed.

Lemma getDriverSplits_consumes_payload_witness :
  exists out after,
    getDriverSplits_inplace splits_payload = Ok (out, after) /\
    getDriverSplits splits_payload = Ok out /\
    all_splits after = out /\
    getDriverSplits after = Err KeyError /\
    getDriverSplitsWide after = Err KeyError.
Proof.
  apply (getDriverSplits_consumes_payload splits_payload splits_payload_shape).
  - repeat apply Forall_cons; try apply Forall_nil; apply split_ex_wf;
      reflexivity.
  - discriminate.
Defined.

(** ** Eager and lazy lookups *)

Lemma filterM_abort {A : Type} (p : A -> result bool)
  (pre : list A) (x : A) (post : list A) (e : error) :
  (forall a, In a pre -> exists b, p a = Ok b) ->
  p x = Err e ->
  filterM p (pre ++ x :: post) = Err e.
Proof.
  intros Hpre Hx. induction pre as [|a pre IH]; cbn [app filterM].
  - rewrite Hx. reflexivity.
  - destruct (Hpre a (or_introl eq_refl)) as [b Hb]. rewrite Hb. cbn [bind].
    rewrite IH by (intros a' Ha'; apply Hpre; right; exact Ha').
    reflexivity.
Qed.

Lemma compM_abort {A B : Type} (p : A -> result bool) (f : A -> result B)
  (pre : list A) (x : A) (post : list A) (e : error) :
  (forall a, In a pre -> (exists b, p a = Ok b) /\ (exists y, f a = Ok y)) ->
  p x = Err e ->
  compM p f (pre ++ x :: post) = Err e.
Proof.
  intros Hpre Hx. induction pre as [|a pre IH]; cbn [app compM].
  - rewrite Hx. reflexivity.
  - destruct (Hpre a (or_introl eq_refl)) as [[b Hb] [y Hy]].
    rewrite Hb. cbn [bind].
    assert (IH' : compM p f (pre ++ x :: post) = Err e)
      by (apply IH; intros a' Ha'; apply Hpre; right; exact Ha').
    destruct b; [rewrite Hy; cbn [bind]|]; rewrite IH'; reflexivity.
Qed.

(** X16. The list-building lookups read every record before they answer:
    when the records before [bad] are readable and [bad] lacks the searched
    field, [getEventIdFromName] and [getStageId] raise the error of [bad],
    even when an earlier record matches the query.  [getEntryById] stops at
    its first match: the records behind it are never read. *)
Theorem lookups_eager_or_lazy
  (pre : list value) (bad : value) (post : list value) (q : string) :
  (forall e : error,
     (forall x, In x pre -> has_name "name" x) ->
     getitem bad "name" = Err e ->
     getEventIdFromName (pre ++ bad :: post) q = Err e) /\
  (forall e : error,
     (forall x, In x pre -> has_name "name" x /\ has_field "stageId" x) ->
     getitem bad "name" = Err e ->
     getStageId (pre ++ bad :: post) q "name" = Err e) /\
  (forall e : error,
     (forall x, In x pre -> has_field "code" x /\ has_field "stageId" x) ->
     getitem bad "code" = Err e ->
     getStageId (pre ++ bad :: post) q "code" = Err e) /\
  (forall (hit : value) (entryId : Z),
     field_is "entryId" (VInt entryId) hit = true ->
     getEntryById (hit :: pre ++ bad :: post) entryId = Ok hit).
Proof.
  split; [|split; [|split]].
  - intros e Hpre Hbad. unfold getEventIdFromName.
    rewrite (filterM_abort _ pre bad post e); [reflexivity| |].
    + intros a Ha. destruct (Hpre a Ha) as [n Hn]. rewrite Hn.
      cbn [bind lower]. eexists. reflexivity.
    + rewrite Hbad. reflexivity.
  - intros e Hpre Hbad. unfold getStageId.
    change (String.eqb "name" "code") with false. cbv iota.
    rewrite (compM_abort _ _ pre bad post e); [reflexivity| |].
    + intros a Ha. destruct (Hpre a Ha) as [[n Hn] Hs]. split.
      * rewrite Hn. cbn [bind lower]. eexists. reflexivity.
      * exact Hs.
    + rewrite Hbad. reflexivity.
  - intros e Hpre Hbad. unfold getStageId.
    change (String.eqb "code" "code") with true. cbv iota.
    rewrite (compM_abort _ _ pre bad post e); [reflexivity| |].
    + intros a Ha. destruct (Hpre a Ha) as [[v Hv] Hs]. split.
      * rewrite Hv. cbn [bind]. eexists. reflexivity.
      * exact Hs.
    + rewrite Hbad. reflexivity.
  - intros hit entryId Hhit.
    apply (getEntryById_present _ entryId [] hit (pre ++ bad :: post)).
    + reflexivity.
    + intros x [].
    + exact Hhit.
Qed.

Lemma lookups_eager_or_lazy_witness :
  getEventIdFromName [event_a; event_broken; event_b] "monte" = Err KeyError /\
  getStageId [stage_a; stage_broken] "braus" "name" = Err KeyError /\
  getStageId [stage_a; stage_broken] "SS1" "code" = Err KeyError /\
  getEntryById [entry_a; entry_b; entry_broken] 1 = Ok entry_a.
Proof.
  split; [|split; [|split]].
  - refine (proj1 (lookups_eager_or_lazy [event_a] event_broken [event_b]
                     "monte") KeyError _ _).
    + intros x [<-|[]]. eexists. reflexivity.
    + reflexivity.
  - refine (proj1 (proj2 (lookups_eager_or_lazy [stage_a] stage_broken []
                            "braus")) KeyError _ _).
    + intros x [<-|[]]. split; eexists; reflexivity.
    + reflexivity.
  - refine (proj1 (proj2 (proj2 (lookups_eager_or_lazy [stage_a] stage_broken []
                                   "SS1"))) KeyError _ _).
    + intros x [<-|[]]. split; eexists; reflexivity.
    + reflexivity.
  - refine (proj2 (proj2 (proj2 (lookups_eager_or_lazy [entry_b] entry_broken []
                                   "x"))) entry_a 1 _).
    reflexivity.
Defined.

(** ** The addresses of the requests *)

Lemma append_inv_head (p a b : string) :
  (p ++ a)%string = (p ++ b)%string -> a = b.
Proof.
  induction p as [|c p IH]; cbn [String.append]; intros H.
  - exact H.
  - injection H as H. exact (IH H).
Qed.

Lemma uint_no_slash (d : Decimal.uint) :
  has_slash (NilEmpty.string_of_uint d) = false.
Proof.
  induction d; cbn [NilEmpty.string_of_uint has_slash]; try reflexivity;
    exact IHd.
Qed.

Lemma str_of_int_no_slash (n : Z) : has_slash (str_of_int n) = false.
Proof.
  unfold str_of_int.
  destruct (Z.to_int n) as [d|d]; cbn [NilZero.string_of_int].
  - destruct d; try reflexivity; apply (uint_no_slash).
  - cbn [has_slash]. destruct d; try reflexivity; apply (uint_no_slash).
Qed.

Lemma str_of_int_inj (a b : Z) : str_of_int a = str_of_int b -> a = b.
Proof.
  unfold str_of_int. intros H.
  assert (Hn : forall z, Z.to_int z <> Decimal.Pos Decimal.Nil /\
                         Z.to_int z <> Decimal.Neg Decimal.Nil).
  { intros [|p|p]; cbn [Z.to_int]; split; try discriminate;
      intros E; injection E as E;
      exact (DecimalPos.Unsigned.to_uint_nonnil p E). }
  pose proof (NilZero.isi (Z.to_int a) (proj1 (Hn a)) (proj2 (Hn a))) as Ha.
  pose proof (NilZero.isi (Z.to_int b) (proj1 (Hn b)) (proj2 (Hn b))) as Hb.
  rewrite H in Ha. rewrite Ha in Hb. injection Hb as Hb.
  exact (DecimalZ.to_int_inj a b Hb).
Qed.

(** Two strings without a slash, each followed by a slash: the first slash
    of the whole marks where they end. *)
Lemma slash_splits (a b x y : string) :
  has_slash a = false -> has_slash b = false ->
  (a ++ String "/" x)%string = (b ++ String "/" y)%string ->
  a = b /\ x = y.
Proof.
  revert b. induction a as [|c a IH]; intros [|c' b] Ha Hb H;
    cbn [String.append has_slash] in *.
  - injection H as H. split; [reflexivity | exact H].
  - injection H as Hc H. subst c'. discriminate Hb.
  - injection H as Hc H. subst c. discriminate Ha.
  - injection H as Hc H. subst c'.
    apply Bool.orb_false_iff in Ha. apply Bool.orb_false_iff in Hb.
    destruct (IH b (proj2 Ha) (proj2 Hb) H) as [-> ->].
    split; reflexivity.
Qed.

(** An address [results_api/rally-event/<event><tail>], where the tail
    begins with a slash, determines the event and the tail. *)
Lemma event_url_inj (e1 e2 : Z) (t1 t2 : string) :
  (results_api ++ "/rally-event/" ++ str_of_int e1 ++ String "/" t1)%string
  = (results_api ++ "/rally-event/" ++ str_of_int e2 ++ String "/" t2)%string ->
  e1 = e2 /\ t1 = t2.
Proof.
  intros H.
  apply append_inv_head in H. apply append_inv_head in H.
  destruct (slash_splits _ _ _ _ (str_of_int_no_slash e1)
              (str_of_int_no_slash e2) H) as [He Ht].
  split; [exact (str_of_int_inj _ _ He) | exact Ht].
Qed.

Lemma requested_eqs (eventId stageId : Z) :
  requested (getStageTimes recorder eventId stageId)
    = [stage_times_url eventId stageId] /\
  requested (getOverallResult recorder eventId stageId)
    = [overall_url eventId stageId] /\
  requested (getSplits recorder eventId stageId)
    = [splits_url eventId stageId] /\
  requested (getStartList recorder eventId stageId)
    = [start_list_url eventId stageId] /\
  requested (getItinerary recorder eventId) = [itinerary_url eventId] /\
  requested (getRallyEntries recorder eventId) = [cars_url eventId].
Proof.
  repeat split.
Qed.

Lemma singleton_inj {A : Type} (a b : A) : [a] = [b] -> a = b.
Proof.
  intros H. injection H as H. exact H.
Qed.

Lemma stage_url_inj (mid : string) (e1 s1 e2 s2 : Z) :
  (results_api ++ "/rally-event/" ++ str_of_int e1
     ++ String "/" (mid ++ str_of_int s1))%string
  = (results_api ++ "/rally-event/" ++ str_of_int e2
       ++ String "/" (mid ++ str_of_int s2))%string ->
  e1 = e2 /\ s1 = s2.
Proof.
  intros H. apply event_url_inj in H. destruct H as [He Ht].
  apply append_inv_head in Ht.
  split; [exact He | exact (str_of_int_inj _ _ Ht)].
Qed.

Lemma endpoints_differ (e1 e2 : Z) (t1 t2 : string) :
  t1 <> t2 ->
  (results_api ++ "/rally-event/" ++ str_of_int e1 ++ String "/" t1)%string
  <> (results_api ++ "/rally-event/" ++ str_of_int e2 ++ String "/" t2)%string.
Proof.
  intros Ht H. apply event_url_inj in H. exact (Ht (proj2 H)).
Qed.

(** X17. The addresses a fetching function requests determine the function
    and its arguments: two calls of the same function that request the
    same addresses were given the same event and the same stage (or start
    list), and the stage times, the overall result and the split times,
    as well as the itinerary and the cars, are never requested at one
    another's address. *)
Theorem requests_determine_arguments (e1 s1 e2 s2 : Z) :
  (requested (getStageTimes recorder e1 s1)
     = requested (getStageTimes recorder e2 s2) -> e1 = e2 /\ s1 = s2) /\
  (requested (getOverallResult recorder e1 s1)
     = requested (getOverallResult recorder e2 s2) -> e1 = e2 /\ s1 = s2) /\
  (requested (getSplits recorder e1 s1)
     = requested (getSplits recorder e2 s2) -> e1 = e2 /\ s1 = s2) /\
  (requested (getStartList recorder e1 s1)
     = requested (getStartList recorder e2 s2) -> e1 = e2 /\ s1 = s2) /\
  (requested (getItinerary recorder e1)
     = requested (getItinerary recorder e2) -> e1 = e2) /\
  (requested (getRallyEntries recorder e1)
     = requested (getRallyEntries recorder e2) -> e1 = e2) /\
  requested (getStageTimes recorder e1 s1)
    <> requested (getOverallResult recorder e2 s2) /\
  requested (getStageTimes recorder e1 s1)
    <> requested (getSplits recorder e2 s2) /\
  requested (getOverallResult recorder e1 s1)
    <> requested (getSplits recorder e2 s2) /\
  requested (getItinerary recorder e1)
    <> requested (getRallyEntries recorder e2).
Proof.
  destruct (requested_eqs e1 s1) as (T1 & O1 & S1 & L1 & I1 & C1).
  destruct (requested_eqs e2 s2) as (T2 & O2 & S2 & L2 & I2 & C2).
  rewrite T1, T2, O1, O2, S1, S2, L1, L2, I1, I2, C1, C2.
  split; [|split; [|split; [|split; [|split; [|split;
    [|split; [|split; [|split]]]]]]]].
  - intros H. apply singleton_inj in H.
    exact (stage_url_inj "stage-times/stage-external/" _ _ _ _ H).
  - intros H. apply singleton_inj in H.
    exact (stage_url_inj "stage-result/stage-external/" _ _ _ _ H).
  - intros H. apply singleton_inj in H.
    exact (stage_url_inj "split-times/stage-external/" _ _ _ _ H).
  - intros H. apply singleton_inj in H.
    exact (stage_url_inj "start-list-external/" _ _ _ _ H).
  - intros H. apply singleton_inj in H.
    exact (proj1 (event_url_inj e1 e2 "itinerary" "itinerary" H)).
  - intros H. apply singleton_inj in H.
    exact (proj1 (event_url_inj e1 e2 "cars" "cars" H)).
  - intros H. apply singleton_inj in H. revert H.
    refine (endpoints_differ e1 e2
              ("stage-times/stage-external/" ++ str_of_int s1)
              ("stage-result/stage-external/" ++ str_of_int s2) _).
    cbn [String.append]. discriminate.
  - intros H. apply singleton_inj in H. revert H.
    refine (endpoints_differ e1 e2
              ("stage-times/stage-external/" ++ str_of_int s1)
              ("split-times/stage-external/" ++ str_of_int s2) _).
    cbn [String.append]. discriminate.
  - intros H. apply singleton_inj in H. revert H.
    refine (endpoints_differ e1 e2
              ("stage-result/stage-external/" ++ str_of_int s1)
              ("split-times/stage-external/" ++ str_of_int s2) _).
    cbn [String.append]. discriminate.
  - intros H. apply singleton_inj in H. revert H.
    refine (endpoints_differ e1 e2 "itinerary" "cars" _).
    discriminate.
Qed.

Lemma requests_determine_arguments_witness :
  requested (getStageTimes recorder 7 10)
    = ["https://api.wrc.com/results-api/rally-event/7/stage-times/stage-external/10"]
  /\ (7 = 7 /\ 10 = 10)
  /\ requested (getStageTimes recorder 7 10)
       <> requested (getOverallResult recorder 7 10).
Proof.
  split; [reflexivity|split].
  - exact (proj1 (requests_determine_arguments 7 10 7 10) eq_refl).
  - exact (proj1 (proj2 (proj2 (proj2 (proj2 (proj2 (proj2
             (requests_determine_arguments 7 10 7 10)))))))).
Defined.
